(** * GNSS-SDR relay server: state store, UDP handlers, WebSocket fan-out

    A shallow embedding of the Node.js server of the repository
    ([server/state.js], [server/udp_handlers.js], [server/websocket.js],
    [server/server.js]) and the properties of its ingestion -> state ->
    fan-out pipeline.

    Conventions of the embedding:
    - [Date.now()] readings and channel ids are integers, kept in [Z];
    - JavaScript numbers that carry measurements (cn0, Doppler) or come from
      a query string (the result-count limit) are [JsNum.number]: a rational,
      an infinity or NaN;
    - a JavaScript [Map] is an association list in insertion order;
    - effects (the clock, the module-level [latest] object, the console, the
      WebSocket server and what was sent on each socket) are threaded by a
      small state-and-exception monad [JS]; the clock is set between the
      runs of handlers and routes and does not advance within one. *)

From Stdlib Require Import ZArith QArith Bool List Ascii String Lia Lqa.
From Stdlib Require Import Permutation Sorted.
Import ListNotations.

Local Open Scope Z_scope.

(* ------------------------------------------------------------------ *)
(** ** JavaScript numbers *)

Module JsNum.

(** An IEEE double seen through the operations the server applies to it:
    subtraction, comparison with zero, truthiness and truncation.  For finite
    doubles the sign of [b - a] is the sign of the exact difference (gradual
    underflow), so rationals are exact for every use below. *)
Inductive number : Type :=
| Fin (q : Q)
| PInf
| NInf
| NaN.

Definition of_Z (z : Z) : number := Fin (inject_Z z).

(** [a - b] *)
Definition sub (a b : number) : number :=
  match a, b with
  | NaN, _ => NaN
  | _, NaN => NaN
  | Fin x, Fin y => Fin (x - y)
  | Fin _, PInf => NInf
  | Fin _, NInf => PInf
  | PInf, PInf => NaN
  | PInf, _ => PInf
  | NInf, NInf => NaN
  | NInf, _ => NInf
  end.

(** [n > 0] *)
Definition gt0 (n : number) : bool :=
  match n with
  | Fin q => negb (Qle_bool q 0)
  | PInf => true
  | NInf | NaN => false
  end.

(** [n < 0] *)
Definition lt0 (n : number) : bool :=
  match n with
  | Fin q => negb (Qle_bool 0 q)
  | NInf => true
  | PInf | NaN => false
  end.

Definition is_nan (n : number) : bool :=
  match n with NaN => true | _ => false end.

(** ToBoolean on a number: [0], [-0] and [NaN] are falsy. *)
Definition truthy (n : number) : bool :=
  match n with
  | Fin q => negb (Qeq_bool q 0)
  | NaN => false
  | PInf | NInf => true
  end.

(** [Number.isFinite] *)
Definition isFinite (n : number) : bool :=
  match n with Fin _ => true | _ => false end.

(** ToIntegerOrInfinity: NaN is 0, finite values are truncated toward 0. *)
Inductive integer_or_infinity : Type :=
| IInt (z : Z)
| IPosInf
| INegInf.

Definition ToIntegerOrInfinity (n : number) : integer_or_infinity :=
  match n with
  | NaN => IInt 0
  | PInf => IPosInf
  | NInf => INegInf
  | Fin q => IInt (Z.quot (Qnum q) (Zpos (Qden q)))
  end.

(** Numeric equality [a == b] of two numbers (false on NaN). *)
Definition eqb (a b : number) : bool :=
  match a, b with
  | Fin x, Fin y => Qeq_bool x y
  | PInf, PInf => true
  | NInf, NInf => true
  | _, _ => false
  end.

(** [a <= b] on numbers (false on NaN). *)
Definition leb (a b : number) : bool :=
  match a, b with
  | NaN, _ | _, NaN => false
  | NInf, _ => true
  | _, PInf => true
  | Fin x, Fin y => Qle_bool x y
  | _, _ => false
  end.

End JsNum.

(* ------------------------------------------------------------------ *)
(** ** Arrays *)

Module JsArray.

Section Sort.
Context {A : Type}.
Variable comparefn : A -> A -> JsNum.number.

(** SortCompare of [Array.prototype.sort]: a NaN result counts as [+0]. *)
Definition SortCompare (x y : A) : JsNum.number :=
  let v := comparefn x y in
  if JsNum.is_nan v then JsNum.of_Z 0 else v.

(** [x] is placed after the leading elements that must precede it, and
    before the first element it does not have to follow, so equal
    elements keep their order. *)
Fixpoint insert (x : A) (l : list A) : list A :=
  match l with
  | [] => [x]
  | y :: l' =>
      if JsNum.gt0 (SortCompare x y) then y :: insert x l'
      else x :: y :: l'
  end.

(** [Array.prototype.sort(comparefn)]: a stable sort.  For a consistent
    comparator every stable sort returns this list; for an inconsistent
    one the language leaves the order to the implementation. *)
Definition sort (l : list A) : list A := fold_right insert [] l.
End Sort.

(** [arr.slice(0, end)] *)
Definition slice0 {A : Type} (l : list A) (e : JsNum.number) : list A :=
  let len := Z.of_nat (List.length l) in
  let final :=
    match JsNum.ToIntegerOrInfinity e with
    | JsNum.IInt r => if r <? 0 then Z.max (len + r) 0 else Z.min r len
    | JsNum.IPosInf => len
    | JsNum.INegInf => 0
    end in
  firstn (Z.to_nat final) l.

End JsArray.

(* ------------------------------------------------------------------ *)
(** ** Maps keyed by channel id, in insertion order *)

Module JsMap.

Section Ops.
Context {V : Type}.

Definition t : Type := list (Z * V).

Definition empty : t := [].

(** [m.set(k, v)]: an existing key keeps its place, a new key goes last. *)
Fixpoint set (k : Z) (v : V) (m : t) : t :=
  match m with
  | [] => [(k, v)]
  | (k', v') :: m' =>
      if k =? k' then (k, v) :: m' else (k', v') :: set k v m'
  end.

(** [m.delete(k)] *)
Definition delete (k : Z) (m : t) : t :=
  filter (fun kv => negb (fst kv =? k)) m.

(** [m.get(k)] *)
Fixpoint get (k : Z) (m : t) : option V :=
  match m with
  | [] => None
  | (k', v') :: m' => if k =? k' then Some v' else get k m'
  end.

(** [m.size] *)
Definition size (m : t) : Z := Z.of_nat (List.length m).

Definition keys (m : t) : list Z := map fst m.

(** A [Map] holds each key once. *)
Definition wf (m : t) : Prop := NoDup (keys m).
End Ops.

Arguments t : clear implicits.

End JsMap.

(* ------------------------------------------------------------------ *)
(** ** Messages *)


(** The value protobufjs gives to an [int64] field of a decoded message: a
    [Long] object, the default value included, since the [long] library
    comes with protobufjs; a number only where that library is missing. *)
Inductive Int64Value : Type :=
| LongObject (value : Z)
| PlainNumber (value : Z).

(** [v !== 0]: an object is never strictly equal to a number. *)
Definition strict_neq_0 (v : Int64Value) : bool :=
  match v with
  | LongObject _ => true
  | PlainNumber z => negb (z =? 0)
  end.

(** One entry of a decoded [gnss_sdr.Observables] message, with the fields
    the server reads; the sampling rate [fs] is an [int64] field of the
    schema. *)
Record GnssSynchro : Type := mkGnssSynchro {
  g_system : string;
  g_signal : string;
  g_channelId : Z;
  g_prn : Z;
  g_cn0DbHz : JsNum.number;
  g_carrierDopplerHz : JsNum.number;
  g_fs : Int64Value
}.

(** A decoded [gnss_sdr.Observables]; [None] is a missing [observable]. *)
Record Observables : Type := mkObservables {
  observable : option (list GnssSynchro)
}.

(** A sample object as [state.js] receives it.  [channel_id] is [None] when
    the property is not a number, [cn0_db_hz] is [None] when it is [null] or
    [undefined]. *)
Record Sample : Type := mkSample {
  s_type : string;
  s_timestamp : string;
  system : string;
  signal : string;
  channel_id : option Z;
  prn : Z;
  cn0_db_hz : option JsNum.number;
  doppler_hz : JsNum.number
}.

(** A stored sample: [{...s, _received_at: now}]. *)
Record StoredSample : Type := mkStored {
  sample : Sample;
  _received_at : Z
}.

(** A decoded [gnss_sdr.MonitorPvt], with the fields the server reads. *)
Record MonitorPvt : Type := mkMonitorPvt {
  m_week : Z;
  m_towAtCurrentSymbolMs : Z;
  m_rxTime : JsNum.number;
  m_latitude : JsNum.number;
  m_longitude : JsNum.number;
  m_height : JsNum.number;
  m_posX : JsNum.number;
  m_posY : JsNum.number;
  m_posZ : JsNum.number;
  m_velX : JsNum.number;
  m_velY : JsNum.number;
  m_velZ : JsNum.number;
  m_velE : JsNum.number;
  m_velN : JsNum.number;
  m_velU : JsNum.number;
  m_validSats : Z;
  m_solutionStatus : Z;
  m_solutionType : Z;
  m_gdop : JsNum.number;
  m_pdop : JsNum.number;
  m_hdop : JsNum.number;
  m_vdop : JsNum.number
}.

(** The PVT message built by [handlePvtUdp]. *)
Record PvtMsg : Type := mkPvtMsg {
  p_type : string;
  p_timestamp : string;
  week : Z;
  tow_ms : Z;
  rx_time : JsNum.number;
  lat : JsNum.number;
  lon : JsNum.number;
  height : JsNum.number;
  pos_x : JsNum.number;
  pos_y : JsNum.number;
  pos_z : JsNum.number;
  vel_x : JsNum.number;
  vel_y : JsNum.number;
  vel_z : JsNum.number;
  vel_e : JsNum.number;
  vel_n : JsNum.number;
  vel_u : JsNum.number;
  valid_sats : Z;
  solution_status : Z;
  solution_type : Z;
  gdop : JsNum.number;
  pdop : JsNum.number;
  hdop : JsNum.number;
  vdop : JsNum.number
}.

(** What [broadcast] is called with. *)
Inductive Payload : Type :=
| PayloadPvt (msg : PvtMsg)
| PayloadSamples (samples : list Sample).

(* ------------------------------------------------------------------ *)
(** ** The process state *)

(** The [latest] object of [state.js]. *)
Record Latest : Type := mkLatest {
  pvt : option PvtMsg;
  pvt_timestamp : Z;
  obs_by_channel : JsMap.t StoredSample;
  obs_last_update_ms : Z
}.

Inductive ReadyState : Type := CONNECTING | OPEN | CLOSING | CLOSED.

(** A client socket of the WebSocket server.  [ws_send data] is the message
    of the error [ws.send(data)] throws, if it throws. *)
Record WebSocket : Type := mkWebSocket {
  ws_id : nat;
  readyState : ReadyState;
  ws_send : string -> option string
}.

Record World : Type := mkWorld {
  clock : Z;                           (* what [Date.now()] reads *)
  latest : Latest;
  wss : option (list WebSocket);       (* [wss] and its [clients] *)
  console : list string;               (* lines of [console.error] *)
  delivered : list (nat * string)      (* socket id, data sent on it *)
}.

Definition set_clock (t : Z) (w : World) : World :=
  mkWorld t (latest w) (wss w) (console w) (delivered w).

Definition set_latest (l : Latest) (w : World) : World :=
  mkWorld (clock w) l (wss w) (console w) (delivered w).

Definition add_console (line : string) (w : World) : World :=
  mkWorld (clock w) (latest w) (wss w) (console w ++ [line]) (delivered w).

Definition add_delivered (d : nat * string) (w : World) : World :=
  mkWorld (clock w) (latest w) (wss w) (console w) (delivered w ++ [d]).

(** The state the modules are loaded with, before [initWebSocket]. *)
Definition initial_latest : Latest := mkLatest None 0 JsMap.empty 0.

Definition initial_world (t : Z) : World :=
  mkWorld t initial_latest None [] [].

(* ------------------------------------------------------------------ *)
(** ** The monad of statements *)

Inductive Completion (A : Type) : Type :=
| Normal (a : A)
| Throw (e : string).

Arguments Normal {A} a.
Arguments Throw {A} e.

Definition JS (A : Type) : Type := World -> Completion A * World.

Definition ret {A : Type} (a : A) : JS A := fun w => (Normal a, w).

Definition bind {A B : Type} (m : JS A) (k : A -> JS B) : JS B :=
  fun w =>
    match m w with
    | (Normal a, w') => k a w'
    | (Throw e, w') => (Throw e, w')
    end.

Definition throw {A : Type} (e : string) : JS A := fun w => (Throw e, w).

(** [try { m } catch (e) { h e }] *)
Definition try_catch {A : Type} (m : JS A) (h : string -> JS A) : JS A :=
  fun w =>
    match m w with
    | (Throw e, w') => h e w'
    | r => r
    end.

Declare Scope js_scope.
Delimit Scope js_scope with js.
Notation "x <- m ;; k" := (bind m (fun x => k))
  (at level 61, m at next level, right associativity) : js_scope.
Notation "m ;; k" := (bind m (fun _ => k))
  (at level 61, right associativity) : js_scope.

Local Open Scope js_scope.

Definition Date_now : JS Z := fun w => (Normal (clock w), w).

Definition get_latest : JS Latest := fun w => (Normal (latest w), w).

Definition put_latest (l : Latest) : JS unit :=
  fun w => (Normal tt, set_latest l w).

Definition get_wss : JS (option (list WebSocket)) :=
  fun w => (Normal (wss w), w).

Definition console_error (line : string) : JS unit :=
  fun w => (Normal tt, add_console line w).

(** [list.forEach(f)] *)
Fixpoint forEach {A : Type} (f : A -> JS unit) (l : list A) : JS unit :=
  match l with
  | [] => ret tt
  | x :: l' => f x ;; forEach f l'
  end.

(** The world a statement leaves, and its completion. *)
Definition exec {A : Type} (m : JS A) (w : World) : World := snd (m w).
Definition completion {A : Type} (m : JS A) (w : World) : Completion A :=
  fst (m w).

(** [for (const x of l) { acc = body x acc }] with a local accumulator. *)
Fixpoint for_of {A S : Type} (body : A -> S -> JS S) (l : list A) (acc : S)
  : JS S :=
  match l with
  | [] => ret acc
  | x :: l' => acc' <- body x acc ;; for_of body l' acc'
  end.

(* ------------------------------------------------------------------ *)
(** ** server/state.js *)

Module State.

Definition TTL_MS : Z := 5000.

Definition with_pvt (p : option PvtMsg) (l : Latest) : Latest :=
  mkLatest p (pvt_timestamp l) (obs_by_channel l) (obs_last_update_ms l).

Definition with_pvt_timestamp (t : Z) (l : Latest) : Latest :=
  mkLatest (pvt l) t (obs_by_channel l) (obs_last_update_ms l).

Definition with_obs_by_channel (m : JsMap.t StoredSample) (l : Latest)
  : Latest :=
  mkLatest (pvt l) (pvt_timestamp l) m (obs_last_update_ms l).

Definition with_obs_last_update_ms (t : Z) (l : Latest) : Latest :=
  mkLatest (pvt l) (pvt_timestamp l) (obs_by_channel l) t.

Definition modify_latest (f : Latest -> Latest) : JS unit :=
  l <- get_latest ;; put_latest (f l).

(** [setLatestPvt(msg)] *)
Definition setLatestPvt (msg : PvtMsg) : JS unit :=
  modify_latest (with_pvt (Some msg)) ;;
  now <- Date_now ;;
  modify_latest (with_pvt_timestamp now).

(** The argument of [updateLatestObservables]: anything that is not an
    array, or an array whose falsy elements are [None]. *)
Inductive SamplesArg : Type :=
| NotAnArray
| ArrayOf (elems : list (option Sample)).

(** The body of the [for (const s of samples)] loop. *)
Definition store_sample (now : Z) (s : option Sample) : JS unit :=
  match s with
  | Some s' =>
      match channel_id s' with
      | Some id =>
          modify_latest (fun l =>
            with_obs_by_channel
              (JsMap.set id (mkStored s' now) (obs_by_channel l)) l)
      | None => ret tt
      end
  | None => ret tt
  end.

(** [updateLatestObservables(samples)] *)
Definition updateLatestObservables (samples : SamplesArg) : JS unit :=
  now <- Date_now ;;
  match samples with
  | NotAnArray => ret tt
  | ArrayOf elems =>
      forEach (store_sample now) elems ;;
      modify_latest (with_obs_last_update_ms now)
  end.

(** [getLatestPvt()] *)
Definition getLatestPvt : JS (option PvtMsg) :=
  l <- get_latest ;;
  match pvt l with
  | None => ret None
  | Some p =>
      now <- Date_now ;;
      if now - pvt_timestamp l >? TTL_MS then ret None else ret (Some p)
  end.

(** [x ?? d] *)
Definition nullish (x : option JsNum.number) (d : JsNum.number)
  : JsNum.number :=
  match x with Some n => n | None => d end.

Definition cn0_or_0 (s : StoredSample) : JsNum.number :=
  nullish (cn0_db_hz (sample s)) (JsNum.of_Z 0).

(** [(a, b) => (b.cn0_db_hz ?? 0) - (a.cn0_db_hz ?? 0)] *)
Definition by_cn0_desc (a b : StoredSample) : JsNum.number :=
  JsNum.sub (cn0_or_0 b) (cn0_or_0 a).

(** [now - s._received_at < TTL_MS] *)
Definition fresh (now : Z) (s : StoredSample) : bool :=
  now - _received_at s <? TTL_MS.

(** The body of the [for (const [id, s] of latest.obs_by_channel)] loop. *)
Definition visit_channel (now : Z) (entry : Z * StoredSample)
  (activeObs : list StoredSample) : JS (list StoredSample) :=
  let (id, s) := entry in
  if fresh now s then ret (activeObs ++ [s])
  else
    modify_latest (fun l =>
      with_obs_by_channel (JsMap.delete id (obs_by_channel l)) l) ;;
    ret activeObs.

(** [getLatestObservables({ limit = 64 } = {})]; [None] is an omitted
    limit.  Deleting the entry being visited does not disturb the iteration
    of a [Map], so the loop runs over the entries found at its start. *)
Definition getLatestObservables (limit : option JsNum.number)
  : JS (list StoredSample) :=
  let limit := match limit with Some n => n | None => JsNum.of_Z 64 end in
  now <- Date_now ;;
  l <- get_latest ;;
  activeObs <- for_of (visit_channel now) (obs_by_channel l) [] ;;
  let sorted := JsArray.sort by_cn0_desc activeObs in
  ret (if JsNum.truthy limit then JsArray.slice0 sorted limit else sorted).

Record Meta : Type := mkMeta {
  count : Z;
  pvt_age_ms : Z;
  obs_age_ms : Z;
  is_live : bool
}.

(** [getLatestObservablesMeta()] *)
Definition getLatestObservablesMeta : JS Meta :=
  now <- Date_now ;;
  l <- get_latest ;;
  ret (mkMeta (JsMap.size (obs_by_channel l))
              (now - pvt_timestamp l)
              (now - obs_last_update_ms l)
              (now - pvt_timestamp l <? TTL_MS)).

End State.

(* ------------------------------------------------------------------ *)
(** ** server/websocket.js *)

Module Websocket.

Definition set_wss (s : option (list WebSocket)) (w : World) : World :=
  mkWorld (clock w) (latest w) s (console w) (delivered w).

(** [initWebSocket(server)]: a server with no client yet. *)
Definition initWebSocket : JS unit :=
  fun w => (Normal tt, set_wss (Some []) w).

(** The [connection] event of the server: the library adds the socket to
    [wss.clients]. *)
Definition on_connection (ws : WebSocket) : JS unit :=
  fun w =>
    match wss w with
    | Some clients => (Normal tt, set_wss (Some (clients ++ [ws])) w)
    | None => (Normal tt, w)
    end.

(** [ws.send(data)] *)
Definition send (ws : WebSocket) (data : string) : JS unit :=
  fun w =>
    match ws_send ws data with
    | Some e => (Throw e, w)
    | None => (Normal tt, add_delivered (ws_id ws, data) w)
    end.

Section Broadcast.
Variable JSON_stringify : Payload -> string.

(** The callback of [wss.clients.forEach]. *)
Definition send_to (data : string) (ws : WebSocket) : JS unit :=
  match readyState ws with
  | OPEN =>
      try_catch (send ws data)
                (fun e => console_error ("WS send error: " ++ e))
  | _ => ret tt
  end.

(** [broadcast(obj)] *)
Definition broadcast (obj : Payload) : JS unit :=
  s <- get_wss ;;
  match s with
  | None => ret tt
  | Some clients =>
      let data := JSON_stringify obj in
      forEach (send_to data) clients
  end.
End Broadcast.

End Websocket.

(* ------------------------------------------------------------------ *)
(** ** server/udp_handlers.js *)

Module UdpHandlers.

Definition Buffer : Type := list Byte.byte.

(** A loaded protobuf type: [decode] returns the message or throws; [inl]
    carries the message of the error thrown. *)
Definition Decoder (M : Type) : Type := Buffer -> string + M.

Section Handlers.
Variable ObservablesMsg : option (Decoder Observables).
Variable MonitorPvtMsg : option (Decoder MonitorPvt).
(** [new Date(t).toISOString()] *)
Variable toISOString : Z -> string.
Variable JSON_stringify : Payload -> string.

Definition to_sample (now : string) (s : GnssSynchro) : Sample :=
  mkSample "observables" now (g_system s) (g_signal s)
           (Some (g_channelId s)) (g_prn s) (Some (g_cn0DbHz s))
           (g_carrierDopplerHz s).

(** [(obs.observable || []).filter((s) => s.fs !== 0).map(...)] *)
Definition samples_of (now : string) (obs : Observables) : list Sample :=
  let entries := match observable obs with Some l => l | None => [] end in
  map (to_sample now) (filter (fun s => strict_neq_0 (g_fs s)) entries).

(** [handleObsUdp(buf)] *)
Definition handleObsUdp (buf : Buffer) : JS unit :=
  match ObservablesMsg with
  | None => ret tt
  | Some T =>
      match T buf with
      | inl e => console_error ("OBS decode error: " ++ e)
      | inr obs =>
          t <- Date_now ;;
          let now := toISOString t in
          let samples := samples_of now obs in
          match samples with
          | [] => ret tt
          | _ :: _ =>
              State.updateLatestObservables
                (State.ArrayOf (map Some samples)) ;;
              Websocket.broadcast JSON_stringify (PayloadSamples samples)
          end
      end
  end.

Definition to_msg (now : string) (p : MonitorPvt) : PvtMsg :=
  mkPvtMsg "pvt" now (m_week p) (m_towAtCurrentSymbolMs p) (m_rxTime p)
           (m_latitude p) (m_longitude p) (m_height p)
           (m_posX p) (m_posY p) (m_posZ p)
           (m_velX p) (m_velY p) (m_velZ p)
           (m_velE p) (m_velN p) (m_velU p)
           (m_validSats p) (m_solutionStatus p) (m_solutionType p)
           (m_gdop p) (m_pdop p) (m_hdop p) (m_vdop p).

(** [handlePvtUdp(buf)] *)
Definition handlePvtUdp (buf : Buffer) : JS unit :=
  match MonitorPvtMsg with
  | None => ret tt
  | Some T =>
      match T buf with
      | inl e => console_error ("PVT decode error: " ++ e)
      | inr p =>
          t <- Date_now ;;
          let msg := to_msg (toISOString t) p in
          State.setLatestPvt msg ;;
          Websocket.broadcast JSON_stringify (PayloadPvt msg)
      end
  end.

(** A datagram on one of the two sockets bound by [initUdpReceivers]. *)
Inductive Datagram : Type :=
| OnObsPort (buf : Buffer)
| OnPvtPort (buf : Buffer).

Definition on_message (d : Datagram) : JS unit :=
  match d with
  | OnObsPort buf => handleObsUdp buf
  | OnPvtPort buf => handlePvtUdp buf
  end.

(** The [message] event for a datagram that arrives at time [t]. *)
Definition deliver (w : World) (ev : Z * Datagram) : World :=
  exec (on_message (snd ev)) (set_clock (fst ev) w).

(** The listeners over a sequence of arrivals. *)
Definition listen (events : list (Z * Datagram)) (w : World) : World :=
  fold_left deliver events w.
End Handlers.

End UdpHandlers.

(* ------------------------------------------------------------------ *)
(** ** server/server.js: the two snapshot routes *)

Module Server.

Definition digit_of (c : Ascii.ascii) : option Z :=
  let n := Z.of_nat (Ascii.nat_of_ascii c) in
  if (48 <=? n) && (n <=? 57) then Some (n - 48) else None.

Fixpoint digits (s : string) (acc : Z) : option Z :=
  match s with
  | EmptyString => Some acc
  | String c s' =>
      match digit_of c with
      | Some d => digits s' (10 * acc + d)
      | None => None
      end
  end.

(** The value of a string of one to fifteen decimal digits, which a double
    holds exactly. *)
Definition decimal_literal (s : string) : option Z :=
  match s with
  | EmptyString => None
  | String _ _ => if (String.length s <=? 15)%nat then digits s 0 else None
  end.

Record PvtResponse : Type := mkPvtResponse {
  pvt_ok : bool;
  pvt_body : option PvtMsg
}.

Record ObsResponse : Type := mkObsResponse {
  obs_ok : bool;
  meta : State.Meta;
  observables : list StoredSample
}.

Section Routes.
(** [Number(s)] on the strings that are not plain decimal digits. *)
Variable ToNumber_other : string -> JsNum.number.

(** [Number(s)] *)
Definition Number (s : string) : JsNum.number :=
  match decimal_literal s with
  | Some z => JsNum.of_Z z
  | None => ToNumber_other s
  end.

(** [app.get("/api/latest/pvt", ...)] *)
Definition get_latest_pvt : JS PvtResponse :=
  pvt <- State.getLatestPvt ;;
  ret (mkPvtResponse true pvt).

(** [app.get("/api/latest/observables", ...)]; [query_limit] is
    [req.query.limit], [None] when the parameter is absent. *)
Definition get_latest_observables (query_limit : option string)
  : JS ObsResponse :=
  let limit :=
    match query_limit with
    | Some s => Number s
    | None => JsNum.of_Z 64
    end in
  obs <- State.getLatestObservables
           (Some (if JsNum.isFinite limit then limit else JsNum.of_Z 64)) ;;
  meta <- State.getLatestObservablesMeta ;;
  ret (mkObsResponse true meta obs).
End Routes.

End Server.

(* ------------------------------------------------------------------ *)
(** ** Concrete data for the scenarios *)

Module Scenario.

(** A sample for channel [ch] with carrier-to-noise ratio [cn0]. *)
Definition sample_on (ch : Z) (cn0 : Q) : Sample :=
  mkSample "observables" "2024-01-01T00:00:00.000Z" "G" "1C"
           (Some ch) 1 (Some (JsNum.Fin cn0)) (JsNum.of_Z 0).

(** A sample for channel [ch] whose carrier-to-noise ratio is NaN. *)
Definition sample_nan (ch : Z) : Sample :=
  mkSample "observables" "2024-01-01T00:00:00.000Z" "G" "1C"
           (Some ch) 1 (Some JsNum.NaN) (JsNum.of_Z 0).

Definition record_batch (t : Z) (batch : list Sample) (w : World) : World :=
  exec (State.updateLatestObservables (State.ArrayOf (map Some batch)))
       (set_clock t w).

(** A PVT message with the given [valid_sats] and [solution_status]. *)
Definition fix_with (sats status : Z) : PvtMsg :=
  let z := JsNum.of_Z 0 in
  mkPvtMsg "pvt" "2024-01-01T00:00:00.000Z" 2295 0 z z z z z z z z z z z z z
           sats status 0 z z z z.

Definition record_fix (t : Z) (msg : PvtMsg) (w : World) : World :=
  exec (State.setLatestPvt msg) (set_clock t w).

(** Sixty-five channels, channel [k] with cn0 [k]. *)
Definition many_channels : list Sample :=
  map (fun k => sample_on (Z.of_nat k) (inject_Z (Z.of_nat k))) (seq 0 65).

(** A socket whose [send] throws, and one whose [send] succeeds. *)
Definition broken_socket (id : nat) : WebSocket :=
  mkWebSocket id OPEN (fun _ => Some "socket hang up"%string).

Definition good_socket (id : nat) : WebSocket :=
  mkWebSocket id OPEN (fun _ => None).

Definition world_with_clients (clients : list WebSocket) : World :=
  mkWorld 0 initial_latest (Some clients) [] [].

(** A toy wire format: an observables datagram is a sequence of two-byte
    entries, a channel id and a sampling rate [fs]. *)
Definition toy_entry (ch fs : Byte.byte) : GnssSynchro :=
  mkGnssSynchro "G" "1C" (Z.of_N (Byte.to_N ch)) 1 (JsNum.Fin (423 # 10))
                (JsNum.of_Z 0) (LongObject (Z.of_N (Byte.to_N fs))).

Fixpoint toy_entries (buf : list Byte.byte) : option (list GnssSynchro) :=
  match buf with
  | [] => Some []
  | ch :: fs :: rest =>
      match toy_entries rest with
      | Some l => Some (toy_entry ch fs :: l)
      | None => None
      end
  | [_] => None
  end.

Definition toy_obs_decoder : UdpHandlers.Decoder Observables :=
  fun buf =>
    match toy_entries buf with
    | Some l => inr (mkObservables (Some l))
    | None => inl "index out of range"%string
    end.

(** A PVT datagram of the toy format is two bytes: [valid_sats] and
    [solution_status]. *)
Definition toy_pvt_decoder : UdpHandlers.Decoder MonitorPvt :=
  fun buf =>
    match buf with
    | [a; b] =>
        let z := JsNum.of_Z 0 in
        inr (mkMonitorPvt 2295 0 z z z z z z z z z z z z z
                          (Z.of_N (Byte.to_N a)) (Z.of_N (Byte.to_N b)) 0
                          z z z z)
    | _ => inl "invalid wire type"%string
    end.

(** Two observables datagrams for channel 5: [A] is tracked at 42.3 dB-Hz
    with a sampling rate of 4 MHz, [B] is the same channel unassigned, with
    signal strength 0 and sampling rate 0. *)
Definition entry_A : GnssSynchro :=
  mkGnssSynchro "G" "1C" 5 7 (JsNum.Fin (423 # 10)) (JsNum.of_Z 1500)
                (LongObject 4000000).

Definition entry_B : GnssSynchro :=
  mkGnssSynchro "" "" 5 0 (JsNum.of_Z 0) (JsNum.of_Z 0) (LongObject 0).

Definition datagram_A : list Byte.byte := [Byte.x0a].
Definition datagram_B : list Byte.byte := [Byte.x0b].

Definition decoder_A_B : UdpHandlers.Decoder Observables :=
  fun buf =>
    match buf with
    | [Byte.x0a] => inr (mkObservables (Some [entry_A]))
    | [Byte.x0b] => inr (mkObservables (Some [entry_B]))
    | _ => inl "invalid wire type"%string
    end.

Definition toy_iso (t : Z) : string := "2024-01-01T00:00:00.000Z".

Definition toy_stringify (p : Payload) : string :=
  match p with
  | PayloadPvt _ => "{pvt}"
  | PayloadSamples _ => "[observables]"
  end.

End Scenario.

(* ------------------------------------------------------------------ *)
(** ** Readings of the loops, used to state the properties *)

Module Reading.

(** What one turn of the recording loop does to the map. *)
Definition store_in (now : Z) (m : JsMap.t StoredSample) (s : option Sample)
  : JsMap.t StoredSample :=
  match s with
  | Some s' =>
      match channel_id s' with
      | Some id => JsMap.set id (mkStored s' now) m
      | None => m
      end
  | None => m
  end.

Definition record_all (now : Z) (elems : list (option Sample))
  (m : JsMap.t StoredSample) : JsMap.t StoredSample :=
  fold_left (store_in now) elems m.

Definition fresh_entry (now : Z) (kv : Z * StoredSample) : bool :=
  State.fresh now (snd kv).

(** The entries of the map whose age is below the TTL, in map order. *)
Definition fresh_entries (now : Z) (m : JsMap.t StoredSample)
  : JsMap.t StoredSample :=
  filter (fresh_entry now) m.

Definition fresh_samples (now : Z) (m : JsMap.t StoredSample)
  : list StoredSample :=
  map snd (fresh_entries now m).

(** The number of currently-fresh channels. *)
Definition fresh_count (now : Z) (m : JsMap.t StoredSample) : Z :=
  Z.of_nat (List.length (fresh_entries now m)).

(** The keys of the map whose entry has reached the TTL. *)
Definition stale_keys (now : Z) (m : JsMap.t StoredSample) : list Z :=
  JsMap.keys (filter (fun kv => negb (fresh_entry now kv)) m).

Definition delete_all (ks : list Z) (m : JsMap.t StoredSample)
  : JsMap.t StoredSample :=
  fold_left (fun m k => JsMap.delete k m) ks m.

(** [limit ? l.slice(0, limit) : l] *)
Definition cut (limit : JsNum.number) (l : list StoredSample)
  : list StoredSample :=
  if JsNum.truthy limit then JsArray.slice0 l limit else l.

Definition limit_or_64 (limit : option JsNum.number) : JsNum.number :=
  match limit with Some n => n | None => JsNum.of_Z 64 end.

(** The limit leaves a list of [len] elements whole. *)
Definition covers (limit : JsNum.number) (len : nat) : bool :=
  negb (JsNum.truthy limit) ||
  match JsNum.ToIntegerOrInfinity limit with
  | JsNum.IInt r => Z.of_nat len <=? r
  | JsNum.IPosInf => true
  | JsNum.INegInf => false
  end.

Definition channel_of (e : StoredSample) : option Z := channel_id (sample e).


(** The store holds each channel once, under its own id. *)
Definition store_ok (m : JsMap.t StoredSample) : Prop :=
  JsMap.wf m /\ forall k e, In (k, e) m -> channel_of e = Some k.

(** Two worlds that differ at most by the clock and the console. *)
Definition same_data (w1 w2 : World) : Prop :=
  latest w1 = latest w2 /\ wss w1 = wss w2 /\ delivered w1 = delivered w2.

(** The line logged for a datagram whose decoding throws. *)
Definition decode_error
  (ObservablesMsg : option (UdpHandlers.Decoder Observables))
  (MonitorPvtMsg : option (UdpHandlers.Decoder MonitorPvt))
  (d : UdpHandlers.Datagram) : option string :=
  match d with
  | UdpHandlers.OnObsPort buf =>
      match ObservablesMsg with
      | Some T =>
          match T buf with
          | inl e => Some ("OBS decode error: " ++ e)%string
          | inr _ => None
          end
      | None => None
      end
  | UdpHandlers.OnPvtPort buf =>
      match MonitorPvtMsg with
      | Some T =>
          match T buf with
          | inl e => Some ("PVT decode error: " ++ e)%string
          | inr _ => None
          end
      | None => None
      end
  end.

(** [obs.observable || []] *)
Definition entries_of (obs : Observables) : list GnssSynchro :=
  match observable obs with Some l => l | None => [] end.

(** Entries of equal signal strength in [l] follow the order [R] on their
    channel ids. *)
Definition ties_follow (R : Z -> Z -> Prop) (l : list StoredSample) : Prop :=
  forall pre a mid b post j k,
    l = pre ++ a :: mid ++ b :: post ->
    JsNum.eqb (State.cn0_or_0 a) (State.cn0_or_0 b) = true ->
    channel_of a = Some j -> channel_of b = Some k ->
    R j k.

(** [l] is in descending order of signal strength. *)
Definition cn0_descending (l : list StoredSample) : Prop :=
  StronglySorted
    (fun a b => JsNum.leb (State.cn0_or_0 b) (State.cn0_or_0 a) = true) l.

Definition no_nan (l : list StoredSample) : Prop :=
  Forall (fun e => JsNum.is_nan (State.cn0_or_0 e) = false) l.

(** The entries of [l] whose signal strength equals [k], in order. *)
Definition tied_with (k : JsNum.number) (l : list StoredSample)
  : list StoredSample :=
  filter (fun e => JsNum.eqb (State.cn0_or_0 e) k) l.

(** The sockets [broadcast] sends [data] on: the open ones. *)
Definition is_open (ws : WebSocket) : bool :=
  match readyState ws with OPEN => true | _ => false end.

(** What a [broadcast] of [data] appends to the deliveries. *)
Definition deliveries (data : string) (clients : list WebSocket)
  : list (nat * string) :=
  flat_map (fun ws =>
              if is_open ws then
                match ws_send ws data with
                | None => [(ws_id ws, data)]
                | Some _ => []
                end
              else []) clients.

(** What a [broadcast] of [data] appends to the console. *)
Definition send_errors (data : string) (clients : list WebSocket)
  : list string :=
  flat_map (fun ws =>
              if is_open ws then
                match ws_send ws data with
                | None => []
                | Some e => [("WS send error: " ++ e)%string]
                end
              else []) clients.

(** The calls the rest of the server makes into [state.js]. *)
Inductive Call : Type :=
| CallSetLatestPvt (msg : PvtMsg)
| CallUpdateLatestObservables (samples : State.SamplesArg)
| CallGetLatestPvt
| CallGetLatestObservables (limit : option JsNum.number)
| CallGetLatestObservablesMeta.

Definition call (c : Call) : JS unit :=
  match c with
  | CallSetLatestPvt msg => State.setLatestPvt msg
  | CallUpdateLatestObservables samples =>
      State.updateLatestObservables samples
  | CallGetLatestPvt => _ <- State.getLatestPvt ;; ret tt
  | CallGetLatestObservables limit =>
      _ <- State.getLatestObservables limit ;; ret tt
  | CallGetLatestObservablesMeta =>
      _ <- State.getLatestObservablesMeta ;; ret tt
  end.

(** A history of calls, each made at its own time. *)
Definition run_calls (calls : list (Z * Call)) (w : World) : World :=
  fold_left (fun w tc => exec (call (snd tc)) (set_clock (fst tc) w))
            calls w.

End Reading.

(* ------------------------------------------------------------------ *)
(** ** Arduino APP/sketch/sketch.ino: the frame of the LED matrix *)

Module Sketch.

(** A C [float] is read as an IEEE value, with the comparisons the sketch
    uses; every constant it is compared with is a small whole number. *)
Definition float : Type := JsNum.number.

Definition of_int (z : Z) : float := JsNum.of_Z z.

(** [a <= b] *)
Definition fle (a b : float) : bool := JsNum.leb a b.

(** [a < b] *)
Definition flt (a b : float) : bool :=
  match a, b with
  | JsNum.NaN, _ => false
  | _, JsNum.NaN => false
  | JsNum.Fin x, JsNum.Fin y => negb (Qle_bool y x)
  | JsNum.Fin _, JsNum.PInf => true
  | JsNum.Fin _, JsNum.NInf => false
  | JsNum.NInf, JsNum.NInf => false
  | JsNum.NInf, _ => true
  | JsNum.PInf, _ => false
  end.

(** Conversion to [uint8_t] and to [uint16_t]. *)
Definition uint8 (z : Z) : Z := z mod 256.
Definition uint16 (z : Z) : Z := z mod 65536.

(** [static uint8_t pix[104]] *)
Definition Pix : Type := list Z.

Definition IDX (x y : Z) : Z := y * 13 + x.

(** [pix[i] = v], for an index inside the array. *)
Fixpoint store (i : nat) (v : Z) (pix : Pix) : Pix :=
  match pix, i with
  | [], _ => []
  | _ :: rest, O => v :: rest
  | a :: rest, S i' => a :: store i' v rest
  end.

(** [pix[i]] *)
Definition load (i : Z) (pix : Pix) : Z := nth (Z.to_nat i) pix 0.

Definition clearPix (v : Z) : Pix := repeat v 104.

(** [x < 0 || x >= 13 || y < 0 || y >= 8] *)
Definition outside (x y : Z) : bool :=
  (x <? 0) || (x >=? 13) || (y <? 0) || (y >=? 8).

Definition put (x y v : Z) (pix : Pix) : Pix :=
  if outside x y then pix
  else store (Z.to_nat (IDX x y)) v pix.

Definition add (x y v : Z) (pix : Pix) : Pix :=
  if outside x y then pix
  else
    let t := uint16 (load (IDX x y) pix + v) in
    store (Z.to_nat (IDX x y)) (if t >? 7 then 7 else uint8 t) pix.

Definition cn0ToHeight (cn0 : float) : Z :=
  if fle cn0 (of_int 0) then 0
  else if flt cn0 (of_int 20) then 1
  else if flt cn0 (of_int 28) then 2
  else if flt cn0 (of_int 35) then 3
  else if flt cn0 (of_int 42) then 4
  else 5.

Definition cn0ToBright (cn0 : float) : Z :=
  if fle cn0 (of_int 0) then 0
  else if flt cn0 (of_int 20) then 1
  else if flt cn0 (of_int 28) then 2
  else if flt cn0 (of_int 35) then 4
  else if flt cn0 (of_int 42) then 6
  else 7.

Definition SATS_X : Z := 0.
Definition SATS_Y_LSB : Z := 7.
Definition N_BARS : Z := 6.
Definition BAR_X0 : Z := 2.
Definition BAR_Y_BASE : Z := 7.
Definition PVT_X0 : Z := 1.
Definition PVT_Y : Z := 0.
Definition BOX_X0 : Z := 8.
Definition BOX_Y0 : Z := 1.
Definition BOX_W : Z := 5.
Definition BOX_H : Z := 5.

(** The variables of the sketch that the drawing reads and writes. *)
Record Display : Type := mkDisplay {
  pvt : Z;
  sv : Z;
  cn0 : list float;       (* [static float cn0[6]] *)
  cn0N : Z;
  dotX : Z;
  dotY : Z;
  pulse : bool
}.

(** [0, 1, ..., n - 1]: the values of [k] in [for (k = 0; k < n; ++k)]. *)
Definition upto (n : Z) : list Z := map Z.of_nat (seq 0 (Z.to_nat n)).

(** [a, a + 1, ..., b - 1] *)
Definition from_to (a b : Z) : list Z := map (fun k => a + k) (upto (b - a)).

Definition drawPvt2x1 (d : Display) (pix : Pix) : Pix :=
  let b := if pvt d <=? 0 then (if pulse d then 7 else 0) else 7 in
  put (PVT_X0 + 1) PVT_Y b (put PVT_X0 PVT_Y b pix).

Definition drawSatsBinary4bit (d : Display) (pix : Pix) : Pix :=
  let s := sv d in
  let s := if s <? 0 then 0 else s in
  let s := if s >? 12 then 12 else s in
  fold_left
    (fun pix b =>
       if Z.land (Z.shiftr s b) 1 =? 0 then pix
       else put SATS_X (SATS_Y_LSB - b) 7 pix)
    (upto 4) pix.

(** [cn0[i]] *)
Definition cn0_at (d : Display) (i : Z) : float :=
  nth (Z.to_nat i) (cn0 d) (of_int 0).

Definition drawCn0Bars (d : Display) (pix : Pix) : Pix :=
  fold_left
    (fun pix i =>
       let v := if i <? cn0N d then cn0_at d i else of_int 0 in
       let h := cn0ToHeight v in
       let b := cn0ToBright v in
       let x := BAR_X0 + i in
       fold_left (fun pix k => add x (BAR_Y_BASE - k) b pix) (upto h) pix)
    (upto N_BARS) pix.

(** What [drawHeadingSpeedDot] gets out of its timer and of its arithmetic
    on [float]s: whether [now - lastDotStepMs >= stepMs], the direction
    [(int)((hdg + 22.5f) / 45.0f) & 7], and whether [spd < 0.2f]. *)
Record Motion : Type := mkMotion {
  due : bool;
  dir : Z;
  slow : bool
}.

Definition direction (dir : Z) : Z * Z :=
  match dir with
  | 0 => (1, 0)
  | 1 => (1, 1)
  | 2 => (0, 1)
  | 3 => (-1, 1)
  | 4 => (-1, 0)
  | 5 => (-1, -1)
  | 6 => (0, -1)
  | 7 => (1, -1)
  | _ => (0, 0)
  end.

(** The [if (now - lastDotStepMs >= stepMs) { ... }] block. *)
Definition stepDot (m : Motion) (d : Display) : Display :=
  if due m then
    let (dx, dy) := direction (dir m) in
    let (x, y) :=
      if slow m then (BOX_X0 + BOX_W / 2, BOX_Y0 + BOX_H / 2)
      else
        let x := dotX d + dx in
        let y := dotY d + dy in
        let x := if x <? BOX_X0 then BOX_X0 else x in
        let x := if x >? BOX_X0 + BOX_W - 1 then BOX_X0 + BOX_W - 1 else x in
        let y := if y <? BOX_Y0 then BOX_Y0 else y in
        let y := if y >? BOX_Y0 + BOX_H - 1 then BOX_Y0 + BOX_H - 1 else y in
        (x, y) in
    mkDisplay (pvt d) (sv d) (cn0 d) (cn0N d) x y (pulse d)
  else d.

Definition drawBorder (pix : Pix) : Pix :=
  let pix :=
    fold_left (fun pix x => add x (BOX_Y0 + BOX_H - 1) 1 (add x BOX_Y0 1 pix))
              (from_to BOX_X0 (BOX_X0 + BOX_W)) pix in
  fold_left (fun pix y => add (BOX_X0 + BOX_W - 1) y 1 (add BOX_X0 y 1 pix))
            (from_to BOX_Y0 (BOX_Y0 + BOX_H)) pix.

(** [for (i = 0; i < cn0N; ++i) if (cn0[i] > best) best = cn0[i];] *)
Definition best_cn0 (d : Display) : float :=
  fold_left (fun best i => if flt best (cn0_at d i) then cn0_at d i else best)
            (upto (cn0N d)) (of_int 0).

Definition drawHeadingSpeedDot (m : Motion) (d : Display) (pix : Pix)
  : Display * Pix :=
  let pix := drawBorder pix in
  let d := stepDot m d in
  let b := cn0ToBright (best_cn0 d) in
  let b := if b <? 3 then 3 else b in
  (d, put (dotX d) (dotY d) b pix).

(** [renderFrame()]: the display variables afterwards and the frame handed
    to [matrix.draw]. *)
Definition renderFrame (m : Motion) (d : Display) : Display * Pix :=
  let pix := clearPix 0 in
  let pix := drawPvt2x1 d pix in
  let pix := drawSatsBinary4bit d pix in
  let pix := drawCn0Bars d pix in
  drawHeadingSpeedDot m d pix.

(** The display variables as the sketch initialises them. *)
Definition initial_display : Display :=
  mkDisplay 0 0 (repeat (of_int 0) 6) 0
            (BOX_X0 + BOX_W / 2) (BOX_Y0 + BOX_H / 2) false.

(** The dot is inside the box. *)
Definition in_box (d : Display) : Prop :=
  BOX_X0 <= dotX d <= BOX_X0 + BOX_W - 1 /\
  BOX_Y0 <= dotY d <= BOX_Y0 + BOX_H - 1.

(** The array [cn0] has six elements, of which the first [cn0N] are in
    use ([parseCn0List] is called with [maxN = 6]). *)
Definition display_ok (d : Display) : Prop :=
  List.length (cn0 d) = 6%nat /\ 0 <= cn0N d <= 6.

(** The height and the brightness of bar [i]. *)
Definition bar_value (d : Display) (i : Z) : float :=
  if i <? cn0N d then cn0_at d i else of_int 0.

(** A frame of 104 pixels of 3-bit grayscale. *)
Definition frame_ok (pix : Pix) : Prop :=
  List.length pix = 104%nat /\ Forall (fun v => 0 <= v <= 7) pix.

(** [sv] clamped to [0, 12]. *)
Definition clamp_sv (s : Z) : Z := Z.min 12 (Z.max 0 s).

(** The number read off column 0: a lit pixel in row [7 - b] is bit [b]. *)
Definition sats_shown (pix : Pix) : Z :=
  fold_left
    (fun n b => if load (IDX 0 (7 - b)) pix =? 7 then n + 2 ^ b else n)
    (upto 4) 0.

End Sketch.

(* ------------------------------------------------------------------ *)
(** ** Arduino APP/sketch/sketch.ino: polling the bridge *)

Module SketchLoop.

(** The methods of the Arduino [String] class that the sketch calls. *)

(** [strchr] from position [from]: the first position of [c] at or after
    [from]. *)
Fixpoint find_char (c : Ascii.ascii) (s : string) (from : nat) : option nat :=
  match s with
  | EmptyString => None
  | String a s' =>
      match from with
      | O => if Ascii.eqb a c then Some O
             else option_map S (find_char c s' O)
      | S from' => option_map S (find_char c s' from')
      end
  end.

(** [strstr]: the first position at which [key] occurs in [s]. *)
Fixpoint find_sub (key s : string) : option nat :=
  if String.prefix key s then Some O
  else
    match s with
    | EmptyString => None
    | String _ s' => option_map S (find_sub key s')
    end.

Definition index_or_minus_1 (r : option nat) : Z :=
  match r with Some i => Z.of_nat i | None => -1 end.

(** [s.indexOf(c, from)] *)
Definition indexOf_char (s : string) (c : Ascii.ascii) (from : Z) : Z :=
  index_or_minus_1 (find_char c s (Z.to_nat from)).

(** [s.indexOf(key)], which is [-1] on an empty [s]. *)
Definition indexOf (s key : string) : Z :=
  match s with
  | EmptyString => -1
  | String _ _ => index_or_minus_1 (find_sub key s)
  end.

(** [s.length()] *)
Definition len (s : string) : Z := Z.of_nat (String.length s).

(** [s.substring(left, right)] *)
Definition substring (s : string) (left right : Z) : string :=
  let l := if right <? left then right else left in
  let r := if right <? left then left else right in
  if len s <=? l then EmptyString
  else
    let r := if len s <? r then len s else r in
    String.substring (Z.to_nat l) (Z.to_nat (r - l)) s.

(** [isspace] *)
Definition isspace (c : Ascii.ascii) : bool :=
  let n := Ascii.nat_of_ascii c in
  Nat.eqb n 32 || (Nat.leb 9 n && Nat.leb n 13).

Fixpoint trim_left (s : string) : string :=
  match s with
  | EmptyString => EmptyString
  | String c s' => if isspace c then trim_left s' else s
  end.

Fixpoint trim_right (s : string) : string :=
  match s with
  | EmptyString => EmptyString
  | String c s' =>
      match trim_right s' with
      | EmptyString => if isspace c then EmptyString
                       else String c EmptyString
      | r => String c r
      end
  end.

(** [s.trim()] *)
Definition trim (s : string) : string := trim_right (trim_left s).

(** [a[i] = v], for an index inside the array. *)
Fixpoint set_at {A : Type} (i : nat) (v : A) (a : list A) : list A :=
  match a, i with
  | [], _ => []
  | _ :: rest, O => v :: rest
  | x :: rest, S i' => x :: set_at i' v rest
  end.

Section Bridge.
(** [String::toInt] and [(float) String::toDouble]. *)
Variable toInt : string -> Z.
Variable toDouble : string -> Sketch.float.

(** [extractToken(s, key, out)]: [None] when it returns [false], the value
    of [out] otherwise. *)
Definition extractToken (s key : string) : option string :=
  let i := indexOf s key in
  if i <? 0 then None
  else
    let i := i + len key in
    let j := indexOf_char s ";"%char i in
    let j := if j <? 0 then len s else j in
    Some (trim (substring s i j)).

Definition extractInt (s key : string) (def : Z) : Z :=
  match extractToken s key with
  | None => def
  | Some t => toInt t
  end.

Definition extractFloat (s key : string) (def : Sketch.float)
  : Sketch.float :=
  match extractToken s key with
  | None => def
  | Some t => toDouble t
  end.

(** The [while (n < maxN)] loop of [parseCn0List], for at most [fuel]
    turns; [None] when the turns run out. *)
Fixpoint parse_loop (fuel : nat) (t : string) (maxN n start : Z)
    (cn0 : list Sketch.float) : option (Z * list Sketch.float) :=
  match fuel with
  | O => None
  | S fuel' =>
      if n <? maxN then
        let comma := indexOf_char t ","%char start in
        let part :=
          trim (if comma <? 0 then substring t start (len t)
                else substring t start comma) in
        let n' := if 0 <? len part then n + 1 else n in
        let cn0' := if 0 <? len part
                    then set_at (Z.to_nat n) (toDouble part) cn0
                    else cn0 in
        if comma <? 0 then Some (n', cn0')
        else parse_loop fuel' t maxN n' (comma + 1) cn0'
      else Some (n, cn0)
  end.

(** [parseCn0List(s, cn0, maxN)]: the count returned and the array. *)
Definition parseCn0List (s : string) (cn0 : list Sketch.float) (maxN : Z)
  : option (Z * list Sketch.float) :=
  match extractToken s "C=" with
  | None => Some (0, cn0)
  | Some t => parse_loop (S (S (String.length t))) t maxN 0 0 cn0
  end.

(** The variables [loop()] sets from the status string. *)
Record Vars : Type := mkVars {
  display : Sketch.Display;
  age_s : Sketch.float;
  heading_deg : Sketch.float;
  speed_mps : Sketch.float;
  failCount : Z
}.

(** The first half of [loop()], from the outcome of
    [Bridge.call("get_gnss_status").result(status)]: [Some status] when it
    is [true].  [failCount] is an [int] taken in [Z]. *)
Definition poll (result : option string) (v : Vars) : option Vars :=
  let d := display v in
  match result with
  | Some status =>
      let pvt := extractInt status "P=" (Sketch.pvt d) in
      let sv := extractInt status "S=" (Sketch.sv d) in
      let age := extractFloat status "A=" (age_s v) in
      let hdg := extractFloat status "H=" (heading_deg v) in
      let spd := extractFloat status "V=" (speed_mps v) in
      match parseCn0List status (Sketch.cn0 d) 6 with
      | Some (n, cn0) =>
          Some (mkVars
                  (Sketch.mkDisplay pvt sv cn0 n (Sketch.dotX d)
                                    (Sketch.dotY d) (Sketch.pulse d))
                  age hdg spd 0)
      | None => None
      end
  | None =>
      let fc := failCount v + 1 in
      if fc >? 30 then
        Some (mkVars
                (Sketch.mkDisplay 0 0 (Sketch.cn0 d) 0 (Sketch.dotX d)
                                  (Sketch.dotY d) (Sketch.pulse d))
                (JsNum.of_Z 99) (heading_deg v) (JsNum.of_Z 0) fc)
      else
        Some (mkVars d (age_s v) (heading_deg v) (speed_mps v) fc)
  end.

(** The outcomes of successive polls, the first one first. *)
Fixpoint polls (results : list (option string)) (v : Vars) : option Vars :=
  match results with
  | [] => Some v
  | r :: rest =>
      match poll r v with
      | Some v' => polls rest v'
      | None => None
      end
  end.
End Bridge.

End SketchLoop.

(* ================================================================== *)
(** * Properties *)

(** ** Maps *)

Module JsMapFacts.
Import JsMap.

Section Facts.
Context {V : Type}.
Implicit Types (m : JsMap.t V) (k : Z) (v : V).

Lemma get_set_same k v m : get k (set k v m) = Some v.
Proof.
  induction m as [|[k' v'] m IH]; simpl.
  - now rewrite Z.eqb_refl.
  - destruct (k =? k') eqn:E; simpl; rewrite ?Z.eqb_refl, ?E; auto.
Qed.

Lemma get_set_other k k' v m : k <> k' -> get k (set k' v m) = get k m.
Proof.
  intros Hne. induction m as [|[k2 v2] m IH]; simpl.
  - destruct (k =? k') eqn:E; auto. apply Z.eqb_eq in E. contradiction.
  - destruct (k' =? k2) eqn:E; simpl.
    + apply Z.eqb_eq in E. subst k2.
      destruct (k =? k') eqn:E'; auto.
      apply Z.eqb_eq in E'. contradiction.
    + now rewrite IH.
Qed.

Lemma in_keys_set k k' v m :
  In k' (keys (set k v m)) <-> k' = k \/ In k' (keys m).
Proof.
  unfold keys. induction m as [|[k2 v2] m IH]; simpl.
  - intuition.
  - destruct (k =? k2) eqn:E; simpl.
    + apply Z.eqb_eq in E. subst. intuition.
    + rewrite IH. intuition.
Qed.

Lemma wf_set k v m : wf m -> wf (set k v m).
Proof.
  unfold wf. induction m as [|[k2 v2] m IH]; simpl; intros H.
  - repeat constructor. intros [].
  - destruct (k =? k2) eqn:E; simpl.
    + apply Z.eqb_eq in E. now subst.
    + inversion_clear H as [|? ? Hnin Hnd]. constructor; auto.
      intros Hin. apply in_keys_set in Hin. destruct Hin as [->|Hin].
      * rewrite Z.eqb_refl in E. discriminate.
      * contradiction.
Qed.

Lemma in_set k v k' v' m :
  In (k', v') (set k v m) -> (k' = k /\ v' = v) \/ In (k', v') m.
Proof.
  induction m as [|[k2 v2] m IH]; simpl.
  - intros [H|[]]. inversion H. auto.
  - destruct (k =? k2) eqn:E; simpl.
    + intros [H|H]; [inversion H; auto | auto].
    + intros [H|H]; auto. destruct (IH H); auto.
Qed.

Lemma wf_filter (p : Z * V -> bool) m : wf m -> wf (filter p m).
Proof.
  unfold wf, keys. induction m as [|[k v] m IH]; simpl; intros H; auto.
  inversion_clear H as [|? ? Hnin Hnd].
  destruct (p (k, v)); simpl; auto. constructor; auto.
  intros Hin. apply Hnin. apply in_map_iff in Hin.
  destruct Hin as [[k' v'] [Hk Hin]]. apply filter_In in Hin.
  apply in_map_iff. exists (k', v'). tauto.
Qed.

Lemma wf_unique k v v' m : wf m -> In (k, v) m -> In (k, v') m -> v = v'.
Proof.
  unfold wf, keys. induction m as [|[k2 v2] m IH]; simpl; intros H H1 H2.
  - contradiction.
  - inversion_clear H as [|? ? Hnin Hnd].
    destruct H1 as [H1|H1], H2 as [H2|H2].
    + congruence.
    + inversion H1; subst. exfalso. apply Hnin.
      apply in_map_iff. now exists (k, v').
    + inversion H2; subst. exfalso. apply Hnin.
      apply in_map_iff. now exists (k, v).
    + eauto.
Qed.

Lemma get_in k v m : get k m = Some v -> In (k, v) m.
Proof.
  induction m as [|[k2 v2] m IH]; simpl; [discriminate|].
  destruct (k =? k2) eqn:E.
  - apply Z.eqb_eq in E. intros H. inversion H. subst. now left.
  - auto.
Qed.

Lemma in_get k v m : wf m -> In (k, v) m -> get k m = Some v.
Proof.
  intros Hwf Hin. destruct (get k m) as [v'|] eqn:G.
  - apply get_in in G. f_equal. eapply wf_unique; eauto.
  - exfalso. clear Hwf. induction m as [|[k2 v2] m IH]; simpl in *; auto.
    destruct (k =? k2) eqn:E; [discriminate|].
    destruct Hin as [H|H]; auto.
    inversion H. subst. rewrite Z.eqb_refl in E. discriminate.
Qed.

Lemma get_filter_none (p : Z * V -> bool) k v m :
  wf m -> In (k, v) m -> p (k, v) = false -> get k (filter p m) = None.
Proof.
  intros Hwf Hin Hp. destruct (get k (filter p m)) as [v'|] eqn:G; auto.
  apply get_in in G. apply filter_In in G. destruct G as [G Hp'].
  assert (v = v') by (eapply wf_unique; eauto). subst. congruence.
Qed.

Lemma get_filter_some (p : Z * V -> bool) k v m :
  wf m -> In (k, v) m -> p (k, v) = true -> get k (filter p m) = Some v.
Proof.
  intros Hwf Hin Hp. apply in_get.
  - now apply wf_filter.
  - apply filter_In. auto.
Qed.
End Facts.

End JsMapFacts.

(** ** The state store, statement by statement *)

Module StateFacts.
Import Reading.

Lemma set_latest_same w : set_latest (latest w) w = w.
Proof. now destruct w. Qed.

Lemma with_obs_same l : State.with_obs_by_channel (obs_by_channel l) l = l.
Proof. now destruct l. Qed.

Lemma run_setLatestPvt msg w :
  State.setLatestPvt msg w =
  (Normal tt,
   set_latest (mkLatest (Some msg) (clock w)
                        (obs_by_channel (latest w))
                        (obs_last_update_ms (latest w))) w).
Proof. reflexivity. Qed.

Lemma run_store_sample now s w :
  State.store_sample now s w =
  (Normal tt,
   set_latest (State.with_obs_by_channel
                 (store_in now (obs_by_channel (latest w)) s) (latest w)) w).
Proof.
  destruct s as [s|]; simpl.
  - destruct (channel_id s); simpl; auto.
    unfold ret. now rewrite with_obs_same, set_latest_same.
  - unfold ret. now rewrite with_obs_same, set_latest_same.
Qed.

Lemma run_forEach_store now elems w :
  forEach (State.store_sample now) elems w =
  (Normal tt,
   set_latest (State.with_obs_by_channel
                 (record_all now elems (obs_by_channel (latest w)))
                 (latest w)) w).
Proof.
  revert w. induction elems as [|s elems IH]; intros w; simpl.
  - unfold ret. now rewrite with_obs_same, set_latest_same.
  - unfold bind. rewrite run_store_sample, IH. reflexivity.
Qed.

Lemma run_updateLatestObservables elems w :
  State.updateLatestObservables (State.ArrayOf elems) w =
  (Normal tt,
   set_latest (mkLatest (pvt (latest w)) (pvt_timestamp (latest w))
                        (record_all (clock w) elems
                                    (obs_by_channel (latest w)))
                        (clock w)) w).
Proof.
  unfold State.updateLatestObservables, bind, Date_now.
  rewrite run_forEach_store. reflexivity.
Qed.

Lemma run_getLatestPvt w :
  State.getLatestPvt w =
  (Normal match pvt (latest w) with
          | None => None
          | Some p =>
              if clock w - pvt_timestamp (latest w) >? State.TTL_MS
              then None else Some p
          end, w).
Proof.
  unfold State.getLatestPvt, bind, get_latest, Date_now.
  destruct (pvt (latest w)); auto.
  destruct (_ >? _); reflexivity.
Qed.

Lemma run_getLatestObservablesMeta w :
  State.getLatestObservablesMeta w =
  (Normal (State.mkMeta (JsMap.size (obs_by_channel (latest w)))
                        (clock w - pvt_timestamp (latest w))
                        (clock w - obs_last_update_ms (latest w))
                        (clock w - pvt_timestamp (latest w) <? State.TTL_MS)),
   w).
Proof. reflexivity. Qed.

(** The eviction loop: it collects the fresh samples and deletes the keys of
    the others. *)
Lemma run_visit now entries acc w :
  for_of (State.visit_channel now) entries acc w =
  (Normal (acc ++ fresh_samples now entries),
   set_latest (State.with_obs_by_channel
                 (delete_all (stale_keys now entries)
                             (obs_by_channel (latest w)))
                 (latest w)) w).
Proof.
  revert acc w. induction entries as [|[id s] entries IH]; intros acc w.
  - simpl. unfold ret, fresh_samples. simpl.
    now rewrite app_nil_r, with_obs_same, set_latest_same.
  - simpl. unfold bind, fresh_samples, fresh_entries, stale_keys.
    simpl. change (fresh_entry now (id, s)) with (State.fresh now s).
    destruct (State.fresh now s) eqn:F; simpl.
    + unfold ret. rewrite IH. unfold fresh_samples, fresh_entries, stale_keys.
      now rewrite <- app_assoc.
    + rewrite IH. reflexivity.
Qed.

Lemma delete_all_filter ks (m : JsMap.t StoredSample) :
  delete_all ks m =
  filter (fun kv => negb (existsb (fun k => fst kv =? k) ks)) m.
Proof.
  revert m. induction ks as [|k ks IH]; intros m; simpl.
  - induction m as [|kv m IHm]; simpl; congruence.
  - unfold delete_all in *. simpl. rewrite IH. unfold JsMap.delete.
    induction m as [|kv m IHm]; simpl; auto.
    destruct (fst kv =? k); simpl; rewrite IHm; reflexivity.
Qed.

Lemma delete_all_stale now (m : JsMap.t StoredSample) :
  JsMap.wf m -> delete_all (stale_keys now m) m = fresh_entries now m.
Proof.
  intros Hwf. rewrite delete_all_filter. unfold fresh_entries.
  apply filter_ext_in. intros [k e] Hin. simpl.
  destruct (fresh_entry now (k, e)) eqn:F.
  - apply negb_true_iff. apply not_true_iff_false. intros Hex.
    apply existsb_exists in Hex. destruct Hex as [k' [Hk' Heq]].
    apply Z.eqb_eq in Heq. subst k'.
    unfold stale_keys, JsMap.keys in Hk'. apply in_map_iff in Hk'.
    destruct Hk' as [[k2 e2] [Hk2 Hin2]]. simpl in Hk2. subst k2.
    apply filter_In in Hin2. destruct Hin2 as [Hin2 Hst].
    assert (e = e2) by (eapply JsMapFacts.wf_unique; eauto). subst e2.
    rewrite F in Hst. discriminate.
  - apply negb_false_iff. apply existsb_exists. exists k. split.
    + unfold stale_keys, JsMap.keys. apply in_map_iff. exists (k, e).
      split; auto. apply filter_In. split; auto. now rewrite F.
    + apply Z.eqb_refl.
Qed.

Lemma result_getLatestObservables limit w :
  completion (State.getLatestObservables limit) w =
  Normal (cut (limit_or_64 limit)
              (JsArray.sort State.by_cn0_desc
                 (fresh_samples (clock w) (obs_by_channel (latest w))))).
Proof.
  unfold completion, State.getLatestObservables, bind, Date_now, get_latest.
  rewrite run_visit. reflexivity.
Qed.

Lemma run_getLatestObservables_any limit w :
  State.getLatestObservables limit w =
  (Normal (cut (limit_or_64 limit)
               (JsArray.sort State.by_cn0_desc
                  (fresh_samples (clock w) (obs_by_channel (latest w))))),
   set_latest (State.with_obs_by_channel
                 (delete_all (stale_keys (clock w)
                                         (obs_by_channel (latest w)))
                             (obs_by_channel (latest w)))
                 (latest w)) w).
Proof.
  unfold State.getLatestObservables, bind, Date_now, get_latest.
  rewrite run_visit. reflexivity.
Qed.

Lemma run_getLatestObservables limit w :
  JsMap.wf (obs_by_channel (latest w)) ->
  State.getLatestObservables limit w =
  (Normal (cut (limit_or_64 limit)
               (JsArray.sort State.by_cn0_desc
                  (fresh_samples (clock w) (obs_by_channel (latest w))))),
   set_latest (State.with_obs_by_channel
                 (fresh_entries (clock w) (obs_by_channel (latest w)))
                 (latest w)) w).
Proof.
  intros Hwf. rewrite run_getLatestObservables_any.
  now rewrite delete_all_stale.
Qed.

End StateFacts.

(** ** Numbers and sorting *)

Module JsNumFacts.
Import JsNum.

Lemma Qle_bool_sub (x y : Q) : Qle_bool (y - x) 0 = Qle_bool y x.
Proof.
  destruct (Qle_bool y x) eqn:E.
  - apply Qle_bool_iff in E. apply Qle_bool_iff. lra.
  - apply not_true_iff_false. intros H. apply Qle_bool_iff in H.
    apply not_true_iff_false in E. apply E. apply Qle_bool_iff. lra.
Qed.

(** The comparator's verdict read on the operands: [b - a > 0], with a NaN
    difference counted as zero, says that [b <= a] fails. *)
Lemma gt0_sub (a b : number) :
  is_nan a = false -> is_nan b = false ->
  gt0 (let v := sub b a in if is_nan v then of_Z 0 else v) = negb (leb b a).
Proof.
  destruct a as [x| | |], b as [y| | |]; simpl; intros Ha Hb;
    try discriminate; try reflexivity.
  now rewrite Qle_bool_sub.
Qed.

(** A positive verdict is only given on two numbers. *)
Lemma gt0_sub_strict (a b : number) :
  gt0 (let v := sub b a in if is_nan v then of_Z 0 else v) = true ->
  leb b a = false.
Proof.
  destruct a as [x| | |], b as [y| | |]; simpl; intros H;
    try discriminate; try reflexivity.
  rewrite Qle_bool_sub in H. now apply negb_true_iff in H.
Qed.

Lemma leb_total (a b : number) :
  is_nan a = false -> is_nan b = false -> leb a b = false -> leb b a = true.
Proof.
  destruct a as [x| | |], b as [y| | |]; simpl; intros Ha Hb H;
    try discriminate; try reflexivity.
  apply Qle_bool_iff. apply not_true_iff_false in H.
  rewrite Qle_bool_iff in H. lra.
Qed.

Lemma leb_trans (a b c : number) :
  leb a b = true -> leb b c = true -> leb a c = true.
Proof.
  destruct a as [x| | |], b as [y| | |], c as [z| | |]; simpl;
    intros H1 H2; try discriminate; try reflexivity.
  apply Qle_bool_iff in H1. apply Qle_bool_iff in H2.
  apply Qle_bool_iff. lra.
Qed.

(** Two numbers equal to a third are ordered both ways. *)
Lemma eqb_leb (a b k : number) :
  eqb a k = true -> eqb b k = true -> leb b a = true.
Proof.
  destruct a as [x| | |], b as [y| | |], k as [z| | |]; simpl;
    intros H1 H2; try discriminate; try reflexivity.
  apply Qeq_bool_iff in H1. apply Qeq_bool_iff in H2.
  apply Qle_bool_iff. lra.
Qed.

End JsNumFacts.

Module SortFacts.
Import Reading.

Local Abbreviation key := State.cn0_or_0.
Local Abbreviation sorted_insert := (JsArray.insert State.by_cn0_desc).
Local Abbreviation sort_by_cn0 := (JsArray.sort State.by_cn0_desc).

Lemma insert_perm x l : Permutation (sorted_insert x l) (x :: l).
Proof.
  induction l as [|y l IH]; simpl; auto.
  destruct (JsNum.gt0 _); auto.
  rewrite IH. apply perm_swap.
Qed.

Lemma sort_perm l : Permutation (sort_by_cn0 l) l.
Proof.
  induction l as [|x l IH]; simpl; auto.
  rewrite insert_perm. now constructor.
Qed.

Lemma sort_in x l : In x (sort_by_cn0 l) <-> In x l.
Proof.
  split; apply Permutation_in; [|symmetry]; apply sort_perm.
Qed.

Lemma sort_length l : List.length (sort_by_cn0 l) = List.length l.
Proof. apply Permutation_length, sort_perm. Qed.

Lemma passes_strict x y :
  JsNum.gt0 (JsArray.SortCompare State.by_cn0_desc x y) = true ->
  JsNum.leb (key y) (key x) = false.
Proof. apply JsNumFacts.gt0_sub_strict. Qed.

Lemma stops_le x y :
  JsNum.is_nan (key x) = false -> JsNum.is_nan (key y) = false ->
  JsNum.gt0 (JsArray.SortCompare State.by_cn0_desc x y) = false ->
  JsNum.leb (key y) (key x) = true.
Proof.
  intros Hx Hy H. unfold JsArray.SortCompare, State.by_cn0_desc in H.
  rewrite JsNumFacts.gt0_sub in H by assumption.
  now apply negb_false_iff in H.
Qed.

Lemma insert_sorted x l :
  JsNum.is_nan (key x) = false -> no_nan l ->
  cn0_descending l -> cn0_descending (sorted_insert x l).
Proof.
  unfold cn0_descending, no_nan.
  intros Hx Hn Hs. induction Hs as [|y l Hs IH Hall]; simpl.
  - repeat constructor.
  - inversion_clear Hn as [|? ? Hy Hn'].
    destruct (JsNum.gt0 _) eqn:G.
    + constructor; auto.
      apply (Permutation_Forall (x := x :: l)).
      * symmetry. apply insert_perm.
      * constructor; auto.
        apply JsNumFacts.leb_total; auto. now apply passes_strict.
    + assert (Hxy : JsNum.leb (key y) (key x) = true)
        by now apply stops_le.
      constructor.
      * now constructor.
      * constructor; auto.
        eapply Forall_impl; [|exact Hall]. simpl. intros z Hz.
        eapply JsNumFacts.leb_trans; eauto.
Qed.

Lemma no_nan_perm l l' : Permutation l l' -> no_nan l -> no_nan l'.
Proof. intros HP. now apply Permutation_Forall. Qed.

Lemma sort_sorted l : no_nan l -> cn0_descending (sort_by_cn0 l).
Proof.
  intros Hn. induction Hn as [|x l Hx Hn IH]; simpl.
  - constructor.
  - apply insert_sorted; auto.
    eapply no_nan_perm; [symmetry; apply sort_perm | exact Hn].
Qed.

(** The sort is stable: the entries of one signal strength keep the order
    they had. *)
Lemma insert_tied k x l :
  tied_with k (sorted_insert x l) = tied_with k (x :: l).
Proof.
  induction l as [|y l IH]; simpl; auto.
  destruct (JsNum.gt0 _) eqn:G; auto.
  apply passes_strict in G. unfold tied_with in *. simpl in *.
  rewrite IH.
  destruct (JsNum.eqb (key x) k) eqn:Ex, (JsNum.eqb (key y) k) eqn:Ey; auto.
  rewrite (JsNumFacts.eqb_leb _ _ _ Ex Ey) in G. discriminate.
Qed.

Lemma sort_stable k l : tied_with k (sort_by_cn0 l) = tied_with k l.
Proof.
  induction l as [|x l IH]; simpl; auto.
  rewrite insert_tied. unfold tied_with in *. simpl. now rewrite IH.
Qed.

Lemma firstn_sorted n l : cn0_descending l -> cn0_descending (firstn n l).
Proof.
  unfold cn0_descending. intros Hs. revert n.
  induction Hs as [|x l Hs IH Hall]; intros [|n]; simpl; try constructor.
  - apply IH.
  - rewrite Forall_forall in *. intros y Hy. apply Hall.
    rewrite <- (firstn_skipn n l). apply in_or_app. now left.
Qed.

Lemma cut_prefix limit l : exists rest, l = cut limit l ++ rest.
Proof.
  unfold cut, JsArray.slice0. destruct (JsNum.truthy limit).
  - eexists. symmetry. apply firstn_skipn.
  - exists []. now rewrite app_nil_r.
Qed.

Lemma cut_sorted limit l : cn0_descending l -> cn0_descending (cut limit l).
Proof.
  unfold cut, JsArray.slice0. destruct (JsNum.truthy limit); auto.
  apply firstn_sorted.
Qed.

Lemma cut_in limit l x : In x (cut limit l) -> In x l.
Proof.
  destruct (cut_prefix limit l) as [rest H]. intros Hin.
  rewrite H. apply in_or_app. now left.
Qed.

Lemma cut_covers limit l :
  covers limit (List.length l) = true -> cut limit l = l.
Proof.
  unfold covers, cut, JsArray.slice0. destruct (JsNum.truthy limit); auto.
  simpl. destruct (JsNum.ToIntegerOrInfinity limit) as [r| |]; intros H.
  - apply Z.leb_le in H.
    destruct (r <? 0) eqn:E; [apply Z.ltb_lt in E; lia|].
    rewrite Z.min_r by lia. rewrite Nat2Z.id. apply firstn_all.
  - rewrite Nat2Z.id. apply firstn_all.
  - discriminate.
Qed.

End SortFacts.

(** ** The per-channel map under recording and eviction *)

Module StoreFacts.
Import Reading.

Lemma store_ok_empty : store_ok JsMap.empty.
Proof.
  split.
  - constructor.
  - intros k e [].
Qed.

Lemma store_ok_store_in now m s : store_ok m -> store_ok (store_in now m s).
Proof.
  intros [Hwf Hkey]. destruct s as [s|]; simpl; [|now split].
  destruct (channel_id s) as [id|] eqn:Hid; [|now split].
  split.
  - now apply JsMapFacts.wf_set.
  - intros k e Hin. apply JsMapFacts.in_set in Hin.
    destruct Hin as [[-> ->]|Hin]; auto.
Qed.

Lemma store_ok_record_all now elems m :
  store_ok m -> store_ok (record_all now elems m).
Proof.
  unfold record_all. revert m. induction elems as [|s elems IH]; intros m H; simpl; auto.
  apply IH. now apply store_ok_store_in.
Qed.

Lemma store_ok_filter (p : Z * StoredSample -> bool) m :
  store_ok m -> store_ok (filter p m).
Proof.
  intros [Hwf Hkey]. split.
  - now apply JsMapFacts.wf_filter.
  - intros k e Hin. apply filter_In in Hin. now apply Hkey.
Qed.

Lemma get_record_all_other now elems m c :
  (forall s, In (Some s) elems -> channel_id s <> Some c) ->
  JsMap.get c (record_all now elems m) = JsMap.get c m.
Proof.
  unfold record_all.
  revert m. induction elems as [|s elems IH]; intros m H; simpl; auto.
  rewrite IH by (intros s' Hs'; apply H; now right).
  destruct s as [s|]; simpl; auto.
  destruct (channel_id s) as [id|] eqn:Hid; auto.
  apply JsMapFacts.get_set_other. intros ->.
  apply (H s); [now left | assumption].
Qed.

Lemma get_record_all_last now pre s post m id :
  channel_id s = Some id ->
  (forall s', In (Some s') post -> channel_id s' <> Some id) ->
  JsMap.get id (record_all now (pre ++ Some s :: post) m) =
  Some (mkStored s now).
Proof.
  intros Hid Hpost. unfold record_all. rewrite fold_left_app. simpl.
  rewrite Hid.
  etransitivity; [apply (get_record_all_other now post _ id Hpost)|].
  apply JsMapFacts.get_set_same.
Qed.

Lemma store_ok_call c w :
  store_ok (obs_by_channel (latest w)) ->
  store_ok (obs_by_channel (latest (exec (call c) w))).
Proof.
  intros H. destruct c as [msg|[|elems]| |limit|]; unfold exec, call.
  - rewrite StateFacts.run_setLatestPvt. exact H.
  - exact H.
  - rewrite StateFacts.run_updateLatestObservables. simpl.
    now apply store_ok_record_all.
  - unfold bind. rewrite StateFacts.run_getLatestPvt. exact H.
  - unfold bind. rewrite StateFacts.run_getLatestObservables by apply H.
    simpl. now apply store_ok_filter.
  - exact H.
Qed.

Lemma store_ok_run_calls calls w :
  store_ok (obs_by_channel (latest w)) ->
  store_ok (obs_by_channel (latest (run_calls calls w))).
Proof.
  revert w. induction calls as [|[t c] calls IH]; intros w H; simpl; auto.
  apply IH. now apply store_ok_call.
Qed.


Lemma NoDup_map_Some (l : list Z) : NoDup l -> NoDup (map Some l).
Proof.
  induction 1 as [|k l Hnin Hnd IH]; simpl; constructor; auto.
  intros Hin. apply in_map_iff in Hin. destruct Hin as [k' [Hk' Hin]].
  inversion Hk'. now subst.
Qed.

(** The channel ids of the fresh samples are the keys of the fresh
    entries. *)
Lemma channels_of_fresh now m :
  store_ok m ->
  map channel_of (fresh_samples now m) =
  map Some (JsMap.keys (fresh_entries now m)).
Proof.
  intros [_ Hkey]. unfold fresh_samples, fresh_entries, JsMap.keys.
  induction m as [|[k e] m IH]; simpl; auto.
  assert (IH' := IH (fun k' e' Hin => Hkey k' e' (or_intror Hin))).
  destruct (fresh_entry now (k, e)); simpl; auto.
  rewrite IH'. f_equal. apply Hkey. now left.
Qed.

End StoreFacts.

(** ** The broadcast loop *)

Module WebsocketFacts.
Import Reading.

Section Broadcast.
Variable JSON_stringify : Payload -> string.

Lemma run_send_to data ws w :
  Websocket.send_to data ws w =
  (Normal tt,
   mkWorld (clock w) (latest w) (wss w)
           (console w ++ send_errors data [ws])
           (delivered w ++ deliveries data [ws])).
Proof.
  unfold Websocket.send_to, send_errors, deliveries, is_open. simpl.
  destruct w as [c l s cons d].
  destruct (readyState ws); simpl; unfold ret; rewrite ?app_nil_r; auto.
  unfold try_catch, Websocket.send.
  destruct (ws_send ws data); simpl; rewrite ?app_nil_r; reflexivity.
Qed.

Lemma run_forEach_send data clients w :
  forEach (Websocket.send_to data) clients w =
  (Normal tt,
   mkWorld (clock w) (latest w) (wss w)
           (console w ++ send_errors data clients)
           (delivered w ++ deliveries data clients)).
Proof.
  revert w. induction clients as [|ws clients IH]; intros w; simpl.
  - destruct w. unfold ret. simpl. now rewrite !app_nil_r.
  - unfold bind. rewrite run_send_to, IH. simpl.
    unfold send_errors, deliveries. simpl.
    now rewrite !app_nil_r, <- !app_assoc.
Qed.

Lemma run_broadcast obj w :
  Websocket.broadcast JSON_stringify obj w =
  (Normal tt,
   match wss w with
   | None => w
   | Some clients =>
       mkWorld (clock w) (latest w) (wss w)
               (console w ++ send_errors (JSON_stringify obj) clients)
               (delivered w ++ deliveries (JSON_stringify obj) clients)
   end).
Proof.
  unfold Websocket.broadcast, bind, get_wss.
  destruct (wss w) as [clients|] eqn:E; auto.
  rewrite run_forEach_send. now rewrite E.
Qed.

Lemma broadcast_latest obj w :
  latest (exec (Websocket.broadcast JSON_stringify obj) w) = latest w.
Proof.
  unfold exec. rewrite run_broadcast. simpl. now destruct (wss w).
Qed.

Lemma broadcast_wss obj w :
  wss (exec (Websocket.broadcast JSON_stringify obj) w) = wss w.
Proof.
  unfold exec. rewrite run_broadcast. simpl.
  destruct (wss w) eqn:E; simpl; auto.
Qed.

Lemma in_deliveries data ws clients :
  In ws clients -> readyState ws = OPEN -> ws_send ws data = None ->
  In (ws_id ws, data) (deliveries data clients).
Proof.
  intros Hin Hopen Hsend. unfold deliveries. apply in_flat_map.
  exists ws. split; auto. unfold is_open. rewrite Hopen, Hsend. now left.
Qed.

Lemma in_send_errors data ws e clients :
  In ws clients -> readyState ws = OPEN -> ws_send ws data = Some e ->
  In ("WS send error: " ++ e)%string (send_errors data clients).
Proof.
  intros Hin Hopen Hsend. unfold send_errors. apply in_flat_map.
  exists ws. split; auto. unfold is_open. rewrite Hopen, Hsend. now left.
Qed.
End Broadcast.

End WebsocketFacts.

(** ** The datagram handlers *)

Module HandlerFacts.
Import Reading.

Section Handlers.
Variable toISOString : Z -> string.
Variable JSON_stringify : Payload -> string.

Local Abbreviation handleObsUdp ObservablesMsg :=
  (UdpHandlers.handleObsUdp ObservablesMsg toISOString JSON_stringify).
Local Abbreviation handlePvtUdp MonitorPvtMsg :=
  (UdpHandlers.handlePvtUdp MonitorPvtMsg toISOString JSON_stringify).
Local Abbreviation on_message ObservablesMsg MonitorPvtMsg :=
  (UdpHandlers.on_message ObservablesMsg MonitorPvtMsg toISOString
                          JSON_stringify).
Local Abbreviation deliver ObservablesMsg MonitorPvtMsg :=
  (UdpHandlers.deliver ObservablesMsg MonitorPvtMsg toISOString
                       JSON_stringify).
Local Abbreviation listen ObservablesMsg MonitorPvtMsg :=
  (UdpHandlers.listen ObservablesMsg MonitorPvtMsg toISOString
                      JSON_stringify).

(** The world after a batch of samples was recorded and published. *)
Lemma run_handleObsUdp T buf obs w :
  T buf = inr obs ->
  handleObsUdp (Some T) buf w =
  (Normal tt,
   match UdpHandlers.samples_of (toISOString (clock w)) obs with
   | [] => w
   | (_ :: _) as samples =>
       exec (Websocket.broadcast JSON_stringify (PayloadSamples samples))
            (set_latest
               (mkLatest (pvt (latest w)) (pvt_timestamp (latest w))
                         (record_all (clock w) (map Some samples)
                                     (obs_by_channel (latest w)))
                         (clock w)) w)
   end).
Proof.
  intros Hbuf. unfold UdpHandlers.handleObsUdp, exec.
  rewrite Hbuf. unfold bind at 1. unfold Date_now.
  destruct (UdpHandlers.samples_of _ obs) as [|s samples]; auto.
  unfold bind. rewrite StateFacts.run_updateLatestObservables.
  rewrite (WebsocketFacts.run_broadcast JSON_stringify). reflexivity.
Qed.

(** The world after a fix was recorded and published. *)
Lemma run_handlePvtUdp T buf p w :
  T buf = inr p ->
  handlePvtUdp (Some T) buf w =
  (Normal tt,
   let msg := UdpHandlers.to_msg (toISOString (clock w)) p in
   exec (Websocket.broadcast JSON_stringify (PayloadPvt msg))
        (set_latest
           (mkLatest (Some msg) (clock w) (obs_by_channel (latest w))
                     (obs_last_update_ms (latest w))) w)).
Proof.
  intros Hbuf. unfold UdpHandlers.handlePvtUdp, exec.
  rewrite Hbuf. unfold bind, Date_now.
  rewrite StateFacts.run_setLatestPvt.
  rewrite (WebsocketFacts.run_broadcast JSON_stringify). reflexivity.
Qed.

Lemma run_decode_error O P d line w :
  decode_error O P d = Some line ->
  on_message O P d w = (Normal tt, add_console line w).
Proof.
  unfold decode_error, UdpHandlers.on_message.
  destruct d as [buf|buf].
  - unfold UdpHandlers.handleObsUdp.
    destruct O as [T|]; [|discriminate].
    destruct (T buf); [|discriminate]. intros H. inversion H. reflexivity.
  - unfold UdpHandlers.handlePvtUdp.
    destruct P as [T|]; [|discriminate].
    destruct (T buf); [|discriminate]. intros H. inversion H. reflexivity.
Qed.

Lemma same_data_refl w : same_data w w.
Proof. now repeat split. Qed.

Lemma same_data_trans w1 w2 w3 :
  same_data w1 w2 -> same_data w2 w3 -> same_data w1 w3.
Proof. unfold same_data. intuition congruence. Qed.

(** What is on the console has no bearing on what a handler records and
    publishes. *)
Lemma on_message_same_data O P d c l s cons1 cons2 dl :
  same_data (exec (on_message O P d) (mkWorld c l s cons1 dl))
            (exec (on_message O P d) (mkWorld c l s cons2 dl)).
Proof.
  unfold exec, UdpHandlers.on_message. destruct d as [buf|buf].
  - destruct O as [T|]; [|now repeat split].
    destruct (T buf) as [e|obs] eqn:Hbuf.
    + unfold UdpHandlers.handleObsUdp. rewrite Hbuf. now repeat split.
    + rewrite !(run_handleObsUdp T buf obs) by assumption. simpl.
      destruct (UdpHandlers.samples_of _ obs); [now repeat split|].
      unfold exec. rewrite !(WebsocketFacts.run_broadcast JSON_stringify).
      simpl. destruct s; now repeat split.
  - destruct P as [T|]; [|now repeat split].
    destruct (T buf) as [e|p] eqn:Hbuf.
    + unfold UdpHandlers.handlePvtUdp. rewrite Hbuf. now repeat split.
    + rewrite !(run_handlePvtUdp T buf p) by assumption. simpl.
      unfold exec. rewrite !(WebsocketFacts.run_broadcast JSON_stringify).
      simpl. destruct s; now repeat split.
Qed.

Lemma deliver_same_data O P ev w1 w2 :
  same_data w1 w2 -> same_data (deliver O P w1 ev) (deliver O P w2 ev).
Proof.
  destruct w1 as [c1 l1 s1 cons1 d1], w2 as [c2 l2 s2 cons2 d2].
  intros (Hl & Hs & Hd). simpl in *. subst.
  unfold UdpHandlers.deliver, set_clock. simpl.
  apply on_message_same_data.
Qed.

Lemma listen_same_data O P events w1 w2 :
  same_data w1 w2 ->
  same_data (listen O P events w1) (listen O P events w2).
Proof.
  revert w1 w2. induction events as [|ev events IH]; intros w1 w2 H; auto.
  simpl. apply IH. now apply deliver_same_data.
Qed.
End Handlers.

End HandlerFacts.

(* ================================================================== *)
(** * The state store *)

Module StoreProps.
Import Reading.

Local Abbreviation at_time := set_clock.




(** C4: the per-channel map holds each channel once, under its own id,
    after any history of calls; of two PVT fixes recorded in sequence only
    the second can be read back (while it is fresh, nothing afterwards);
    and samples for channel 3 twice, then channel 7 once, leave exactly two
    entries, keyed 3 and 7, channel 3 holding its second sample, which are
    the two entries of the snapshot. *)
Theorem last_write_wins (calls : list (Z * Call)) (t0 : Z) (w : World)
    (p1 p2 : PvtMsg) (t1 t2 : Z) (a b c : Sample) (ta tb tc now : Z) :
  channel_id a = Some 3 -> channel_id b = Some 3 -> channel_id c = Some 7 ->
  now - tb < State.TTL_MS -> now - tc < State.TTL_MS ->
  let w2 := Scenario.record_fix t2 p2 (Scenario.record_fix t1 p1 w) in
  let w3 := Scenario.record_batch tc [c]
              (Scenario.record_batch tb [b]
                 (Scenario.record_batch ta [a] (initial_world t0))) in
  store_ok (obs_by_channel (latest (run_calls calls (initial_world t0)))) /\
  completion State.getLatestPvt (at_time now w2)
  = Normal (if now - t2 >? State.TTL_MS then None else Some p2) /\
  obs_by_channel (latest w3) = [(3, mkStored b tb); (7, mkStored c tc)] /\
  exists res,
    completion (State.getLatestObservables None) (at_time now w3)
    = Normal res /\
    Permutation res [mkStored b tb; mkStored c tc].
Proof.
  intros Ha Hb Hc Hfb Hfc w2 w3.
  assert (Hmap : obs_by_channel (latest w3)
                 = [(3, mkStored b tb); (7, mkStored c tc)]).
  { subst w3. unfold Scenario.record_batch, exec.
    rewrite !StateFacts.run_updateLatestObservables. simpl.
    unfold record_all. simpl. rewrite Ha. simpl. rewrite Hb. simpl.
    rewrite Hc. reflexivity. }
  split; [|split; [|split]].
  - apply StoreFacts.store_ok_run_calls, StoreFacts.store_ok_empty.
  - subst w2. unfold completion, Scenario.record_fix, exec.
    rewrite !StateFacts.run_setLatestPvt, StateFacts.run_getLatestPvt.
    reflexivity.
  - exact Hmap.
  - eexists. split; [apply StateFacts.result_getLatestObservables|].
    simpl. rewrite Hmap.
    assert (Hfresh : fresh_samples now [(3, mkStored b tb); (7, mkStored c tc)]
                     = [mkStored b tb; mkStored c tc]).
    { unfold fresh_samples, fresh_entries, fresh_entry, State.fresh. simpl.
      apply Z.ltb_lt in Hfb, Hfc. now rewrite Hfb, Hfc. }
    rewrite Hfresh. rewrite SortFacts.cut_covers.
    + apply SortFacts.sort_perm.
    + rewrite SortFacts.sort_length. reflexivity.
Qed.

Lemma last_write_wins_witness :
  let w3 := Scenario.record_batch 30 [Scenario.sample_on 7 38]
              (Scenario.record_batch 20 [Scenario.sample_on 3 45]
                 (Scenario.record_batch 10 [Scenario.sample_on 3 41]
                    (initial_world 0))) in
  obs_by_channel (latest w3)
  = [(3, mkStored (Scenario.sample_on 3 45) 20);
     (7, mkStored (Scenario.sample_on 7 38) 30)].
Proof.
  apply (last_write_wins [] 0 (initial_world 0)
           (Scenario.fix_with 3 0) (Scenario.fix_with 6 4) 10 20
           (Scenario.sample_on 3 41) (Scenario.sample_on 3 45)
           (Scenario.sample_on 7 38) 10 20 30 40);
    solve [reflexivity | unfold State.TTL_MS; lia].
Defined.

(** C5, refuted as stated: one second after a fix with [valid_sats = 3] and
    [solution_status = 0] was recorded, the health summary reports
    [is_live = true]. *)
Lemma weak_fix_is_live :
  let fix30 := Scenario.fix_with 3 0 in
  let w1 := Scenario.record_fix 1700000000000 fix30 (initial_world 0) in
  option_map valid_sats (pvt (latest w1)) = Some 3 /\
  option_map solution_status (pvt (latest w1)) = Some 0 /\
  exists m,
    completion State.getLatestObservablesMeta (at_time 1700000001000 w1)
    = Normal m /\
    State.is_live m <> false.
Proof.
  repeat split. eexists. split; [reflexivity|]. discriminate.
Qed.

(** C5, as amended: after a PVT fix was recorded at time [t], the health
    summary taken at time [now] reports [is_live = true] exactly when
    [now - t < TTL], whatever the fix holds: with [valid_sats = 3] and
    [solution_status = 0] as with [valid_sats = 6] and
    [solution_status = 4]. *)
Theorem is_live_is_pvt_freshness (w : World) (msg : PvtMsg) (t now : Z) :
  exists m,
    completion State.getLatestObservablesMeta
               (at_time now (Scenario.record_fix t msg w)) = Normal m /\
    State.is_live m = (now - t <? State.TTL_MS) /\
    State.pvt_age_ms m = now - t.
Proof.
  eexists. split; [reflexivity|]. split; reflexivity.
Qed.

(** C6, refuted as stated: a sample recorded at time 0 and never read is
    still counted by the health summary at time 10000, when no channel is
    fresh. *)
Lemma stale_entry_counted :
  let w1 := Scenario.record_batch 0 [Scenario.sample_on 3 40]
                                  (initial_world 0) in
  exists m,
    completion State.getLatestObservablesMeta (at_time 10000 w1)
    = Normal m /\
    State.count m = 1 /\
    fresh_count 10000 (obs_by_channel (latest w1)) = 0 /\
    State.count m <> fresh_count 10000 (obs_by_channel (latest w1)).
Proof.
  eexists. split; [reflexivity|]. repeat split. discriminate.
Qed.

(** C6, as amended: the count field of the health summary is the number of
    entries the map holds, fresh or not; it is the number of fresh channels
    when the summary is taken right after a snapshot read, at the same
    clock reading, since the read has evicted the others. *)
Theorem count_is_map_size (w : World) (limit : option JsNum.number) :
  JsMap.wf (obs_by_channel (latest w)) ->
  (exists m,
     completion State.getLatestObservablesMeta w = Normal m /\
     State.count m = JsMap.size (obs_by_channel (latest w))) /\
  (exists m,
     completion State.getLatestObservablesMeta
                (exec (State.getLatestObservables limit) w) = Normal m /\
     State.count m = fresh_count (clock w) (obs_by_channel (latest w))).
Proof.
  intros Hwf. split.
  - eexists. split; reflexivity.
  - eexists. split; [reflexivity|].
    unfold exec. rewrite StateFacts.run_getLatestObservables by assumption.
    reflexivity.
Qed.

Lemma count_is_map_size_witness :
  let w1 := Scenario.record_batch 0 [Scenario.sample_on 3 40]
                                  (initial_world 0) in
  exists m,
    completion State.getLatestObservablesMeta
               (exec (State.getLatestObservables None) (at_time 10000 w1))
    = Normal m /\
    State.count m = 0.
Proof.
  apply (count_is_map_size
           (at_time 10000 (Scenario.record_batch 0 [Scenario.sample_on 3 40]
                                                 (initial_world 0)))
           None).
  repeat constructor. intros [].
Defined.

Lemma cut_sort_sorted_stable lim fs :
  no_nan fs ->
  cn0_descending (cut lim (JsArray.sort State.by_cn0_desc fs)) /\
  forall k, exists rest,
    tied_with k fs
    = tied_with k (cut lim (JsArray.sort State.by_cn0_desc fs)) ++ rest.
Proof.
  intros Hn. split.
  - now apply SortFacts.cut_sorted, SortFacts.sort_sorted.
  - intros k.
    destruct (SortFacts.cut_prefix lim (JsArray.sort State.by_cn0_desc fs))
      as [rest Hrest].
    exists (tied_with k rest).
    rewrite <- (SortFacts.sort_stable k fs). rewrite Hrest at 1.
    unfold tied_with. apply filter_app.
Qed.

(** The response of the observables route: the snapshot under the limit of
    the query, and the summary taken after it. *)
Lemma run_get_latest_observables other q w :
  exists meta,
    completion (Server.get_latest_observables other q) w =
    Normal (Server.mkObsResponse true meta
              (cut (let limit := match q with
                                 | Some s => Server.Number other s
                                 | None => JsNum.of_Z 64
                                 end in
                    if JsNum.isFinite limit then limit else JsNum.of_Z 64)
                   (JsArray.sort State.by_cn0_desc
                      (fresh_samples (clock w)
                                     (obs_by_channel (latest w)))))).
Proof.
  unfold completion, Server.get_latest_observables, bind.
  rewrite StateFacts.run_getLatestObservables_any.
  rewrite StateFacts.run_getLatestObservablesMeta.
  eexists. reflexivity.
Qed.

(** C7, refuted as stated: whatever order on channel ids is chosen, some
    snapshot lists two entries of equal signal strength against it.
    Channels 3 and 7 recorded in one batch in the order 3, 7 are listed
    3, 7; recorded in the order 7, 3 they are listed 7, 3. *)
Lemma ties_not_by_channel_id :
  ~ exists R : Z -> Z -> Prop,
      (forall j k, R j k -> ~ R k j) /\
      forall (batch : list Sample) (t now : Z) (res : list StoredSample),
        completion (State.getLatestObservables None)
                   (at_time now
                      (Scenario.record_batch t batch (initial_world t)))
        = Normal res ->
        ties_follow R res.
Proof.
  intros (R & Hasym & Hties).
  pose (s3 := Scenario.sample_on 3 40). pose (s7 := Scenario.sample_on 7 40).
  assert (H37 : R 3 7).
  { apply (Hties [s3; s7] 0 1 [mkStored s3 0; mkStored s7 0] eq_refl
                 [] (mkStored s3 0) [] (mkStored s7 0) []); reflexivity. }
  assert (H73 : R 7 3).
  { apply (Hties [s7; s3] 0 1 [mkStored s7 0; mkStored s3 0] eq_refl
                 [] (mkStored s7 0) [] (mkStored s3 0) []); reflexivity. }
  exact (Hasym 3 7 H37 H73).
Qed.

(** C7, as amended: when no fresh entry has a NaN signal strength, the
    snapshot of [getLatestObservables], and the [observables] of the GET
    response, are in descending order of [cn0_db_hz] (a missing value
    counting as 0), and entries of equal signal strength keep the order of
    their channels in the map, that is the order in which the channels
    were first recorded; under a limit they are the first of them. *)
Theorem snapshot_sorted_stable (w : World) (limit : option JsNum.number)
    (other : string -> JsNum.number) (q : option string) :
  let fs := fresh_samples (clock w) (obs_by_channel (latest w)) in
  no_nan fs ->
  (exists res,
     completion (State.getLatestObservables limit) w = Normal res /\
     cn0_descending res /\
     forall k, exists rest, tied_with k fs = tied_with k res ++ rest) /\
  (exists resp,
     completion (Server.get_latest_observables other q) w = Normal resp /\
     cn0_descending (Server.observables resp) /\
     forall k, exists rest,
       tied_with k fs = tied_with k (Server.observables resp) ++ rest).
Proof.
  intros fs Hn. split.
  - eexists. split; [apply StateFacts.result_getLatestObservables|].
    now apply cut_sort_sorted_stable.
  - destruct (run_get_latest_observables other q w) as [meta Hrun].
    eexists. split; [exact Hrun|]. simpl.
    now apply cut_sort_sorted_stable.
Qed.

Lemma snapshot_sorted_stable_witness :
  let w := at_time 1
             (Scenario.record_batch 0
                [Scenario.sample_on 7 40; Scenario.sample_on 3 40;
                 Scenario.sample_on 5 (423 # 10)]
                (initial_world 0)) in
  exists res,
    completion (State.getLatestObservables None) w = Normal res /\
    cn0_descending res /\
    forall k, exists rest,
      tied_with k (fresh_samples 1 (obs_by_channel (latest w)))
      = tied_with k res ++ rest.
Proof.
  apply (snapshot_sorted_stable
           (at_time 1
              (Scenario.record_batch 0
                 [Scenario.sample_on 7 40; Scenario.sample_on 3 40;
                  Scenario.sample_on 5 (423 # 10)]
                 (initial_world 0)))
           None (fun _ => JsNum.NaN) None).
  repeat constructor.
Defined.

(** C8: a snapshot read leaves in the map exactly the entries that are
    fresh at the time of the read, each one unchanged and in its place:
    an entry whose age has reached the TTL is gone, a fresh one is still
    there, nothing else is touched (the PVT slot and its timestamp among
    it), and no channel appears twice in the result. *)
Theorem snapshot_evicts_stale (w : World) (limit : option JsNum.number) :
  store_ok (obs_by_channel (latest w)) ->
  let now := clock w in
  let m := obs_by_channel (latest w) in
  let w' := exec (State.getLatestObservables limit) w in
  let m' := obs_by_channel (latest w') in
  m' = fresh_entries now m /\
  (forall k e, In (k, e) m -> State.fresh now e = false ->
               JsMap.get k m' = None) /\
  (forall k e, In (k, e) m -> State.fresh now e = true ->
               JsMap.get k m' = Some e) /\
  (pvt (latest w') = pvt (latest w) /\
   pvt_timestamp (latest w') = pvt_timestamp (latest w) /\
   obs_last_update_ms (latest w') = obs_last_update_ms (latest w) /\
   wss w' = wss w /\ console w' = console w /\
   delivered w' = delivered w) /\
  exists res,
    completion (State.getLatestObservables limit) w = Normal res /\
    NoDup (map channel_of res) /\
    forall e, In e res -> exists k, channel_of e = Some k /\ In (k, e) m'.
Proof.
  intros Hok now m w' m'. destruct Hok as [Hwf Hkey].
  assert (Hm' : m' = fresh_entries now m).
  { subst m' w'. unfold exec.
    now rewrite StateFacts.run_getLatestObservables. }
  split; [exact Hm'|]. split; [|split; [|split]].
  - intros k e Hin Hst. rewrite Hm'.
    now apply (JsMapFacts.get_filter_none _ k e).
  - intros k e Hin Hfr. rewrite Hm'.
    now apply (JsMapFacts.get_filter_some _ k e).
  - subst w'. unfold exec.
    rewrite StateFacts.run_getLatestObservables by assumption.
    simpl. auto 6.
  - eexists. split; [apply StateFacts.result_getLatestObservables|].
    fold now m.
    destruct (SortFacts.cut_prefix (limit_or_64 limit)
                (JsArray.sort State.by_cn0_desc (fresh_samples now m)))
      as [rest Hrest].
    split.
    + assert (Hnd : NoDup (map channel_of
                (JsArray.sort State.by_cn0_desc (fresh_samples now m)))).
      { eapply Permutation_NoDup.
        - apply Permutation_map. symmetry. apply SortFacts.sort_perm.
        - rewrite StoreFacts.channels_of_fresh by now split.
          apply StoreFacts.NoDup_map_Some.
          now apply JsMapFacts.wf_filter. }
      rewrite Hrest, map_app in Hnd.
      now apply NoDup_app_remove_r in Hnd.
    + intros e He. apply SortFacts.cut_in in He.
      apply (proj1 (SortFacts.sort_in _ _)) in He.
      unfold fresh_samples in He. apply in_map_iff in He.
      destruct He as [[k e'] [He' Hin]]. simpl in He'. subst e'.
      exists k. rewrite Hm'. split; auto.
      apply filter_In in Hin. now apply Hkey.
Qed.

Lemma snapshot_evicts_stale_witness :
  let w := at_time 5500
             (Scenario.record_batch 1000 [Scenario.sample_on 7 38]
                (Scenario.record_batch 0 [Scenario.sample_on 3 45]
                   (initial_world 0))) in
  obs_by_channel (latest (exec (State.getLatestObservables None) w))
  = [(7, mkStored (Scenario.sample_on 7 38) 1000)].
Proof.
  apply (snapshot_evicts_stale
           (at_time 5500
              (Scenario.record_batch 1000 [Scenario.sample_on 7 38]
                 (Scenario.record_batch 0 [Scenario.sample_on 3 45]
                    (initial_world 0))))
           None).
  apply (StoreFacts.store_ok_run_calls
           [(0, CallUpdateLatestObservables
                  (State.ArrayOf [Some (Scenario.sample_on 3 45)]));
            (1000, CallUpdateLatestObservables
                     (State.ArrayOf [Some (Scenario.sample_on 7 38)]))]
           (initial_world 0)).
  apply StoreFacts.store_ok_empty.
Defined.

(** C10: with a limit of 0, [getLatestObservables] returns every fresh
    entry, sorted and unsliced, and so does the GET route for
    [?limit=0]. *)
Theorem limit_zero_returns_all (w : World) (other : string -> JsNum.number) :
  let fs := fresh_samples (clock w) (obs_by_channel (latest w)) in
  let all := JsArray.sort State.by_cn0_desc fs in
  completion (State.getLatestObservables (Some (JsNum.of_Z 0))) w
  = Normal all /\
  Permutation all fs /\
  Z.of_nat (List.length all)
  = fresh_count (clock w) (obs_by_channel (latest w)) /\
  exists meta,
    completion (Server.get_latest_observables other (Some "0"%string)) w
    = Normal (Server.mkObsResponse true meta all).
Proof.
  intros fs all. split; [|split; [|split]].
  - rewrite StateFacts.result_getLatestObservables. reflexivity.
  - apply SortFacts.sort_perm.
  - subst all fs. rewrite SortFacts.sort_length.
    unfold fresh_samples, fresh_count. now rewrite length_map.
  - destruct (run_get_latest_observables other (Some "0"%string) w)
      as [meta Hrun].
    exists meta. exact Hrun.
Qed.

(** The proviso of [snapshot_sorted_stable] is needed: a NaN signal strength
    compares as equal to every other one, and with the insertion sort taken
    here for [Array.prototype.sort] an entry of strength 10 stays ahead of
    one of strength 50 when a NaN entry stands between them. *)
Remark nan_breaks_the_order :
  let w := at_time 1
             (Scenario.record_batch 0
                [Scenario.sample_on 1 10; Scenario.sample_nan 2;
                 Scenario.sample_on 3 50]
                (initial_world 0)) in
  exists res,
    completion (State.getLatestObservables None) w = Normal res /\
    map channel_of res = [Some 1; Some 2; Some 3].
Proof. eexists. split; reflexivity. Qed.

(** At an age of exactly the TTL the readers differ: [getLatestPvt] still
    returns the fix (it tests [>]), while the health summary reports
    [is_live = false] and the snapshot leaves out, and evicts, a sample of
    that age (both test [<]). *)
Remark readers_at_exactly_ttl :
  let fix64 := Scenario.fix_with 6 4 in
  let w := at_time 6000
             (Scenario.record_batch 1000 [Scenario.sample_on 5 (423 # 10)]
                (Scenario.record_fix 1000 fix64 (initial_world 0))) in
  completion State.getLatestPvt w = Normal (Some fix64) /\
  option_map State.is_live
    (match completion State.getLatestObservablesMeta w with
     | Normal m => Some m
     | Throw _ => None
     end) = Some false /\
  completion (State.getLatestObservables None) w = Normal [].
Proof. repeat split. Qed.

End StoreProps.

(* ================================================================== *)
(** * The ingress listeners *)

Module IngressProps.
Import Reading.

Section Handlers.
Variable ObservablesMsg : option (UdpHandlers.Decoder Observables).
Variable MonitorPvtMsg : option (UdpHandlers.Decoder MonitorPvt).
Variable toISOString : Z -> string.
Variable JSON_stringify : Payload -> string.

Local Abbreviation on_message :=
  (UdpHandlers.on_message ObservablesMsg MonitorPvtMsg toISOString
                          JSON_stringify).
Local Abbreviation listen :=
  (UdpHandlers.listen ObservablesMsg MonitorPvtMsg toISOString
                      JSON_stringify).

(** C2: a datagram whose decoding throws is logged and dropped: the handler
    returns normally and leaves the world as it was but for one more line
    on the console, so nothing is recorded and nothing is published; and
    in any sequence of arrivals, what is recorded and what is published is
    what it would be without that datagram. *)
Theorem decode_failure_isolated (d : UdpHandlers.Datagram) (line : string)
    (t : Z) (w : World) (before after : list (Z * UdpHandlers.Datagram)) :
  decode_error ObservablesMsg MonitorPvtMsg d = Some line ->
  completion (on_message d) w = Normal tt /\
  exec (on_message d) w = add_console line w /\
  (latest (exec (on_message d) w) = latest w /\
   delivered (exec (on_message d) w) = delivered w) /\
  same_data (listen (before ++ (t, d) :: after) w)
            (listen (before ++ after) w).
Proof.
  intros Herr.
  assert (Hrun := fun w => HandlerFacts.run_decode_error
                    toISOString JSON_stringify _ _ d line w Herr).
  unfold completion, exec. rewrite Hrun. simpl.
  split; [reflexivity|]. split; [reflexivity|]. split; [now split|].
  unfold UdpHandlers.listen. rewrite !fold_left_app. simpl.
  apply HandlerFacts.listen_same_data.
  unfold UdpHandlers.deliver, exec. simpl. rewrite Hrun. simpl.
  now repeat split.
Qed.
End Handlers.

Lemma decode_failure_isolated_witness :
  let O := Some Scenario.toy_obs_decoder in
  let P := Some Scenario.toy_pvt_decoder in
  let listen :=
    UdpHandlers.listen O P Scenario.toy_iso Scenario.toy_stringify in
  let valid1 := (0, UdpHandlers.OnObsPort [Byte.x05; Byte.x01]) in
  let bad := (5, UdpHandlers.OnObsPort [Byte.x05]) in
  let valid2 := (10, UdpHandlers.OnPvtPort [Byte.x06; Byte.x04]) in
  let w := Scenario.world_with_clients [Scenario.good_socket 1] in
  same_data (listen ([valid1] ++ bad :: [valid2]) w)
            (listen ([valid1] ++ [valid2]) w).
Proof.
  apply (decode_failure_isolated
           (Some Scenario.toy_obs_decoder) (Some Scenario.toy_pvt_decoder)
           Scenario.toy_iso Scenario.toy_stringify
           (UdpHandlers.OnObsPort [Byte.x05])
           "OBS decode error: index out of range"%string 5
           (Scenario.world_with_clients [Scenario.good_socket 1])
           [(0, UdpHandlers.OnObsPort [Byte.x05; Byte.x01])]
           [(10, UdpHandlers.OnPvtPort [Byte.x06; Byte.x04])]).
  reflexivity.
Defined.

Section ZeroRate.
Variable T : UdpHandlers.Decoder Observables.
Variable toISOString : Z -> string.
Variable JSON_stringify : Payload -> string.

Local Abbreviation handleObsUdp D :=
  (UdpHandlers.handleObsUdp (Some D) toISOString JSON_stringify).

Lemma samples_of_split now l1 g l2 :
  strict_neq_0 (g_fs g) = true ->
  UdpHandlers.samples_of now (mkObservables (Some (l1 ++ g :: l2)))
  = UdpHandlers.samples_of now (mkObservables (Some l1))
    ++ UdpHandlers.to_sample now g
       :: UdpHandlers.samples_of now (mkObservables (Some l2)).
Proof.
  intros Hg. unfold UdpHandlers.samples_of. simpl.
  rewrite filter_app. simpl. rewrite Hg. now rewrite map_app.
Qed.

(** C3, the defect: the test [s.fs !== 0] compares the [Long] object that
    holds the sampling rate with the number 0, and so never fails.  An
    entry whose sampling rate is 0 is not discarded: its sample is in the
    batch that is published, and it is recorded, replacing what the map
    held for its channel (when no later entry of the batch is for the same
    channel). *)
Theorem zero_rate_long_is_kept (buf : UdpHandlers.Buffer)
    (pre post : list GnssSynchro) (g : GnssSynchro) (w : World)
    (clients : list WebSocket) :
  T buf = inr (mkObservables (Some (pre ++ g :: post))) ->
  g_fs g = LongObject 0 ->
  (forall g', In g' post -> g_channelId g' <> g_channelId g) ->
  wss w = Some clients ->
  let now := toISOString (clock w) in
  let samples :=
    UdpHandlers.samples_of now (mkObservables (Some (pre ++ g :: post))) in
  let w' := exec (handleObsUdp T buf) w in
  In (UdpHandlers.to_sample now g) samples /\
  delivered w'
  = delivered w ++ deliveries (JSON_stringify (PayloadSamples samples))
                              clients /\
  JsMap.get (g_channelId g) (obs_by_channel (latest w'))
  = Some (mkStored (UdpHandlers.to_sample now g) (clock w)).
Proof.
  intros Hbuf Hfs Hpost Hwss now samples w'.
  assert (Hkeep : strict_neq_0 (g_fs g) = true) by now rewrite Hfs.
  assert (Hsplit : samples
                   = UdpHandlers.samples_of now (mkObservables (Some pre))
                     ++ UdpHandlers.to_sample now g
                        :: UdpHandlers.samples_of now
                             (mkObservables (Some post)))
    by now apply samples_of_split.
  assert (Hrun : handleObsUdp T buf w
                 = (Normal tt,
                    exec (Websocket.broadcast JSON_stringify
                            (PayloadSamples samples))
                         (set_latest
                            (mkLatest (pvt (latest w))
                               (pvt_timestamp (latest w))
                               (record_all (clock w) (map Some samples)
                                           (obs_by_channel (latest w)))
                               (clock w)) w))).
  { rewrite (HandlerFacts.run_handleObsUdp _ _ T buf _ w Hbuf).
    fold now. fold samples.
    destruct samples as [|s0 rest] eqn:Hs; [|reflexivity].
    now apply app_cons_not_nil in Hsplit. }
  split; [|split].
  - rewrite Hsplit. apply in_or_app. right. now left.
  - subst w'. unfold exec. rewrite Hrun. simpl.
    unfold exec. rewrite WebsocketFacts.run_broadcast. simpl.
    now rewrite Hwss.
  - subst w'. unfold exec. rewrite Hrun. simpl.
    rewrite WebsocketFacts.broadcast_latest. simpl.
    rewrite Hsplit, map_app. simpl.
    apply StoreFacts.get_record_all_last; [reflexivity|].
    intros s' Hs'. apply in_map_iff in Hs'. destruct Hs' as (x & Hx & Hin).
    inversion Hx. subst x. unfold UdpHandlers.samples_of in Hin. simpl in Hin.
    apply in_map_iff in Hin. destruct Hin as (g' & <- & Hg').
    apply filter_In in Hg'. destruct Hg' as [Hg' _]. simpl.
    intros Hc. inversion Hc. now apply (Hpost g').
Qed.
End ZeroRate.

Lemma zero_rate_long_is_kept_witness :
  let handle :=
    UdpHandlers.handleObsUdp (Some Scenario.decoder_A_B)
                             Scenario.toy_iso Scenario.toy_stringify in
  let wA := exec (handle Scenario.datagram_A)
                 (Scenario.world_with_clients [Scenario.good_socket 1]) in
  let wB := exec (handle Scenario.datagram_B) (set_clock 1000 wA) in
  JsMap.get 5 (obs_by_channel (latest wA))
  = Some (mkStored (UdpHandlers.to_sample (Scenario.toy_iso 0)
                                          Scenario.entry_A) 0) /\
  JsMap.get 5 (obs_by_channel (latest wB))
  = Some (mkStored (UdpHandlers.to_sample (Scenario.toy_iso 1000)
                                          Scenario.entry_B) 1000) /\
  delivered wB = [(1%nat, "[observables]"%string);
                  (1%nat, "[observables]"%string)] /\
  completion (State.getLatestObservables None) (set_clock 1500 wB)
  = Normal [mkStored (UdpHandlers.to_sample (Scenario.toy_iso 1000)
                                            Scenario.entry_B) 1000].
Proof.
  intros handle wA wB. split; [reflexivity|].
  cut (JsMap.get 5 (obs_by_channel (latest wB))
       = Some (mkStored (UdpHandlers.to_sample (Scenario.toy_iso 1000)
                                               Scenario.entry_B) 1000) /\
       delivered wB = [(1%nat, "[observables]"%string);
                       (1%nat, "[observables]"%string)]);
    [intros [H1 H2]; split; [exact H1|split; [exact H2|reflexivity]]|].
  destruct (zero_rate_long_is_kept Scenario.decoder_A_B Scenario.toy_iso
              Scenario.toy_stringify Scenario.datagram_B [] []
              Scenario.entry_B (set_clock 1000 wA)
              [Scenario.good_socket 1]) as (_ & Hsent & Hget).
  - reflexivity.
  - reflexivity.
  - intros g' [].
  - reflexivity.
  - split; [exact Hget|]. etransitivity; [exact Hsent|reflexivity].
Defined.

End IngressProps.

(* ================================================================== *)
(** * The fan-out broadcaster *)

Module FanoutProps.
Import Reading.

(** C9, refuted as stated: of two open sockets the first one throws on
    [send]; after the broadcast the second one has the message, the error
    is on the console, and the first socket is still among the clients. *)
Lemma failed_subscriber_stays :
  let clients := [Scenario.broken_socket 1; Scenario.good_socket 2] in
  let w' := exec (Websocket.broadcast Scenario.toy_stringify
                    (PayloadPvt (Scenario.fix_with 6 4)))
                 (Scenario.world_with_clients clients) in
  delivered w' = [(2%nat, "{pvt}"%string)] /\
  console w' = ["WS send error: socket hang up"%string] /\
  exists remaining,
    wss w' = Some remaining /\ In (Scenario.broken_socket 1) remaining.
Proof.
  split; [reflexivity|]. split; [reflexivity|].
  eexists. split; [reflexivity|]. now left.
Qed.

(** C9, as amended: [broadcast] never throws; it sends the message on
    every client socket that is open, a socket whose [send] does not throw
    receives it whatever happens on the other sockets, a [send] that
    throws is logged on the console, and the set of clients is left as it
    was, the failed one included. *)
Theorem broadcast_isolates_failures (JSON_stringify : Payload -> string)
    (obj : Payload) (w : World) (clients : list WebSocket)
    (ws : WebSocket) :
  wss w = Some clients -> In ws clients -> readyState ws = OPEN ->
  let data := JSON_stringify obj in
  let w' := exec (Websocket.broadcast JSON_stringify obj) w in
  (forall w0, completion (Websocket.broadcast JSON_stringify obj) w0
              = Normal tt) /\
  wss w' = Some clients /\
  latest w' = latest w /\
  delivered w' = delivered w ++ deliveries data clients /\
  console w' = console w ++ send_errors data clients /\
  (ws_send ws data = None -> In (ws_id ws, data) (delivered w')) /\
  (forall e, ws_send ws data = Some e ->
             In ("WS send error: " ++ e)%string (console w')).
Proof.
  intros Hwss Hin Hopen data w'.
  assert (Hw' : w' = mkWorld (clock w) (latest w) (wss w)
                             (console w ++ send_errors data clients)
                             (delivered w ++ deliveries data clients)).
  { subst w'. unfold exec. rewrite WebsocketFacts.run_broadcast.
    now rewrite Hwss. }
  split.
  { intros w0. unfold completion.
    now rewrite WebsocketFacts.run_broadcast. }
  rewrite Hw'. simpl. repeat split; auto.
  - intros Hsend. apply in_or_app. right.
    exact (WebsocketFacts.in_deliveries data ws clients Hin Hopen Hsend).
  - intros e Hsend. apply in_or_app. right.
    exact (WebsocketFacts.in_send_errors data ws e clients Hin Hopen Hsend).
Qed.

Lemma broadcast_isolates_failures_witness :
  let clients := [Scenario.broken_socket 1; Scenario.good_socket 2] in
  let w' := exec (Websocket.broadcast Scenario.toy_stringify
                    (PayloadPvt (Scenario.fix_with 6 4)))
                 (Scenario.world_with_clients clients) in
  wss w' = Some clients.
Proof.
  apply (broadcast_isolates_failures Scenario.toy_stringify
           (PayloadPvt (Scenario.fix_with 6 4))
           (Scenario.world_with_clients
              [Scenario.broken_socket 1; Scenario.good_socket 2])
           [Scenario.broken_socket 1; Scenario.good_socket 2]
           (Scenario.good_socket 2)).
  - reflexivity.
  - right. now left.
  - reflexivity.
Defined.

End FanoutProps.

(* ================================================================== *)
(** * More on the state store *)

Module StoreExtra.
Import Reading.

Local Abbreviation at_time := set_clock.

Lemma record_all_invalid now elems (m : JsMap.t StoredSample) :
  (forall s, In (Some s) elems -> channel_id s = None) ->
  record_all now elems m = m.
Proof.
  unfold record_all. revert m.
  induction elems as [|s elems IH]; intros m H; simpl; auto.
  rewrite IH by (intros s' Hs'; apply H; now right).
  destruct s as [s|]; simpl; auto.
  rewrite (H s) by now left. reflexivity.
Qed.

(** X1: [updateLatestObservables] called with something that is not an
    array changes nothing, not even the time of the last update; called
    with an array none of whose elements has a numeric [channel_id], it
    stores nothing but still sets the time of the last update to now. *)
Theorem update_ignores_invalid (w : World) (elems : list (option Sample)) :
  (forall s, In (Some s) elems -> channel_id s = None) ->
  State.updateLatestObservables State.NotAnArray w = (Normal tt, w) /\
  latest (exec (State.updateLatestObservables (State.ArrayOf elems)) w)
  = State.with_obs_last_update_ms (clock w) (latest w).
Proof.
  intros H. split; [reflexivity|].
  unfold exec. rewrite StateFacts.run_updateLatestObservables. simpl.
  now rewrite record_all_invalid.
Qed.

Lemma update_ignores_invalid_witness :
  let w := at_time 7000
             (Scenario.record_batch 1000 [Scenario.sample_on 5 40]
                                    (initial_world 0)) in
  let s := mkSample "observables" "" "G" "1C" None 1 None (JsNum.of_Z 0) in
  latest (exec (State.updateLatestObservables
                  (State.ArrayOf [None; Some s])) w)
  = State.with_obs_last_update_ms 7000 (latest w).
Proof.
  intros w s.
  apply (update_ignores_invalid w [None; Some s]).
  intros s' [H|[H|[]]]; [discriminate|]. inversion H. reflexivity.
Defined.

(** X2: after [updateLatestObservables] a channel of the batch holds the
    last sample the batch has for it, stamped with the time of the call; a
    channel the batch has no sample for keeps what it held; and the map
    still holds each channel once. *)
Theorem update_upserts (w : World) (pre post : list (option Sample))
    (s : Sample) (id c : Z) :
  channel_id s = Some id ->
  (forall s', In (Some s') post -> channel_id s' <> Some id) ->
  (forall s', In (Some s') (pre ++ Some s :: post) ->
              channel_id s' <> Some c) ->
  JsMap.wf (obs_by_channel (latest w)) ->
  let w' := exec (State.updateLatestObservables
                    (State.ArrayOf (pre ++ Some s :: post))) w in
  JsMap.get id (obs_by_channel (latest w'))
  = Some (mkStored s (clock w)) /\
  JsMap.get c (obs_by_channel (latest w'))
  = JsMap.get c (obs_by_channel (latest w)) /\
  JsMap.wf (obs_by_channel (latest w')) /\
  obs_last_update_ms (latest w') = clock w.
Proof.
  intros Hid Hpost Hc Hwf w'. subst w'. unfold exec.
  rewrite StateFacts.run_updateLatestObservables. simpl.
  split; [now apply StoreFacts.get_record_all_last|].
  split; [now apply StoreFacts.get_record_all_other|].
  split; [|reflexivity].
  unfold record_all. revert Hwf. generalize (obs_by_channel (latest w)).
  generalize (pre ++ Some s :: post). clear.
  intros elems. induction elems as [|e elems IH]; intros m Hwf; auto.
  simpl. apply IH. destruct e as [e|]; simpl; auto.
  destruct (channel_id e); auto. now apply JsMapFacts.wf_set.
Qed.

Lemma update_upserts_witness :
  let w := at_time 2000
             (Scenario.record_batch 1000
                [Scenario.sample_on 5 40; Scenario.sample_on 9 33]
                (initial_world 0)) in
  let w' := exec (State.updateLatestObservables
                    (State.ArrayOf [Some (Scenario.sample_on 5 41);
                                    Some (Scenario.sample_on 5 42)])) w in
  JsMap.get 5 (obs_by_channel (latest w'))
  = Some (mkStored (Scenario.sample_on 5 42) 2000) /\
  JsMap.get 9 (obs_by_channel (latest w'))
  = Some (mkStored (Scenario.sample_on 9 33) 1000).
Proof.
  intros w w'.
  destruct (update_upserts w [Some (Scenario.sample_on 5 41)] []
              (Scenario.sample_on 5 42) 5 9) as (H5 & H9 & _).
  - reflexivity.
  - intros s' [].
  - intros s' [H|[H|[]]]; inversion H; discriminate.
  - repeat constructor; simpl; intuition discriminate.
  - split; [exact H5|]. etransitivity; [exact H9|reflexivity].
Defined.

Lemma keys_set (V : Type) k (v : V) (m : JsMap.t V) :
  JsMap.keys (JsMap.set k v m)
  = if existsb (Z.eqb k) (JsMap.keys m) then JsMap.keys m
    else JsMap.keys m ++ [k].
Proof.
  unfold JsMap.keys. induction m as [|[k' v'] m IH]; simpl; auto.
  destruct (k =? k') eqn:E; simpl.
  - apply Z.eqb_eq in E. now subst.
  - rewrite IH. now destruct (existsb _ _).
Qed.

(** X3: recording never moves a channel that is already in the map: the
    keys keep their order, and the channels that are new are added after
    them. *)
Theorem update_keeps_key_order (w : World) (elems : list (option Sample)) :
  let m := obs_by_channel (latest w) in
  let m' := obs_by_channel
              (latest (exec (State.updateLatestObservables
                               (State.ArrayOf elems)) w)) in
  exists added,
    JsMap.keys m' = JsMap.keys m ++ added /\
    forall k, In k added ->
      ~ In k (JsMap.keys m) /\
      exists s, In (Some s) elems /\ channel_id s = Some k.
Proof.
  intros m m'. subst m m'. unfold exec.
  rewrite StateFacts.run_updateLatestObservables. simpl.
  unfold record_all. generalize (clock w) as now.
  generalize (obs_by_channel (latest w)) as m. clear w.
  intros m now. revert m.
  induction elems as [|e elems IH]; intros m; simpl.
  - exists []. split; [now rewrite app_nil_r | intros k []].
  - destruct e as [e|]; simpl.
    2:{ destruct (IH m) as (added & Hk & Hadd). exists added. split; auto.
        intros k Hin. destruct (Hadd k Hin) as (Hn & s & Hs & Hc).
        split; [assumption|]. exists s. split; [now right|assumption]. }
    destruct (channel_id e) as [id|] eqn:Hid.
    2:{ destruct (IH m) as (added & Hk & Hadd). exists added. split; auto.
        intros k Hin. destruct (Hadd k Hin) as (Hn & s & Hs & Hc).
        split; [assumption|]. exists s. split; [now right|assumption]. }
    match goal with
    | |- context [fold_left _ elems ?m1] =>
        destruct (IH m1) as (added & Hk & Hadd)
    end.
    rewrite keys_set in Hk, Hadd.
    destruct (existsb (Z.eqb id) (JsMap.keys m)) eqn:Ex.
    + exists added. split; auto.
      intros k Hin. destruct (Hadd k Hin) as (Hn & s & Hs & Hc).
      split; [assumption|]. exists s. split; [now right|assumption].
    + exists (id :: added). split.
      * rewrite Hk, <- app_assoc. reflexivity.
      * intros k [<-|Hin].
        -- split.
           ++ intros Hin. apply not_true_iff_false in Ex. apply Ex.
              apply existsb_exists. exists id. split; auto.
              apply Z.eqb_refl.
           ++ exists e. split; [now left|assumption].
        -- destruct (Hadd k Hin) as (Hn & s & Hs & Hc). split.
           ++ intros Hm. apply Hn. apply in_or_app. now left.
           ++ exists s. split; [now right|assumption].
Qed.

Lemma filter_idem (A : Type) (f : A -> bool) (l : list A) :
  filter f (filter f l) = filter f l.
Proof.
  induction l as [|x l IH]; simpl; auto.
  destruct (f x) eqn:E; simpl; rewrite ?E, IH; reflexivity.
Qed.

(** X4: a second snapshot read at the same clock reading finds nothing left
    to evict: it leaves the world as the first read left it and, under the
    same limit, returns the same list. *)
Theorem snapshot_idempotent (w : World) (limit limit' : option JsNum.number) :
  JsMap.wf (obs_by_channel (latest w)) ->
  let w1 := exec (State.getLatestObservables limit) w in
  exec (State.getLatestObservables limit') w1 = w1 /\
  completion (State.getLatestObservables limit) w1
  = completion (State.getLatestObservables limit) w.
Proof.
  intros Hwf w1.
  assert (Hw1 : w1 = set_latest
                       (State.with_obs_by_channel
                          (fresh_entries (clock w) (obs_by_channel (latest w)))
                          (latest w)) w).
  { subst w1. unfold exec. now rewrite StateFacts.run_getLatestObservables. }
  assert (Hwf1 : JsMap.wf (obs_by_channel (latest w1))).
  { rewrite Hw1. simpl. now apply JsMapFacts.wf_filter. }
  split.
  - unfold exec. rewrite StateFacts.run_getLatestObservables by assumption.
    rewrite Hw1. destruct w as [c [p pt m o] s cons d]. simpl.
    unfold set_latest, State.with_obs_by_channel, fresh_entries. simpl.
    now rewrite filter_idem.
  - rewrite !StateFacts.result_getLatestObservables. rewrite Hw1. simpl.
    unfold fresh_samples, fresh_entries. now rewrite filter_idem.
Qed.

Lemma snapshot_idempotent_witness :
  let w := at_time 5500
             (Scenario.record_batch 1000 [Scenario.sample_on 7 38]
                (Scenario.record_batch 0 [Scenario.sample_on 3 45]
                   (initial_world 0))) in
  let w1 := exec (State.getLatestObservables None) w in
  exec (State.getLatestObservables (Some (JsNum.of_Z 1))) w1 = w1.
Proof.
  intros w w1.
  apply (snapshot_idempotent w None (Some (JsNum.of_Z 1))).
  repeat constructor; simpl; intuition discriminate.
Defined.

Lemma sorted_app_le (l1 l2 : list StoredSample) :
  cn0_descending (l1 ++ l2) ->
  forall a b, In a l1 -> In b l2 ->
    JsNum.leb (State.cn0_or_0 b) (State.cn0_or_0 a) = true.
Proof.
  unfold cn0_descending. induction l1 as [|x l1 IH]; simpl; intros Hs a b.
  - intros [].
  - inversion_clear Hs as [|? ? Hs' Hall]. intros [<-|Ha] Hb.
    + rewrite Forall_forall in Hall. apply Hall.
      apply in_or_app. now right.
    + now apply IH.
Qed.

Lemma cut_length_pos n (l : list StoredSample) :
  0 < n ->
  Z.of_nat (List.length (cut (JsNum.of_Z n) l))
  = Z.min n (Z.of_nat (List.length l)).
Proof.
  intros Hn. unfold cut, JsArray.slice0, JsNum.of_Z. simpl.
  assert (Ht : Qeq_bool (inject_Z n) 0 = false).
  { apply not_true_iff_false. intros H. apply Qeq_bool_iff in H.
    unfold Qeq in H. simpl in H. lia. }
  rewrite Ht. simpl. rewrite Z.quot_1_r.
  destruct (n <? 0) eqn:E; [apply Z.ltb_lt in E; lia|].
  rewrite length_firstn. lia.
Qed.

Lemma cut_length_neg n (l : list StoredSample) :
  n < 0 ->
  Z.of_nat (List.length (cut (JsNum.of_Z n) l))
  = Z.max (Z.of_nat (List.length l) + n) 0.
Proof.
  intros Hn. unfold cut, JsArray.slice0, JsNum.of_Z. simpl.
  assert (Ht : Qeq_bool (inject_Z n) 0 = false).
  { apply not_true_iff_false. intros H. apply Qeq_bool_iff in H.
    unfold Qeq in H. simpl in H. lia. }
  rewrite Ht. simpl. rewrite Z.quot_1_r.
  destruct (n <? 0) eqn:E; [|apply Z.ltb_ge in E; lia].
  rewrite length_firstn. lia.
Qed.

(** X5: under a limit the snapshot keeps the strongest entries: what it
    returns is the head of the full sorted list, and (no NaN aside) every
    entry it leaves out is no stronger than any entry it returns.  A
    positive whole limit [n] returns [min n count] entries; a negative one
    leaves out the [-n] weakest. *)
Theorem limit_keeps_strongest (w : World) (limit : option JsNum.number)
    (n : Z) :
  let fs := fresh_samples (clock w) (obs_by_channel (latest w)) in
  no_nan fs ->
  exists res rest,
    completion (State.getLatestObservables limit) w = Normal res /\
    JsArray.sort State.by_cn0_desc fs = res ++ rest /\
    (forall a b, In a res -> In b rest ->
       JsNum.leb (State.cn0_or_0 b) (State.cn0_or_0 a) = true) /\
    (limit = Some (JsNum.of_Z n) -> 0 < n ->
       Z.of_nat (List.length res) = Z.min n (Z.of_nat (List.length fs))) /\
    (limit = Some (JsNum.of_Z n) -> n < 0 ->
       Z.of_nat (List.length res)
       = Z.max (Z.of_nat (List.length fs) + n) 0).
Proof.
  intros fs Hn.
  destruct (SortFacts.cut_prefix (limit_or_64 limit)
              (JsArray.sort State.by_cn0_desc fs)) as [rest Hrest].
  eexists. exists rest.
  split; [apply StateFacts.result_getLatestObservables|]. fold fs.
  split; [exact Hrest|]. split; [|split].
  - apply sorted_app_le. rewrite <- Hrest. now apply SortFacts.sort_sorted.
  - intros -> Hpos. simpl.
    now rewrite cut_length_pos, SortFacts.sort_length.
  - intros -> Hneg. simpl.
    now rewrite cut_length_neg, SortFacts.sort_length.
Qed.

Lemma limit_keeps_strongest_witness :
  let w := at_time 1
             (Scenario.record_batch 0
                [Scenario.sample_on 1 30; Scenario.sample_on 2 50;
                 Scenario.sample_on 3 40]
                (initial_world 0)) in
  exists res rest,
    completion (State.getLatestObservables (Some (JsNum.of_Z (-1)))) w
    = Normal res /\
    JsArray.sort State.by_cn0_desc
      (fresh_samples 1 (obs_by_channel (latest w))) = res ++ rest /\
    Z.of_nat (List.length res) = 2.
Proof.
  intros w.
  destruct (limit_keeps_strongest w (Some (JsNum.of_Z (-1))) (-1))
    as (res & rest & Hres & Happ & _ & _ & Hlen).
  - repeat constructor.
  - exists res, rest. split; [exact Hres|]. split; [exact Happ|].
    apply Hlen; [reflexivity|lia].
Defined.

Lemma pvt_slot_call c w :
  (pvt (latest w) = None -> pvt_timestamp (latest w) = 0) ->
  pvt (latest (exec (call c) w)) = None ->
  pvt_timestamp (latest (exec (call c) w)) = 0.
Proof.
  intros H. destruct c as [msg|[|elems]| |limit|]; unfold exec, call.
  - rewrite StateFacts.run_setLatestPvt. simpl. discriminate.
  - exact H.
  - rewrite StateFacts.run_updateLatestObservables. exact H.
  - unfold bind. rewrite StateFacts.run_getLatestPvt. exact H.
  - unfold bind. rewrite StateFacts.run_getLatestObservables_any. exact H.
  - exact H.
Qed.

Lemma pvt_slot_run_calls calls w :
  (pvt (latest w) = None -> pvt_timestamp (latest w) = 0) ->
  pvt (latest (run_calls calls w)) = None ->
  pvt_timestamp (latest (run_calls calls w)) = 0.
Proof.
  revert w. induction calls as [|[t c] calls IH]; intros w H; simpl; auto.
  apply IH. now apply pvt_slot_call.
Qed.

(** X6: the health summary and the PVT reader agree on a live feed: once
    the clock has passed the first TTL, whenever the summary reports
    [is_live = true], [getLatestPvt] returns a fix; before any fix was
    received the summary reports [is_live = false]. *)
Theorem is_live_implies_pvt (calls : list (Z * Call)) (t0 now : Z) :
  State.TTL_MS <= now ->
  let w := at_time now (run_calls calls (initial_world t0)) in
  exists m,
    completion State.getLatestObservablesMeta w = Normal m /\
    (State.is_live m = true ->
     exists p, completion State.getLatestPvt w = Normal (Some p)) /\
    (pvt (latest w) = None -> State.is_live m = false).
Proof.
  intros Hnow w.
  assert (Hinv : pvt (latest w) = None -> pvt_timestamp (latest w) = 0).
  { subst w. simpl. now apply pvt_slot_run_calls. }
  assert (Hc : clock w = now) by reflexivity.
  clearbody w. unfold completion.
  rewrite StateFacts.run_getLatestObservablesMeta, StateFacts.run_getLatestPvt.
  eexists. split; [reflexivity|]. simpl. rewrite Hc.
  split.
  - intros Hlive. apply Z.ltb_lt in Hlive.
    destruct (pvt (latest w)) as [p|] eqn:Hp.
    + exists p. destruct (now - pvt_timestamp (latest w) >? State.TTL_MS)
        eqn:E; auto.
      rewrite Z.gtb_ltb in E. apply Z.ltb_lt in E. lia.
    + rewrite Hinv in Hlive by reflexivity. lia.
  - intros Hp. rewrite (Hinv Hp). apply Z.ltb_ge. lia.
Qed.

Lemma is_live_implies_pvt_witness :
  let w := at_time 1700000003000
             (run_calls
                [(1700000000000, CallSetLatestPvt (Scenario.fix_with 6 4))]
                (initial_world 0)) in
  exists p, completion State.getLatestPvt w = Normal (Some p).
Proof.
  intros w.
  destruct (is_live_implies_pvt
              [(1700000000000, CallSetLatestPvt (Scenario.fix_with 6 4))]
              0 1700000003000) as (m & Hm & Hlive & _).
  - unfold State.TTL_MS. lia.
  - apply Hlive. inversion Hm. reflexivity.
Defined.

End StoreExtra.

(* ================================================================== *)
(** * The snapshot routes *)

Module RouteExtra.
Import Reading.

Local Abbreviation at_time := set_clock.

(** X7: a [limit] query parameter that does not convert to a finite number
    is replaced by 64, so the route answers as it does when the parameter
    is absent. *)
Theorem limit_fallback_64 (other : string -> JsNum.number) (s : string)
    (w : World) :
  JsNum.isFinite (Server.Number other s) = false ->
  Server.get_latest_observables other (Some s) w
  = Server.get_latest_observables other None w /\
  exists meta,
    completion (Server.get_latest_observables other (Some s)) w
    = Normal (Server.mkObsResponse true meta
                (JsArray.slice0
                   (JsArray.sort State.by_cn0_desc
                      (fresh_samples (clock w) (obs_by_channel (latest w))))
                   (JsNum.of_Z 64))).
Proof.
  intros Hnf. split.
  - unfold Server.get_latest_observables. now rewrite Hnf.
  - unfold completion, Server.get_latest_observables, bind. rewrite Hnf.
    rewrite StateFacts.run_getLatestObservables_any.
    rewrite StateFacts.run_getLatestObservablesMeta.
    eexists. reflexivity.
Qed.

Lemma limit_fallback_64_witness :
  let other := fun _ : string => JsNum.NaN in
  let w := at_time 1 (Scenario.record_batch 0 Scenario.many_channels
                                            (initial_world 0)) in
  Server.get_latest_observables other (Some "all"%string) w
  = Server.get_latest_observables other None w.
Proof.
  intros other w.
  apply (limit_fallback_64 other "all"%string w). reflexivity.
Defined.

(** X8: whatever the query, the observables route answers [ok: true]; its
    [meta.count] is the number of channels that are fresh at that time,
    its [observables] are never more than that, and they are all of them
    when the limit leaves the list whole; afterwards the map holds the
    fresh entries only. *)
Theorem observables_response_consistent (other : string -> JsNum.number)
    (q : option string) (w : World) :
  JsMap.wf (obs_by_channel (latest w)) ->
  let n := fresh_count (clock w) (obs_by_channel (latest w)) in
  exists resp,
    completion (Server.get_latest_observables other q) w = Normal resp /\
    Server.obs_ok resp = true /\
    State.count (Server.meta resp) = n /\
    Z.of_nat (List.length (Server.observables resp)) <= n /\
    (q = Some "0"%string ->
     Z.of_nat (List.length (Server.observables resp)) = n) /\
    obs_by_channel
      (latest (exec (Server.get_latest_observables other q) w))
    = fresh_entries (clock w) (obs_by_channel (latest w)).
Proof.
  intros Hwf n.
  unfold completion, exec, Server.get_latest_observables, bind.
  rewrite StateFacts.run_getLatestObservables by assumption.
  rewrite StateFacts.run_getLatestObservablesMeta.
  eexists. split; [reflexivity|]. simpl.
  split; [reflexivity|]. split; [reflexivity|].
  assert (Hlen : Z.of_nat (List.length
                   (JsArray.sort State.by_cn0_desc
                      (fresh_samples (clock w) (obs_by_channel (latest w)))))
                 = n).
  { rewrite SortFacts.sort_length. subst n.
    unfold fresh_samples, fresh_count. now rewrite length_map. }
  split; [|split; [|reflexivity]].
  - match goal with
    | |- context [cut ?lim ?l] =>
        destruct (SortFacts.cut_prefix lim l) as [rest Hrest]
    end.
    rewrite <- Hlen. rewrite Hrest at 2. rewrite length_app. lia.
  - intros ->. exact Hlen.
Qed.

Lemma observables_response_consistent_witness :
  let w := at_time 5500
             (Scenario.record_batch 1000 [Scenario.sample_on 7 38]
                (Scenario.record_batch 0 [Scenario.sample_on 3 45]
                   (initial_world 0))) in
  exists resp,
    completion (Server.get_latest_observables (fun _ => JsNum.NaN) None) w
    = Normal resp /\
    State.count (Server.meta resp) = 1.
Proof.
  intros w.
  destruct (observables_response_consistent (fun _ => JsNum.NaN) None w)
    as (resp & Hresp & _ & Hcount & _).
  - repeat constructor; simpl; intuition discriminate.
  - exists resp. split; [exact Hresp|exact Hcount].
Defined.

(** X9: a PVT datagram that decodes is served back by the PVT route: until
    the TTL has passed since its arrival the route answers with the
    message built from it, afterwards with [pvt: null]; either way with
    [ok: true]. *)
Theorem pvt_round_trip (T : UdpHandlers.Decoder MonitorPvt)
    (toISOString : Z -> string) (JSON_stringify : Payload -> string)
    (buf : UdpHandlers.Buffer) (p : MonitorPvt) (w : World) (t now : Z) :
  T buf = inr p ->
  let w1 := exec (UdpHandlers.handlePvtUdp (Some T) toISOString
                                           JSON_stringify buf)
                 (at_time t w) in
  let msg := UdpHandlers.to_msg (toISOString t) p in
  completion Server.get_latest_pvt (at_time now w1)
  = Normal (Server.mkPvtResponse true
              (if now - t >? State.TTL_MS then None else Some msg)) /\
  valid_sats msg = m_validSats p /\
  solution_status msg = m_solutionStatus p.
Proof.
  intros Hbuf w1 msg. split; [|split; reflexivity].
  subst w1. unfold completion, exec, Server.get_latest_pvt, bind.
  rewrite (HandlerFacts.run_handlePvtUdp _ _ T buf p _ Hbuf).
  rewrite StateFacts.run_getLatestPvt. simpl.
  rewrite WebsocketFacts.broadcast_latest. simpl.
  fold msg. destruct (now - t >? State.TTL_MS); reflexivity.
Qed.

Lemma pvt_round_trip_witness :
  let w1 := exec (UdpHandlers.handlePvtUdp (Some Scenario.toy_pvt_decoder)
                    Scenario.toy_iso Scenario.toy_stringify
                    [Byte.x06; Byte.x04])
                 (at_time 1000 (initial_world 0)) in
  completion Server.get_latest_pvt (at_time 3000 w1)
  = Normal (Server.mkPvtResponse true (Some (Scenario.fix_with 6 4))).
Proof.
  intros w1.
  apply (pvt_round_trip Scenario.toy_pvt_decoder Scenario.toy_iso
           Scenario.toy_stringify [Byte.x06; Byte.x04]
           (let z := JsNum.of_Z 0 in
            mkMonitorPvt 2295 0 z z z z z z z z z z z z z 6 4 0 z z z z)
           (initial_world 0) 1000 3000).
  reflexivity.
Defined.

End RouteExtra.

(* ================================================================== *)
(** * More on the broadcaster *)

Module FanoutExtra.
Import Reading.

Lemma in_deliveries_inv data clients d :
  In d (deliveries data clients) ->
  exists ws, In ws clients /\ readyState ws = OPEN /\
             ws_send ws data = None /\ d = (ws_id ws, data).
Proof.
  unfold deliveries. intros Hin. apply in_flat_map in Hin.
  destruct Hin as [ws [Hws Hd]]. exists ws. unfold is_open in Hd.
  destruct (readyState ws) eqn:Hr; try contradiction.
  destruct (ws_send ws data) eqn:Hs; try contradiction.
  destruct Hd as [<-|[]]. auto.
Qed.

Lemma deliveries_none_open data clients :
  (forall ws, In ws clients -> readyState ws <> OPEN) ->
  deliveries data clients = [] /\ send_errors data clients = [].
Proof.
  intros H. unfold deliveries, send_errors.
  induction clients as [|ws clients IH]; [now split|].
  destruct IH as [IH1 IH2]; [intros ws' Hin; apply H; now right|].
  cbn [flat_map]. rewrite IH1, IH2. unfold is_open.
  assert (Hws := H ws (or_introl eq_refl)).
  destruct (readyState ws); try contradiction; auto.
Qed.

Lemma deliveries_for_id data clients id :
  filter (fun d => Nat.eqb (fst d) id) (deliveries data clients)
  = deliveries data (filter (fun ws => Nat.eqb (ws_id ws) id) clients).
Proof.
  unfold deliveries. induction clients as [|ws clients IH]; [reflexivity|].
  cbn [flat_map filter]. rewrite filter_app, IH.
  destruct (Nat.eqb (ws_id ws) id) eqn:E; cbn [flat_map].
  - destruct (is_open ws); [|reflexivity].
    destruct (ws_send ws data); [reflexivity|].
    cbn [filter fst]. now rewrite E.
  - destruct (is_open ws); [|reflexivity].
    destruct (ws_send ws data); [reflexivity|].
    cbn [filter fst]. now rewrite E.
Qed.

Lemma filter_unique_id (clients : list WebSocket) ws :
  NoDup (map ws_id clients) -> In ws clients ->
  filter (fun c => Nat.eqb (ws_id c) (ws_id ws)) clients = [ws].
Proof.
  induction clients as [|c clients IH]; simpl; intros Hnd Hin; [easy|].
  inversion_clear Hnd as [|? ? Hnin Hnd'].
  destruct Hin as [->|Hin].
  - rewrite Nat.eqb_refl. f_equal.
    clear IH. induction clients as [|c' clients IH']; simpl; auto.
    destruct (Nat.eqb (ws_id c') (ws_id ws)) eqn:E.
    + apply Nat.eqb_eq in E. exfalso. apply Hnin. left. exact E.
    + apply IH'.
      * intros H. apply Hnin. now right.
      * now inversion Hnd'.
  - destruct (Nat.eqb (ws_id c) (ws_id ws)) eqn:E.
    + apply Nat.eqb_eq in E. exfalso. apply Hnin. rewrite E.
      now apply in_map.
    + now apply IH.
Qed.

(** X10: [broadcast] sends only on open client sockets, one serialization
    of the message for all of them: every delivery it adds is the JSON
    text of the message on a client that is open and whose [send] did not
    throw, and such a client gets it exactly once; before [initWebSocket],
    or when no client is open, [broadcast] changes nothing at all. *)
Theorem deliveries_only_to_open (JSON_stringify : Payload -> string)
    (obj : Payload) (w : World) (clients : list WebSocket) (ws : WebSocket) :
  wss w = Some clients -> NoDup (map ws_id clients) -> In ws clients ->
  let data := JSON_stringify obj in
  let w' := exec (Websocket.broadcast JSON_stringify obj) w in
  (forall w0, wss w0 = None ->
     exec (Websocket.broadcast JSON_stringify obj) w0 = w0) /\
  ((forall c, In c clients -> readyState c <> OPEN) -> w' = w) /\
  (exists sent,
     delivered w' = delivered w ++ sent /\
     (forall d, In d sent ->
        exists c, In c clients /\ readyState c = OPEN /\
                  ws_send c data = None /\ d = (ws_id c, data)) /\
     filter (fun d => Nat.eqb (fst d) (ws_id ws)) sent
     = if is_open ws then
         match ws_send ws data with
         | None => [(ws_id ws, data)]
         | Some _ => []
         end
       else []).
Proof.
  intros Hwss Hnd Hin data w'.
  assert (Hw' : w' = mkWorld (clock w) (latest w) (wss w)
                             (console w ++ send_errors data clients)
                             (delivered w ++ deliveries data clients)).
  { subst w'. unfold exec. rewrite WebsocketFacts.run_broadcast.
    now rewrite Hwss. }
  split; [|split].
  - intros w0 H0. unfold exec. rewrite WebsocketFacts.run_broadcast.
    now rewrite H0.
  - intros Hclosed. rewrite Hw'.
    destruct (deliveries_none_open data clients Hclosed) as [-> ->].
    rewrite !app_nil_r. now destruct w.
  - exists (deliveries data clients). rewrite Hw'. simpl.
    split; [reflexivity|]. split.
    + apply in_deliveries_inv.
    + rewrite deliveries_for_id, (filter_unique_id clients ws Hnd Hin).
      unfold deliveries. simpl. now rewrite app_nil_r.
Qed.

Lemma deliveries_only_to_open_witness :
  let clients := [Scenario.broken_socket 1; Scenario.good_socket 2;
                  mkWebSocket 3 CLOSING (fun _ => None)] in
  let w := Scenario.world_with_clients clients in
  let w' := exec (Websocket.broadcast Scenario.toy_stringify
                    (PayloadPvt (Scenario.fix_with 6 4))) w in
  exists sent,
    delivered w' = delivered w ++ sent /\
    filter (fun d => Nat.eqb (fst d) 2) sent = [(2%nat, "{pvt}"%string)].
Proof.
  intros clients w w'.
  destruct (deliveries_only_to_open Scenario.toy_stringify
              (PayloadPvt (Scenario.fix_with 6 4)) w clients
              (Scenario.good_socket 2))
    as (_ & _ & sent & Hsent & _ & Hcount).
  - reflexivity.
  - repeat constructor; simpl; intuition discriminate.
  - right. now left.
  - exists sent. split; [exact Hsent|exact Hcount].
Defined.

End FanoutExtra.

(* ================================================================== *)
(** * More on the ingress listeners *)

Module IngressExtra.
Import Reading.

Section Handlers.
Variable toISOString : Z -> string.
Variable JSON_stringify : Payload -> string.

Local Abbreviation handleObsUdp O :=
  (UdpHandlers.handleObsUdp O toISOString JSON_stringify).
Local Abbreviation handlePvtUdp P :=
  (UdpHandlers.handlePvtUdp P toISOString JSON_stringify).
Local Abbreviation on_message O P :=
  (UdpHandlers.on_message O P toISOString JSON_stringify).
Local Abbreviation listen O P :=
  (UdpHandlers.listen O P toISOString JSON_stringify).

Lemma samples_of_no_entry now obs :
  entries_of obs = [] -> UdpHandlers.samples_of now obs = [].
Proof.
  unfold UdpHandlers.samples_of, entries_of. now intros ->.
Qed.

(** X11: an observables datagram that decodes to no entry (an empty or a
    missing [observable] list) leaves the world as it was: nothing is
    recorded, the time of the last update is not touched, nothing is sent
    and nothing is logged. *)
Theorem empty_batch_no_effect (T : UdpHandlers.Decoder Observables)
    (buf : UdpHandlers.Buffer) (obs : Observables) (w : World) :
  T buf = inr obs ->
  entries_of obs = [] ->
  handleObsUdp (Some T) buf w = (Normal tt, w).
Proof.
  intros Hbuf Hnone.
  rewrite (HandlerFacts.run_handleObsUdp _ _ T buf obs w Hbuf).
  now rewrite samples_of_no_entry.
Qed.

(** X12: the handlers never throw: whatever the datagram, the decoders and
    the state of the client sockets, [handleObsUdp] and [handlePvtUdp]
    complete normally. *)
Theorem handlers_never_throw (O : option (UdpHandlers.Decoder Observables))
    (P : option (UdpHandlers.Decoder MonitorPvt))
    (d : UdpHandlers.Datagram) (w : World) :
  completion (on_message O P d) w = Normal tt.
Proof.
  unfold completion, UdpHandlers.on_message. destruct d as [buf|buf].
  - destruct O as [T|]; [|reflexivity].
    destruct (T buf) as [e|obs] eqn:Hbuf.
    + unfold UdpHandlers.handleObsUdp. now rewrite Hbuf.
    + now rewrite (HandlerFacts.run_handleObsUdp _ _ T buf obs w Hbuf).
  - destruct P as [T|]; [|reflexivity].
    destruct (T buf) as [e|p] eqn:Hbuf.
    + unfold UdpHandlers.handlePvtUdp. now rewrite Hbuf.
    + now rewrite (HandlerFacts.run_handlePvtUdp _ _ T buf p w Hbuf).
Qed.

Lemma obs_keeps_pvt O buf w :
  pvt (latest (exec (handleObsUdp O buf) w)) = pvt (latest w) /\
  pvt_timestamp (latest (exec (handleObsUdp O buf) w))
  = pvt_timestamp (latest w).
Proof.
  unfold exec. destruct O as [T|]; [|now split].
  destruct (T buf) as [e|obs] eqn:Hbuf.
  - unfold UdpHandlers.handleObsUdp. rewrite Hbuf. now split.
  - rewrite (HandlerFacts.run_handleObsUdp _ _ T buf obs w Hbuf). simpl.
    destruct (UdpHandlers.samples_of _ obs); [now split|].
    now rewrite WebsocketFacts.broadcast_latest.
Qed.

Lemma pvt_keeps_obs P buf w :
  obs_by_channel (latest (exec (handlePvtUdp P buf) w))
  = obs_by_channel (latest w) /\
  obs_last_update_ms (latest (exec (handlePvtUdp P buf) w))
  = obs_last_update_ms (latest w).
Proof.
  unfold exec. destruct P as [T|]; [|now split].
  destruct (T buf) as [e|p] eqn:Hbuf.
  - unfold UdpHandlers.handlePvtUdp. rewrite Hbuf. now split.
  - rewrite (HandlerFacts.run_handlePvtUdp _ _ T buf p w Hbuf). simpl.
    now rewrite WebsocketFacts.broadcast_latest.
Qed.

(** X13: the two telemetry categories do not touch each other's state:
    over any sequence of observables datagrams the PVT slot and its
    timestamp stay as they were, and over any sequence of PVT datagrams
    the per-channel map and the time of its last update do. *)
Theorem categories_independent
    (O : option (UdpHandlers.Decoder Observables))
    (P : option (UdpHandlers.Decoder MonitorPvt))
    (arrivals : list (Z * UdpHandlers.Buffer)) (w : World) :
  let on_obs :=
    map (fun a => (fst a, UdpHandlers.OnObsPort (snd a))) arrivals in
  let on_pvt :=
    map (fun a => (fst a, UdpHandlers.OnPvtPort (snd a))) arrivals in
  (pvt (latest (listen O P on_obs w)) = pvt (latest w) /\
   pvt_timestamp (latest (listen O P on_obs w)) = pvt_timestamp (latest w)) /\
  (obs_by_channel (latest (listen O P on_pvt w))
   = obs_by_channel (latest w) /\
   obs_last_update_ms (latest (listen O P on_pvt w))
   = obs_last_update_ms (latest w)).
Proof.
  simpl. split.
  - revert w. induction arrivals as [|[t buf] arrivals IH]; intros w.
    + now split.
    + simpl. destruct (IH (UdpHandlers.deliver O P toISOString
                             JSON_stringify w
                             (t, UdpHandlers.OnObsPort buf))) as [H1 H2].
      unfold UdpHandlers.listen in *. rewrite H1, H2.
      unfold UdpHandlers.deliver. simpl.
      apply (obs_keeps_pvt O buf (set_clock t w)).
  - revert w. induction arrivals as [|[t buf] arrivals IH]; intros w.
    + now split.
    + simpl. destruct (IH (UdpHandlers.deliver O P toISOString
                             JSON_stringify w
                             (t, UdpHandlers.OnPvtPort buf))) as [H1 H2].
      unfold UdpHandlers.listen in *. rewrite H1, H2.
      unfold UdpHandlers.deliver. simpl.
      apply (pvt_keeps_obs P buf (set_clock t w)).
Qed.

Lemma broadcast_step obj w :
  exists sent logged,
    exec (Websocket.broadcast JSON_stringify obj) w
    = mkWorld (clock w) (latest w) (wss w) (console w ++ logged)
              (delivered w ++ sent) /\
    forall d, In d sent ->
      exists clients c, wss w = Some clients /\ In c clients /\
                        readyState c = OPEN /\ fst d = ws_id c.
Proof.
  unfold exec. rewrite WebsocketFacts.run_broadcast. simpl.
  destruct (wss w) as [clients|] eqn:Hwss.
  - exists (deliveries (JSON_stringify obj) clients),
           (send_errors (JSON_stringify obj) clients).
    split; [reflexivity|]. intros d Hd.
    apply FanoutExtra.in_deliveries_inv in Hd.
    destruct Hd as (c & Hc & Hopen & _ & ->).
    exists clients, c. repeat split; auto.
  - exists [], []. rewrite !app_nil_r. split.
    + destruct w. simpl in *. now subst.
    + intros d [].
Qed.

Lemma on_message_step O P d w :
  exists sent logged,
    delivered (exec (on_message O P d) w) = delivered w ++ sent /\
    console (exec (on_message O P d) w) = console w ++ logged /\
    wss (exec (on_message O P d) w) = wss w /\
    forall x, In x sent ->
      exists clients c, wss w = Some clients /\ In c clients /\
                        readyState c = OPEN /\ fst x = ws_id c.
Proof.
  assert (Hnone : exists sent logged : list _,
            delivered w = delivered w ++ sent /\
            console w = console w ++ logged /\ wss w = wss w /\
            forall x : nat * string, In x sent ->
              exists clients c, wss w = Some clients /\ In c clients /\
                                readyState c = OPEN /\ fst x = ws_id c).
  { exists [], []. rewrite !app_nil_r. repeat split. intros x []. }
  assert (Hlog : forall line, exists sent logged : list _,
            delivered (add_console line w) = delivered w ++ sent /\
            console (add_console line w) = console w ++ logged /\
            wss (add_console line w) = wss w /\
            forall x : nat * string, In x sent ->
              exists clients c, wss w = Some clients /\ In c clients /\
                                readyState c = OPEN /\ fst x = ws_id c).
  { intros line. exists [], [line]. simpl. rewrite app_nil_r.
    repeat split. intros x []. }
  assert (Hbc : forall obj l, exists sent logged : list _,
            delivered (exec (Websocket.broadcast JSON_stringify obj)
                            (set_latest l w)) = delivered w ++ sent /\
            console (exec (Websocket.broadcast JSON_stringify obj)
                          (set_latest l w)) = console w ++ logged /\
            wss (exec (Websocket.broadcast JSON_stringify obj)
                      (set_latest l w)) = wss w /\
            forall x : nat * string, In x sent ->
              exists clients c, wss w = Some clients /\ In c clients /\
                                readyState c = OPEN /\ fst x = ws_id c).
  { intros obj l.
    destruct (broadcast_step obj (set_latest l w))
      as (sent & logged & Hrun & Hsent).
    exists sent, logged. rewrite Hrun. simpl. repeat split. exact Hsent. }
  unfold exec, UdpHandlers.on_message. destruct d as [buf|buf].
  - destruct O as [T|]; [|exact Hnone].
    destruct (T buf) as [e|obs] eqn:Hbuf.
    + unfold UdpHandlers.handleObsUdp. rewrite Hbuf. apply Hlog.
    + rewrite (HandlerFacts.run_handleObsUdp _ _ T buf obs w Hbuf). simpl.
      destruct (UdpHandlers.samples_of _ obs); [exact Hnone|]. apply Hbc.
  - destruct P as [T|]; [|exact Hnone].
    destruct (T buf) as [e|p] eqn:Hbuf.
    + unfold UdpHandlers.handlePvtUdp. rewrite Hbuf. apply Hlog.
    + rewrite (HandlerFacts.run_handlePvtUdp _ _ T buf p w Hbuf). simpl.
      apply Hbc.
Qed.

(** X14: the listeners only ever add to what was sent and to what was
    logged, and never change the set of clients: over any sequence of
    arrivals the earlier deliveries and console lines stay in place, in
    order, and every delivery that is added goes to an open socket of the
    client set. *)
Theorem listen_append_only (O : option (UdpHandlers.Decoder Observables))
    (P : option (UdpHandlers.Decoder MonitorPvt))
    (events : list (Z * UdpHandlers.Datagram)) (w : World) :
  exists sent logged,
    delivered (listen O P events w) = delivered w ++ sent /\
    console (listen O P events w) = console w ++ logged /\
    wss (listen O P events w) = wss w /\
    forall x, In x sent ->
      exists clients c, wss w = Some clients /\ In c clients /\
                        readyState c = OPEN /\ fst x = ws_id c.
Proof.
  revert w. induction events as [|[t d] events IH]; intros w.
  - exists [], []. simpl. rewrite !app_nil_r. repeat split. intros x [].
  - simpl.
    destruct (on_message_step O P d (set_clock t w))
      as (s1 & l1 & Hd1 & Hc1 & Hw1 & Hs1).
    destruct (IH (UdpHandlers.deliver O P toISOString JSON_stringify w
                                      (t, d)))
      as (s2 & l2 & Hd2 & Hc2 & Hw2 & Hs2).
    unfold UdpHandlers.listen in *. unfold UdpHandlers.deliver in *.
    simpl in *.
    exists (s1 ++ s2), (l1 ++ l2).
    rewrite Hd2, Hc2, Hw2, Hd1, Hc1, Hw1, !app_assoc.
    repeat split. intros x Hx. apply in_app_or in Hx.
    destruct Hx as [Hx|Hx].
    + now apply Hs1.
    + destruct (Hs2 x Hx) as (clients & c & Hcl & Hrest).
      exists clients, c. rewrite <- Hw1. auto.
Qed.

Lemma get_record_all_in now elems (m : JsMap.t StoredSample) s k :
  In (Some s) elems -> channel_id s = Some k ->
  exists s', In (Some s') elems /\ channel_id s' = Some k /\
             JsMap.get k (record_all now elems m) = Some (mkStored s' now).
Proof.
  unfold record_all. revert s.
  induction elems as [|x elems IH] using rev_ind; intros s Hin Hk.
  - destruct Hin.
  - rewrite fold_left_app. simpl.
    destruct x as [x|]; simpl.
    + destruct (channel_id x) as [kx|] eqn:Hx.
      * destruct (Z.eq_dec k kx) as [->|Hne].
        -- exists x. split; [apply in_or_app; right; now left|].
           split; [assumption|]. apply JsMapFacts.get_set_same.
        -- apply in_app_or in Hin. destruct Hin as [Hin|[Hin|[]]].
           ++ destruct (IH s Hin Hk) as (s' & Hs' & Hk' & Hget).
              exists s'. split; [apply in_or_app; now left|].
              split; [assumption|].
              now rewrite JsMapFacts.get_set_other.
           ++ inversion Hin. subst x. congruence.
      * apply in_app_or in Hin. destruct Hin as [Hin|[Hin|[]]].
        -- destruct (IH s Hin Hk) as (s' & Hs' & Hk' & Hget).
           exists s'. split; [apply in_or_app; now left|]. auto.
        -- inversion Hin. subst x. congruence.
    + apply in_app_or in Hin. destruct Hin as [Hin|[Hin|[]]].
      * destruct (IH s Hin Hk) as (s' & Hs' & Hk' & Hget).
        exists s'. split; [apply in_or_app; now left|]. auto.
      * discriminate.
Qed.

(** X15: what a handler publishes is what it records.  For a PVT datagram
    that decodes, the message held in the PVT slot afterwards is the
    message whose JSON text went to the open clients.  For an observables
    datagram with at least one entry that the filter keeps, the batch whose JSON
    text went to the open clients is the batch that was recorded: every
    channel of the published batch holds, stamped with the arrival time,
    a sample of that batch. *)
Theorem published_is_recorded (TO : UdpHandlers.Decoder Observables)
    (TP : UdpHandlers.Decoder MonitorPvt) (bufO bufP : UdpHandlers.Buffer)
    (obs : Observables) (p : MonitorPvt) (w : World)
    (clients : list WebSocket) (s : Sample) (k : Z) :
  TO bufO = inr obs -> TP bufP = inr p -> wss w = Some clients ->
  let now := toISOString (clock w) in
  let samples := UdpHandlers.samples_of now obs in
  In s samples -> channel_id s = Some k ->
  let wp := exec (handlePvtUdp (Some TP) bufP) w in
  let wo := exec (handleObsUdp (Some TO) bufO) w in
  (exists msg,
     pvt (latest wp) = Some msg /\
     pvt_timestamp (latest wp) = clock w /\
     delivered wp
     = delivered w ++ deliveries (JSON_stringify (PayloadPvt msg)) clients) /\
  (delivered wo
   = delivered w ++ deliveries (JSON_stringify (PayloadSamples samples))
                               clients /\
   exists s', In s' samples /\ channel_id s' = Some k /\
              JsMap.get k (obs_by_channel (latest wo))
              = Some (mkStored s' (clock w))).
Proof.
  intros HO HP Hwss now samples Hin Hk wp wo. split.
  - subst wp. unfold exec.
    rewrite (HandlerFacts.run_handlePvtUdp _ _ TP bufP p w HP). simpl.
    unfold exec. rewrite WebsocketFacts.run_broadcast. simpl.
    rewrite Hwss. simpl. eexists. repeat split.
  - subst wo. unfold exec.
    rewrite (HandlerFacts.run_handleObsUdp _ _ TO bufO obs w HO). simpl.
    fold now. fold samples.
    destruct samples as [|s0 rest] eqn:Hs; [destruct Hin|].
    unfold exec. rewrite WebsocketFacts.run_broadcast. simpl.
    rewrite Hwss. simpl. split; [reflexivity|].
    destruct (get_record_all_in (clock w) (map Some (s0 :: rest))
                (obs_by_channel (latest w)) s k)
      as (s' & Hs' & Hk' & Hget); [now apply in_map|assumption|].
    exists s'. split; [|split; assumption].
    apply in_map_iff in Hs'. destruct Hs' as (x & Hx & Hxin).
    inversion Hx. now subst.
Qed.
End Handlers.

Lemma empty_batch_no_effect_witness :
  let w := Scenario.world_with_clients [Scenario.good_socket 1] in
  UdpHandlers.handleObsUdp (Some Scenario.toy_obs_decoder) Scenario.toy_iso
    Scenario.toy_stringify [] w
  = (Normal tt, w).
Proof.
  intros w.
  apply (empty_batch_no_effect Scenario.toy_iso Scenario.toy_stringify
           Scenario.toy_obs_decoder [] (mkObservables (Some []))).
  - reflexivity.
  - reflexivity.
Defined.

Lemma published_is_recorded_witness :
  let w := Scenario.world_with_clients [Scenario.good_socket 1] in
  let wo := exec (UdpHandlers.handleObsUdp (Some Scenario.toy_obs_decoder)
                    Scenario.toy_iso Scenario.toy_stringify
                    [Byte.x05; Byte.x01]) w in
  delivered wo = [(1%nat, "[observables]"%string)].
Proof.
  intros w wo.
  destruct (published_is_recorded Scenario.toy_iso Scenario.toy_stringify
              Scenario.toy_obs_decoder Scenario.toy_pvt_decoder
              [Byte.x05; Byte.x01] [Byte.x06; Byte.x04]
              (mkObservables (Some [Scenario.toy_entry Byte.x05 Byte.x01]))
              (let z := JsNum.of_Z 0 in
               mkMonitorPvt 2295 0 z z z z z z z z z z z z z 6 4 0 z z z z)
              w [Scenario.good_socket 1]
              (UdpHandlers.to_sample (Scenario.toy_iso 0)
                                     (Scenario.toy_entry Byte.x05 Byte.x01))
              5)
    as (_ & Hd & _).
  - reflexivity.
  - reflexivity.
  - reflexivity.
  - now left.
  - reflexivity.
  - exact Hd.
Defined.

End IngressExtra.

(* ================================================================== *)
(** * The LED matrix sketch *)

Module SketchProps.
Import Sketch.

Lemma length_store i v (pix : Pix) :
  List.length (store i v pix) = List.length pix.
Proof.
  revert i. induction pix as [|a pix IH]; intros [|i]; simpl; auto.
Qed.

Lemma nth_store_same i v (pix : Pix) :
  (i < List.length pix)%nat -> nth i (store i v pix) 0 = v.
Proof.
  revert i. induction pix as [|a pix IH]; intros [|i] H; simpl in *;
    try lia; auto.
  apply IH. lia.
Qed.

Lemma nth_store_other i j v (pix : Pix) :
  i <> j -> nth j (store i v pix) 0 = nth j pix 0.
Proof.
  revert i j. induction pix as [|a pix IH]; intros [|i] [|j] H; simpl;
    auto; try congruence.
Qed.

Lemma Forall_store (P : Z -> Prop) i v (pix : Pix) :
  Forall P pix -> P v -> Forall P (store i v pix).
Proof.
  intros H Hv. revert i. induction H as [|a pix Ha H IH]; intros [|i];
    simpl; auto.
Qed.

Lemma outside_false x y :
  outside x y = false <-> (0 <= x < 13 /\ 0 <= y < 8).
Proof.
  unfold outside. rewrite !orb_false_iff, !Z.ltb_ge.
  rewrite !Z.geb_leb, !Z.leb_gt. lia.
Qed.

Lemma IDX_range x y :
  0 <= x < 13 -> 0 <= y < 8 -> 0 <= IDX x y < 104.
Proof. unfold IDX. lia. Qed.

Lemma frame_ok_put x y v pix :
  frame_ok pix -> 0 <= v <= 7 -> frame_ok (put x y v pix).
Proof.
  intros [Hlen Hall] Hv. unfold put. destruct (outside x y); [now split|].
  split; [now rewrite length_store | now apply Forall_store].
Qed.

Lemma frame_ok_add x y v pix : frame_ok pix -> frame_ok (add x y v pix).
Proof.
  intros [Hlen Hall]. unfold add. destruct (outside x y); [now split|].
  split; [now rewrite length_store|]. apply Forall_store; auto.
  unfold uint16, uint8.
  set (t := (load (IDX x y) pix + v) mod 65536).
  assert (0 <= t < 65536) by (apply Z.mod_pos_bound; lia).
  destruct (t >? 7) eqn:E; [lia|].
  rewrite Z.gtb_ltb in E. apply Z.ltb_ge in E.
  rewrite Z.mod_small; lia.
Qed.

Lemma fold_keeps (A : Type) (P : Pix -> Prop) (f : Pix -> A -> Pix) l pix :
  (forall q a, P q -> P (f q a)) -> P pix -> P (fold_left f l pix).
Proof.
  intros Hf. revert pix. induction l as [|a l IH]; simpl; auto.
Qed.

Lemma bright_range c : 0 <= cn0ToBright c <= 7.
Proof.
  unfold cn0ToBright.
  repeat match goal with
         | |- context [if ?b then _ else _] => destruct b
         end; lia.
Qed.

Lemma height_range c : 0 <= cn0ToHeight c <= 5.
Proof.
  unfold cn0ToHeight.
  repeat match goal with
         | |- context [if ?b then _ else _] => destruct b
         end; lia.
Qed.

Lemma frame_ok_clear : frame_ok (clearPix 0).
Proof.
  split; [reflexivity|]. unfold clearPix.
  apply Forall_forall. intros v Hv. apply repeat_spec in Hv. lia.
Qed.

(** X16: every frame [renderFrame] hands to the matrix has its 104 pixels,
    each a 3-bit grayscale value between 0 and 7, whatever the signals, the
    counts and the position of the dot are. *)
Theorem frame_in_range (m : Motion) (d : Display) :
  display_ok d -> frame_ok (snd (renderFrame m d)).
Proof.
  intros _. unfold renderFrame, drawHeadingSpeedDot. simpl.
  apply frame_ok_put.
  - unfold drawBorder. apply fold_keeps.
    { intros q a Hq. now apply frame_ok_add, frame_ok_add. }
    apply fold_keeps.
    { intros q a Hq. now apply frame_ok_add, frame_ok_add. }
    unfold drawCn0Bars. apply fold_keeps.
    { intros q a Hq. apply fold_keeps; auto.
      intros q' k Hq'. now apply frame_ok_add. }
    unfold drawSatsBinary4bit. apply fold_keeps.
    { intros q b Hq. destruct (_ =? 0); auto.
      apply frame_ok_put; auto. lia. }
    unfold drawPvt2x1.
    assert (Hb : 0 <= (if pvt d <=? 0 then if pulse d then 7 else 0 else 7)
                 <= 7)
      by (destruct (pvt d <=? 0), (pulse d); lia).
    apply frame_ok_put; auto. apply frame_ok_put; auto.
    apply frame_ok_clear.
  - pose proof (bright_range (best_cn0 (stepDot m d))) as Hb.
    destruct (_ <? 3) eqn:E; [lia|]. apply Z.ltb_ge in E. lia.
Qed.

Lemma frame_in_range_witness :
  frame_ok (snd (renderFrame (mkMotion true 3 false)
                   (mkDisplay 2 9 (repeat (of_int 0) 6) 0 10 3 true))).
Proof.
  apply (frame_in_range (mkMotion true 3 false)
           (mkDisplay 2 9 (repeat (of_int 0) 6) 0 10 3 true)).
  split; [reflexivity|]. simpl. lia.
Defined.

(** X17: the moving dot never leaves its box: a step that is due puts it
    inside the box wherever it was, at the centre when the speed is below
    the threshold, and a frame without a due step leaves it where it is. *)
Theorem dot_stays_in_box (m : Motion) (d : Display) :
  let d' := fst (renderFrame m d) in
  (due m = true -> in_box d') /\
  (due m = true -> slow m = true -> dotX d' = 10 /\ dotY d' = 3) /\
  (due m = false -> d' = d) /\
  (in_box d -> in_box d') /\
  in_box initial_display.
Proof.
  unfold renderFrame, drawHeadingSpeedDot, stepDot, in_box. simpl.
  unfold BOX_X0, BOX_Y0, BOX_W, BOX_H.
  change (8 + 5 / 2) with 10. change (1 + 5 / 2) with 3.
  destruct (due m), (slow m), (direction (dir m)) as [dx dy]; simpl;
    repeat split; intros; try discriminate; try lia;
    repeat match goal with
           | |- context [if ?b then _ else _] =>
               let E := fresh in destruct b eqn:E
           end;
    rewrite ?Z.ltb_lt, ?Z.ltb_ge, ?Z.gtb_ltb in *; lia.
Qed.

Lemma dot_stays_in_box_witness :
  in_box (fst (renderFrame (mkMotion true 0 false)
                 (mkDisplay 2 9 (repeat (of_int 0) 6) 0 12 3 false))).
Proof.
  destruct (dot_stays_in_box (mkMotion true 0 false)
              (mkDisplay 2 9 (repeat (of_int 0) 6) 0 12 3 false))
    as (Hdue & _).
  apply Hdue. reflexivity.
Defined.

Ltac q_props :=
  repeat match goal with
         | H : Qle_bool _ _ = true |- _ => apply Qle_bool_iff in H
         | H : Qle_bool _ _ = false |- _ =>
             apply not_true_iff_false in H; rewrite Qle_bool_iff in H
         end.

Ltac split_ifs :=
  repeat match goal with
         | |- context [Qle_bool ?p ?q] =>
             let E := fresh "E" in destruct (Qle_bool p q) eqn:E
         end.

(** X18: the two scales of a bar agree and grow with the signal: height is
    between 0 and 5 and brightness between 0 and 7; a bar has no height
    exactly when it has no brightness, which is exactly when [cn0 <= 0];
    a stronger signal never gets a lower or dimmer bar; and a NaN gets the
    full height and brightness. *)
Theorem cn0_scale (a b : float) :
  (0 <= cn0ToHeight a <= 5 /\ 0 <= cn0ToBright a <= 7) /\
  (cn0ToHeight a = 0 <-> cn0ToBright a = 0) /\
  (cn0ToHeight a = 0 <-> fle a (of_int 0) = true) /\
  (fle a b = true ->
   cn0ToHeight a <= cn0ToHeight b /\ cn0ToBright a <= cn0ToBright b) /\
  (cn0ToHeight JsNum.NaN = 5 /\ cn0ToBright JsNum.NaN = 7).
Proof.
  split; [split; [apply height_range | apply bright_range]|].
  split; [|split; [|split; [|now split]]].
  - unfold cn0ToHeight, cn0ToBright.
    repeat match goal with
           | |- context [if ?c then _ else _] => destruct c
           end; split; intros; try reflexivity; discriminate.
  - unfold cn0ToHeight.
    repeat match goal with
           | |- context [if ?c then _ else _] => destruct c eqn:?
           end; split; intros; try reflexivity; discriminate.
  - unfold cn0ToHeight, cn0ToBright, fle, flt, of_int, JsNum.of_Z.
    destruct a as [x| | |], b as [y| | |]; simpl; intros Hab;
      try discriminate; try (split; lia);
      split_ifs; simpl; try (split; lia); exfalso; q_props;
      unfold inject_Z in *; lra.
Qed.

Lemma cn0_scale_witness :
  cn0ToHeight (JsNum.Fin 30) <= cn0ToHeight (JsNum.Fin (423 # 10)) /\
  cn0ToBright (JsNum.Fin 30) <= cn0ToBright (JsNum.Fin (423 # 10)).
Proof.
  apply (cn0_scale (JsNum.Fin 30) (JsNum.Fin (423 # 10))). reflexivity.
Defined.

Lemma load_store_same i v (pix : Pix) :
  0 <= i < Z.of_nat (List.length pix) ->
  load i (store (Z.to_nat i) v pix) = v.
Proof. intros H. unfold load. apply nth_store_same. lia. Qed.

Lemma load_store_other i j v (pix : Pix) :
  0 <= i -> 0 <= j -> i <> j ->
  load j (store (Z.to_nat i) v pix) = load j pix.
Proof. intros Hi Hj Hne. unfold load. apply nth_store_other. lia. Qed.

Lemma load_put_same x y v pix :
  List.length pix = 104%nat -> outside x y = false ->
  load (IDX x y) (put x y v pix) = v.
Proof.
  intros Hlen Hin. unfold put. rewrite Hin.
  apply outside_false in Hin. apply load_store_same.
  rewrite Hlen. pose proof (IDX_range x y). lia.
Qed.

Lemma load_put_other x y v pix i :
  0 <= i -> i <> IDX x y -> load i (put x y v pix) = load i pix.
Proof.
  intros Hi Hne. unfold put. destruct (outside x y) eqn:Hin; auto.
  apply outside_false in Hin. apply load_store_other; auto.
  pose proof (IDX_range x y). lia.
Qed.

Lemma load_add_same x y v pix :
  List.length pix = 104%nat -> outside x y = false ->
  load (IDX x y) (add x y v pix)
  = let t := uint16 (load (IDX x y) pix + v) in
    if t >? 7 then 7 else uint8 t.
Proof.
  intros Hlen Hin. unfold add. rewrite Hin.
  apply outside_false in Hin. apply load_store_same.
  rewrite Hlen. pose proof (IDX_range x y). lia.
Qed.

Lemma load_add_other x y v pix i :
  0 <= i -> i <> IDX x y -> load i (add x y v pix) = load i pix.
Proof.
  intros Hi Hne. unfold add. destruct (outside x y) eqn:Hin; auto.
  apply outside_false in Hin. apply load_store_other; auto.
  pose proof (IDX_range x y). lia.
Qed.

Lemma IDX_col x y : 0 <= x < 13 -> (IDX x y) mod 13 = x.
Proof.
  intros H. unfold IDX. rewrite Z.add_comm, Z.mod_add by lia.
  now apply Z.mod_small.
Qed.

Lemma load_put_col x y v pix i :
  0 <= i -> i mod 13 <> x -> load i (put x y v pix) = load i pix.
Proof.
  intros Hi Hc. destruct (outside x y) eqn:Hin.
  - unfold put. now rewrite Hin.
  - apply load_put_other; auto. intros ->. apply Hc.
    apply outside_false in Hin. now apply IDX_col.
Qed.

Lemma load_add_col x y v pix i :
  0 <= i -> i mod 13 <> x -> load i (add x y v pix) = load i pix.
Proof.
  intros Hi Hc. destruct (outside x y) eqn:Hin.
  - unfold add. now rewrite Hin.
  - apply load_add_other; auto. intros ->. apply Hc.
    apply outside_false in Hin. now apply IDX_col.
Qed.

Lemma length_put x y v pix : List.length (put x y v pix) = List.length pix.
Proof. unfold put. destruct (outside x y); auto using length_store. Qed.

Lemma length_add x y v pix : List.length (add x y v pix) = List.length pix.
Proof. unfold add. destruct (outside x y); auto using length_store. Qed.

(** X19: [put] and [add] stay inside the matrix: with a coordinate outside
    the 13 by 8 matrix they leave the array as it is; inside it [put]
    stores the value, [add] stores the sum saturated at 7, and no other
    pixel changes. *)
Theorem put_add_in_matrix (x y v : Z) (pix : Pix) (i : Z) :
  List.length pix = 104%nat ->
  Forall (fun p => 0 <= p <= 255) pix -> 0 <= v <= 255 ->
  0 <= i -> i <> IDX x y ->
  (outside x y = true -> put x y v pix = pix /\ add x y v pix = pix) /\
  (outside x y = false ->
   load (IDX x y) (put x y v pix) = v /\
   load (IDX x y) (add x y v pix) = Z.min 7 (load (IDX x y) pix + v)) /\
  load i (put x y v pix) = load i pix /\
  load i (add x y v pix) = load i pix.
Proof.
  intros Hlen Hall Hv Hi Hne. split; [|split; [|split]].
  - intros Hout. unfold put, add. now rewrite Hout.
  - intros Hin. split; [now apply load_put_same|].
    rewrite load_add_same by assumption. simpl.
    assert (Hold : 0 <= load (IDX x y) pix <= 255).
    { unfold load. apply outside_false in Hin.
      pose proof (IDX_range x y) as Hr.
      rewrite Forall_forall in Hall. apply Hall, nth_In. lia. }
    unfold uint16, uint8. rewrite (Z.mod_small _ 65536) by lia.
    destruct (_ >? 7) eqn:E.
    + rewrite Z.gtb_ltb in E. apply Z.ltb_lt in E. lia.
    + rewrite Z.gtb_ltb in E. apply Z.ltb_ge in E.
      rewrite Z.mod_small by lia. lia.
  - now apply load_put_other.
  - now apply load_add_other.
Qed.

Lemma put_add_in_matrix_witness :
  load (IDX 3 7) (add 3 7 6 (add 3 7 4 (clearPix 0))) = 7 /\
  add 13 7 6 (clearPix 0) = clearPix 0.
Proof.
  split.
  - destruct (put_add_in_matrix 3 7 6 (add 3 7 4 (clearPix 0)) 0)
      as (_ & Hin & _).
    + reflexivity.
    + repeat constructor; discriminate.
    + lia.
    + lia.
    + discriminate.
    + destruct Hin as [_ Hadd]; [reflexivity|]. exact Hadd.
  - destruct (put_add_in_matrix 13 7 6 (clearPix 0) 0) as (Hout & _).
    + reflexivity.
    + repeat constructor; discriminate.
    + lia.
    + lia.
    + discriminate.
    + apply Hout. reflexivity.
Defined.

Lemma in_upto a n : In a (upto n) <-> 0 <= a < n.
Proof.
  unfold upto. rewrite in_map_iff. split.
  - intros (k & <- & Hk). apply in_seq in Hk. lia.
  - intros H. exists (Z.to_nat a). split; [lia|]. apply in_seq. lia.
Qed.

Lemma NoDup_upto n : NoDup (upto n).
Proof.
  unfold upto. generalize (Z.to_nat n) as len. generalize 0%nat as start.
  intros start len. revert start.
  induction len as [|len IH]; intros start; simpl; constructor; auto.
  intros Hin. apply in_map_iff in Hin. destruct Hin as (k & Hk & Hin).
  apply in_seq in Hin. lia.
Qed.

Lemma existsb_upto k n : existsb (Z.eqb k) (upto n) = (0 <=? k) && (k <? n).
Proof.
  destruct ((0 <=? k) && (k <? n)) eqn:E.
  - apply andb_true_iff in E. destruct E as [E1 E2].
    apply Z.leb_le in E1. apply Z.ltb_lt in E2.
    apply existsb_exists. exists k. split; [|apply Z.eqb_refl].
    apply in_upto. lia.
  - apply not_true_iff_false. intros H. apply existsb_exists in H.
    destruct H as (a & Ha & Heq). apply Z.eqb_eq in Heq. subst a.
    apply in_upto in Ha. apply not_true_iff_false in E. apply E.
    apply andb_true_iff. split; [apply Z.leb_le | apply Z.ltb_lt]; lia.
Qed.

Lemma in_from_to x a b : In x (from_to a b) -> a <= x < b.
Proof.
  unfold from_to. intros H. apply in_map_iff in H.
  destruct H as (k & <- & Hk). apply in_upto in Hk. lia.
Qed.

Lemma fold_load_keeps (A : Type) (f : Pix -> A -> Pix) l pix i :
  (forall q a, In a l -> load i (f q a) = load i q) ->
  load i (fold_left f l pix) = load i pix.
Proof.
  revert pix. induction l as [|a l IH]; intros pix H; simpl; auto.
  rewrite IH by (intros q b Hb; apply H; now right).
  apply H. now left.
Qed.

Lemma fold_length (A : Type) (f : Pix -> A -> Pix) l pix :
  (forall q a, List.length (f q a) = List.length q) ->
  List.length (fold_left f l pix) = List.length pix.
Proof.
  intros H. revert pix. induction l as [|a l IH]; intros pix; simpl; auto.
  now rewrite IH, H.
Qed.

(** A loop in which one turn only writes the pixel [i]. *)
Lemma fold_single_hit (f : Pix -> Z -> Pix) (phi : Z -> Z) l a i pix :
  (forall q b, List.length (f q b) = List.length q) ->
  (forall q, List.length q = 104%nat -> load i (f q a) = phi (load i q)) ->
  (forall q b, In b l -> b <> a -> load i (f q b) = load i q) ->
  NoDup l -> List.length pix = 104%nat ->
  load i (fold_left f l pix)
  = if existsb (Z.eqb a) l then phi (load i pix) else load i pix.
Proof.
  intros Hlen Hhit Hmiss. revert pix.
  induction l as [|b l IH]; intros pix Hnd Hpix; simpl; auto.
  inversion_clear Hnd as [|? ? Hnin Hnd'].
  destruct (a =? b) eqn:E; simpl.
  - apply Z.eqb_eq in E. subst b.
    rewrite fold_load_keeps; [now apply Hhit|].
    intros q b Hb. apply Hmiss; [now right|]. intros ->. contradiction.
  - apply Z.eqb_neq in E.
    rewrite IH; auto.
    + rewrite (Hmiss pix b) by (auto; now left). reflexivity.
    + intros q c Hc. apply Hmiss. now right.
    + now rewrite Hlen.
Qed.

Lemma stepDot_in_box m d : in_box d -> in_box (stepDot m d).
Proof.
  unfold stepDot, in_box, BOX_X0, BOX_Y0, BOX_W, BOX_H.
  change (8 + 5 / 2) with 10. change (1 + 5 / 2) with 3.
  destruct (due m), (slow m), (direction (dir m)) as [dx dy]; simpl;
    intros; try lia;
    repeat match goal with
           | |- context [if ?b then _ else _] =>
               let E := fresh in destruct b eqn:E
           end;
    rewrite ?Z.ltb_lt, ?Z.ltb_ge, ?Z.gtb_ltb in *; lia.
Qed.

Lemma load_border i pix :
  0 <= i -> i mod 13 < 8 -> load i (drawBorder pix) = load i pix.
Proof.
  intros Hi Hc. unfold drawBorder, BOX_X0, BOX_Y0, BOX_W, BOX_H.
  rewrite fold_load_keeps.
  - apply fold_load_keeps. intros q x Hx. apply in_from_to in Hx.
    rewrite !load_add_col; auto; lia.
  - intros q y Hy. rewrite !load_add_col; auto; lia.
Qed.

Lemma load_dot_layer m d pix i :
  in_box d -> 0 <= i -> i mod 13 < 8 ->
  load i (snd (drawHeadingSpeedDot m d pix)) = load i pix.
Proof.
  intros Hbox Hi Hc. unfold drawHeadingSpeedDot. simpl.
  apply (stepDot_in_box m) in Hbox. unfold in_box, BOX_X0 in Hbox.
  rewrite load_put_col by (auto; lia). now apply load_border.
Qed.

Lemma load_bars_col d pix i :
  0 <= i -> i mod 13 < 2 \/ 7 < i mod 13 ->
  load i (drawCn0Bars d pix) = load i pix.
Proof.
  intros Hi Hc. unfold drawCn0Bars, N_BARS, BAR_X0.
  apply fold_load_keeps. intros q a Ha. apply in_upto in Ha.
  apply fold_load_keeps. intros q' k Hk.
  apply load_add_col; auto. lia.
Qed.

Lemma load_sats_col d pix i :
  0 <= i -> i mod 13 <> 0 -> load i (drawSatsBinary4bit d pix) = load i pix.
Proof.
  intros Hi Hc. unfold drawSatsBinary4bit, SATS_X.
  apply fold_load_keeps. intros q b Hb.
  destruct (_ =? 0); auto. now apply load_put_col.
Qed.

Lemma drawSats_clamp d pix :
  drawSatsBinary4bit d pix
  = fold_left
      (fun pix b =>
         if Z.land (Z.shiftr (clamp_sv (sv d)) b) 1 =? 0 then pix
         else put SATS_X (SATS_Y_LSB - b) 7 pix)
      (upto 4) pix.
Proof.
  unfold drawSatsBinary4bit, clamp_sv.
  destruct (sv d <? 0) eqn:E1.
  - apply Z.ltb_lt in E1. simpl.
    replace (Z.min 12 (Z.max 0 (sv d))) with 0 by lia. reflexivity.
  - apply Z.ltb_ge in E1. destruct (sv d >? 12) eqn:E2.
    + rewrite Z.gtb_ltb in E2. apply Z.ltb_lt in E2.
      replace (Z.min 12 (Z.max 0 (sv d))) with 12 by lia. reflexivity.
    + rewrite Z.gtb_ltb in E2. apply Z.ltb_ge in E2.
      replace (Z.min 12 (Z.max 0 (sv d))) with (sv d) by lia. reflexivity.
Qed.

(** X20: column 0 of every frame shows the satellite count in binary: with
    the dot inside its box, reading a lit pixel in row [7 - b] as bit [b]
    gives back [sv] clamped to 0..12. *)
Theorem sats_are_shown (m : Motion) (d : Display) :
  display_ok d -> in_box d ->
  sats_shown (snd (renderFrame m d)) = clamp_sv (sv d).
Proof.
  intros _ Hbox.
  assert (Hcol : forall i, 0 <= i -> i mod 13 = 0 ->
            load i (snd (renderFrame m d))
            = load i (drawSatsBinary4bit d (drawPvt2x1 d (clearPix 0)))).
  { intros i Hi Hc. unfold renderFrame.
    rewrite load_dot_layer by (auto; lia).
    apply load_bars_col; auto. lia. }
  unfold sats_shown.
  change (upto 4) with [0; 1; 2; 3]. cbn [fold_left].
  change (IDX 0 (7 - 0)) with 91. change (IDX 0 (7 - 1)) with 78.
  change (IDX 0 (7 - 2)) with 65. change (IDX 0 (7 - 3)) with 52.
  rewrite !Hcol by (try lia; reflexivity).
  rewrite drawSats_clamp.
  assert (Hc : 0 <= clamp_sv (sv d) <= 12) by (unfold clamp_sv; lia).
  remember (clamp_sv (sv d)) as c eqn:Heqc. clear Heqc Hcol.
  assert (Hcases : c = 0 \/ c = 1 \/ c = 2 \/ c = 3 \/ c = 4 \/ c = 5 \/
                   c = 6 \/ c = 7 \/ c = 8 \/ c = 9 \/ c = 10 \/ c = 11 \/
                   c = 12) by lia.
  repeat (destruct Hcases as [->|Hcases]); try subst c;
    vm_compute; reflexivity.
Qed.

Lemma sats_are_shown_witness :
  sats_shown (snd (renderFrame (mkMotion true 3 false)
                     (mkDisplay 2 9 (repeat (of_int 0) 6) 0 10 3 true)))
  = 9.
Proof.
  apply (sats_are_shown (mkMotion true 3 false)
           (mkDisplay 2 9 (repeat (of_int 0) 6) 0 10 3 true)).
  - split; [reflexivity|]. simpl. lia.
  - unfold in_box. simpl. unfold BOX_X0, BOX_Y0, BOX_W, BOX_H. lia.
Defined.

Lemma load_bar_column x b h k pix :
  List.length pix = 104%nat -> 0 <= x < 13 -> 0 <= k < 8 ->
  load (IDX x (7 - k))
       (fold_left (fun pix k' => add x (BAR_Y_BASE - k') b pix) (upto h) pix)
  = if k <? h
    then (let t := uint16 (load (IDX x (7 - k)) pix + b) in
          if t >? 7 then 7 else uint8 t)
    else load (IDX x (7 - k)) pix.
Proof.
  intros Hlen Hx Hk. unfold BAR_Y_BASE.
  rewrite (fold_single_hit _
             (fun v => let t := uint16 (v + b) in
                       if t >? 7 then 7 else uint8 t) _ k).
  - rewrite existsb_upto.
    replace (0 <=? k) with true by (symmetry; apply Z.leb_le; lia).
    reflexivity.
  - intros q c. apply length_add.
  - intros q Hq. apply load_add_same; auto.
    apply outside_false. lia.
  - intros q c Hc Hne. apply load_add_other.
    + unfold IDX. lia.
    + unfold IDX. lia.
  - apply NoDup_upto.
  - assumption.
Qed.

Lemma load_bars d pix i k :
  List.length pix = 104%nat -> 0 <= i < 6 -> 0 <= k < 8 ->
  load (IDX (2 + i) (7 - k)) (drawCn0Bars d pix)
  = if k <? cn0ToHeight (bar_value d i)
    then (let t := uint16 (load (IDX (2 + i) (7 - k)) pix
                           + cn0ToBright (bar_value d i)) in
          if t >? 7 then 7 else uint8 t)
    else load (IDX (2 + i) (7 - k)) pix.
Proof.
  intros Hlen Hi Hk. unfold drawCn0Bars, N_BARS, BAR_X0.
  rewrite (fold_single_hit _
             (fun v => if k <? cn0ToHeight (bar_value d i)
                       then (let t := uint16 (v + cn0ToBright (bar_value d i))
                             in if t >? 7 then 7 else uint8 t)
                       else v) _ i).
  - rewrite existsb_upto.
    replace (0 <=? i) with true by (symmetry; apply Z.leb_le; lia).
    replace (i <? 6) with true by (symmetry; apply Z.ltb_lt; lia).
    reflexivity.
  - intros q a. apply fold_length. intros q' c. apply length_add.
  - intros q Hq. apply load_bar_column; auto. lia.
  - intros q a Ha Hne. apply in_upto in Ha.
    apply fold_load_keeps. intros q' c Hc.
    apply load_add_col.
    + unfold IDX. lia.
    + rewrite IDX_col by lia. lia.
  - apply NoDup_upto.
  - assumption.
Qed.

(** X21: the bars of every frame show the signals: with the dot inside its
    box, in the column of bar [i] the pixel [k] rows above the bottom row
    (rows 7 up to 1) has the brightness of [cn0[i]] when [k] is below the
    height of [cn0[i]] and is dark otherwise; a bar beyond [cn0N] is
    dark. *)
Theorem bars_are_shown (m : Motion) (d : Display) (i k : Z) :
  display_ok d -> in_box d -> 0 <= i < 6 -> 0 <= k < 7 ->
  load (IDX (2 + i) (7 - k)) (snd (renderFrame m d))
  = (if k <? cn0ToHeight (bar_value d i)
     then cn0ToBright (bar_value d i) else 0) /\
  (cn0N d <= i -> load (IDX (2 + i) (7 - k)) (snd (renderFrame m d)) = 0).
Proof.
  intros _ Hbox Hi Hk.
  assert (Hidx : 0 <= IDX (2 + i) (7 - k)) by (unfold IDX; lia).
  assert (Hc : IDX (2 + i) (7 - k) mod 13 = 2 + i) by (apply IDX_col; lia).
  assert (Hmain : load (IDX (2 + i) (7 - k)) (snd (renderFrame m d))
                  = if k <? cn0ToHeight (bar_value d i)
                    then cn0ToBright (bar_value d i) else 0).
  { unfold renderFrame.
    rewrite load_dot_layer by (auto; lia).
    rewrite load_bars; try lia.
    2:{ unfold drawSatsBinary4bit. rewrite fold_length.
        - unfold drawPvt2x1. now rewrite !length_put.
        - intros q b. destruct (_ =? 0); auto using length_put. }
    rewrite load_sats_col by (auto; lia).
    unfold drawPvt2x1, PVT_X0, PVT_Y.
    rewrite !load_put_other by (auto; unfold IDX; lia).
    unfold load, clearPix.
    replace (nth _ (repeat 0 104) 0) with 0
      by (symmetry; apply nth_repeat).
    destruct (k <? _); auto. simpl.
    pose proof (bright_range (bar_value d i)) as Hb.
    unfold uint16, uint8. rewrite (Z.mod_small _ 65536) by lia.
    destruct (_ >? 7) eqn:E.
    - rewrite Z.gtb_ltb in E. apply Z.ltb_lt in E. lia.
    - apply Z.mod_small. lia. }
  split; [exact Hmain|].
  intros Hn. rewrite Hmain. unfold bar_value.
  replace (i <? cn0N d) with false by (symmetry; apply Z.ltb_ge; lia).
  change (cn0ToHeight (of_int 0)) with 0.
  replace (k <? 0) with false by (symmetry; apply Z.ltb_ge; lia).
  reflexivity.
Qed.

Lemma bars_are_shown_witness :
  let d := mkDisplay 2 9
             [JsNum.Fin (423 # 10); JsNum.Fin 30; of_int 0; of_int 0;
              of_int 0; of_int 0] 2 10 3 true in
  load (IDX 3 5) (snd (renderFrame (mkMotion false 0 false) d)) = 4.
Proof.
  intros d.
  destruct (bars_are_shown (mkMotion false 0 false) d 1 2) as [H _].
  - split; [reflexivity|]. simpl. lia.
  - unfold in_box. simpl. unfold BOX_X0, BOX_Y0, BOX_W, BOX_H. lia.
  - lia.
  - lia.
  - exact H.
Defined.

(** X22: the two pixels at the left of row 0 show the PVT state: with the
    dot inside its box they are both at full brightness when [pvt >= 1],
    and both follow the pulse (7 or 0) when [pvt <= 0]. *)
Ltac closed_side :=
  solve [assumption | vm_compute; first [reflexivity | discriminate]].

Theorem pvt_indicator_shown (m : Motion) (d : Display) :
  display_ok d -> in_box d ->
  let b := if pvt d <=? 0 then (if pulse d then 7 else 0) else 7 in
  load (IDX 1 0) (snd (renderFrame m d)) = b /\
  load (IDX 2 0) (snd (renderFrame m d)) = b.
Proof.
  intros _ Hbox b.
  assert (Hlen0 : List.length (put PVT_X0 PVT_Y b (clearPix 0)) = 104%nat)
    by now rewrite length_put.
  unfold renderFrame. split.
  - rewrite load_dot_layer by closed_side.
    rewrite load_bars_col by (first [closed_side | left; closed_side]).
    rewrite load_sats_col by closed_side.
    unfold drawPvt2x1. fold b. unfold PVT_X0, PVT_Y.
    rewrite load_put_other by closed_side.
    now apply load_put_same.
  - rewrite load_dot_layer by closed_side.
    change (IDX 2 0) with (IDX (2 + 0) (7 - 7)).
    rewrite load_bars; try lia.
    2:{ unfold drawSatsBinary4bit. rewrite fold_length.
        - unfold drawPvt2x1. now rewrite !length_put.
        - intros q c. destruct (_ =? 0); auto using length_put. }
    pose proof (height_range (bar_value d 0)) as Hh.
    replace (7 <? cn0ToHeight (bar_value d 0)) with false
      by (symmetry; apply Z.ltb_ge; lia).
    rewrite load_sats_col by closed_side.
    unfold drawPvt2x1. fold b. unfold PVT_X0, PVT_Y.
    change (IDX (2 + 0) (7 - 7)) with (IDX (1 + 1) 0).
    apply load_put_same; [now rewrite length_put | reflexivity].
Qed.

Lemma pvt_indicator_shown_witness :
  load (IDX 1 0)
       (snd (renderFrame (mkMotion false 0 false)
               (mkDisplay 0 9 (repeat (of_int 0) 6) 0 10 3 true))) = 7.
Proof.
  apply (pvt_indicator_shown (mkMotion false 0 false)
           (mkDisplay 0 9 (repeat (of_int 0) 6) 0 10 3 true)).
  - split; [reflexivity|]. simpl. lia.
  - unfold in_box. simpl. unfold BOX_X0, BOX_Y0, BOX_W, BOX_H. lia.
Defined.

End SketchProps.

(* ================================================================== *)
(** * The sketch's polling of the bridge *)

Module SketchLoopProps.
Import SketchLoop.

Lemma find_char_range c s from i :
  find_char c s from = Some i -> (from <= i < String.length s)%nat.
Proof.
  revert from i. induction s as [|a s IH]; intros from i; simpl.
  - discriminate.
  - destruct from as [|from].
    + destruct (Ascii.eqb a c).
      * intros H. inversion H. lia.
      * destruct (find_char c s 0) as [j|] eqn:E; simpl; [|discriminate].
        intros H. inversion H. apply IH in E. lia.
    + destruct (find_char c s from) as [j|] eqn:E; simpl; [|discriminate].
      intros H. inversion H. apply IH in E. lia.
Qed.

Lemma length_set_at (A : Type) i (v : A) (a : list A) :
  List.length (set_at i v a) = List.length a.
Proof.
  revert i. induction a as [|x a IH]; intros [|i]; simpl; auto.
Qed.

Lemma nth_set_at_other (A : Type) i j (v dflt : A) (a : list A) :
  i <> j -> nth j (set_at i v a) dflt = nth j a dflt.
Proof.
  revert i j. induction a as [|x a IH]; intros [|i] [|j] H; simpl;
    auto; try congruence.
Qed.

Section Bridge.
Variable toInt : string -> Z.
Variable toDouble : string -> Sketch.float.

Lemma parse_loop_total fuel t maxN n start cn0 :
  0 <= n <= maxN -> 0 <= start ->
  (String.length t + 1 - Z.to_nat start < fuel)%nat ->
  exists n' cn0',
    parse_loop toDouble fuel t maxN n start cn0 = Some (n', cn0') /\
    n <= n' <= maxN /\
    List.length cn0' = List.length cn0 /\
    forall i dflt, (Z.to_nat n' <= i)%nat -> nth i cn0' dflt = nth i cn0 dflt.
Proof.
  revert n start cn0. induction fuel as [|fuel IH]; intros n start cn0 Hn Hs Hf.
  - lia.
  - simpl. destruct (n <? maxN) eqn:En.
    2:{ exists n, cn0. repeat split; auto; lia. }
    apply Z.ltb_lt in En.
    set (comma := indexOf_char t ","%char start).
    set (part := trim (if comma <? 0 then substring t start (len t)
                       else substring t start comma)).
    set (n1 := if 0 <? len part then n + 1 else n).
    set (cn1 := if 0 <? len part
                then set_at (Z.to_nat n) (toDouble part) cn0 else cn0).
    assert (Hn1 : n <= n1 <= maxN)
      by (subst n1; destruct (0 <? len part); lia).
    assert (Hlen1 : List.length cn1 = List.length cn0)
      by (subst cn1; destruct (0 <? len part); auto using length_set_at).
    assert (Hkeep1 : forall i dflt, (Z.to_nat n1 <= i)%nat ->
                       nth i cn1 dflt = nth i cn0 dflt).
    { intros i dflt Hi. subst cn1 n1. destruct (0 <? len part); auto.
      apply nth_set_at_other. lia. }
    destruct (comma <? 0) eqn:Ec.
    + exists n1, cn1. repeat split; auto; lia.
    + apply Z.ltb_ge in Ec. subst comma. unfold indexOf_char in *.
      destruct (find_char ","%char t (Z.to_nat start)) as [j|] eqn:Ej;
        simpl in *; [|lia].
      apply find_char_range in Ej.
      destruct (IH n1 (Z.of_nat j + 1) cn1) as (n' & cn0' & Hrun & Hb & Hl & Hk).
      * lia.
      * lia.
      * lia.
      * exists n', cn0'. split; [exact Hrun|]. split; [lia|].
        split; [congruence|].
        intros i dflt Hi. rewrite Hk by assumption. apply Hkeep1. lia.
Qed.

(** X23: [parseCn0List] always returns, with a count between 0 and [maxN];
    the array keeps its size and only its first [n] elements can have been
    written; without a [C=] token the count is 0 and the array is as it
    was. *)
Theorem parse_cn0_bounded (s : string) (cn0 : list Sketch.float) (maxN : Z) :
  0 <= maxN ->
  exists n cn0',
    parseCn0List toDouble s cn0 maxN = Some (n, cn0') /\
    0 <= n <= maxN /\
    List.length cn0' = List.length cn0 /\
    (forall i dflt, (Z.to_nat n <= i)%nat ->
                    nth i cn0' dflt = nth i cn0 dflt) /\
    (extractToken s "C=" = None -> n = 0 /\ cn0' = cn0).
Proof.
  intros Hmax. unfold parseCn0List.
  destruct (extractToken s "C=") as [t|] eqn:Et.
  - destruct (parse_loop_total (S (S (String.length t))) t maxN 0 0 cn0)
      as (n & cn0' & Hrun & Hb & Hl & Hk); try lia.
    exists n, cn0'. split; [exact Hrun|]. split; [lia|].
    split; [exact Hl|]. split; [exact Hk|]. discriminate.
  - exists 0, cn0. repeat split; auto; lia.
Qed.

(** X24: a poll always completes and keeps the array of signals within its
    bounds: six elements, of which between 0 and 6 are in use; it never
    moves the dot.  A successful poll clears the failure count, and a key
    that the status string lacks leaves its variable as it was, but for the
    [C=] list, whose absence empties the bars. *)
Theorem poll_keeps_bounds (result : option string) (v : Vars) :
  Sketch.display_ok (display v) ->
  exists v',
    poll toInt toDouble result v = Some v' /\
    Sketch.display_ok (display v') /\
    Sketch.dotX (display v') = Sketch.dotX (display v) /\
    Sketch.dotY (display v') = Sketch.dotY (display v) /\
    (forall status, result = Some status ->
       failCount v' = 0 /\
       (extractToken status "P=" = None ->
        Sketch.pvt (display v') = Sketch.pvt (display v)) /\
       (extractToken status "S=" = None ->
        Sketch.sv (display v') = Sketch.sv (display v)) /\
       (extractToken status "C=" = None ->
        Sketch.cn0N (display v') = 0 /\
        Sketch.cn0 (display v') = Sketch.cn0 (display v))).
Proof.
  intros [Hlen Hn]. unfold poll. destruct result as [status|].
  - destruct (parse_cn0_bounded status (Sketch.cn0 (display v)) 6)
      as (n & cn0' & Hrun & Hb & Hl & _ & Hnone); [lia|].
    rewrite Hrun. eexists. split; [reflexivity|]. simpl.
    split; [split; simpl; [congruence | lia]|]. split; [reflexivity|].
    split; [reflexivity|].
    intros st Hst. inversion Hst. subst st. split; [reflexivity|].
    unfold extractInt. split; [|split].
    + now intros ->.
    + now intros ->.
    + exact Hnone.
  - destruct (failCount v + 1 >? 30); eexists;
      (split; [reflexivity|]); simpl;
      (split; [split; simpl; [assumption | lia]|]);
      (split; [reflexivity|]); (split; [reflexivity|]);
      intros st Hst; discriminate.
Qed.

Lemma poll_failure v :
  poll toInt toDouble None v
  = Some (if failCount v + 1 >? 30
          then mkVars
                 (Sketch.mkDisplay 0 0 (Sketch.cn0 (display v)) 0
                    (Sketch.dotX (display v)) (Sketch.dotY (display v))
                    (Sketch.pulse (display v)))
                 (JsNum.of_Z 99) (heading_deg v) (JsNum.of_Z 0)
                 (failCount v + 1)
          else mkVars (display v) (age_s v) (heading_deg v) (speed_mps v)
                      (failCount v + 1)).
Proof. unfold poll. now destruct (_ >? 30). Qed.

(** X25: the display survives thirty failed polls and is cleared by the
    thirty-first: after [k] failed polls in a row, counted from a success,
    the variables are as they were while [k <= 30]; from the thirty-first
    on the PVT state, the satellite count, the number of bars and the
    speed are 0 and the age is 99. *)
Theorem failures_clear_display (v : Vars) (k : nat) :
  failCount v = 0 ->
  exists v',
    polls toInt toDouble (repeat None k) v = Some v' /\
    failCount v' = Z.of_nat k /\
    ((k <= 30)%nat ->
     display v' = display v /\ age_s v' = age_s v /\
     speed_mps v' = speed_mps v) /\
    ((30 < k)%nat ->
     Sketch.pvt (display v') = 0 /\ Sketch.sv (display v') = 0 /\
     Sketch.cn0N (display v') = 0 /\ age_s v' = JsNum.of_Z 99 /\
     speed_mps v' = JsNum.of_Z 0).
Proof.
  intros Hf.
  assert (Hgen : forall k v0,
            0 <= failCount v0 ->
            (30 < failCount v0 ->
             Sketch.pvt (display v0) = 0 /\ Sketch.sv (display v0) = 0 /\
             Sketch.cn0N (display v0) = 0 /\ age_s v0 = JsNum.of_Z 99 /\
             speed_mps v0 = JsNum.of_Z 0) ->
            exists v',
              polls toInt toDouble (repeat None k) v0 = Some v' /\
              failCount v' = failCount v0 + Z.of_nat k /\
              (failCount v0 + Z.of_nat k <= 30 ->
               display v' = display v0 /\ age_s v' = age_s v0 /\
               speed_mps v' = speed_mps v0) /\
              (30 < failCount v0 + Z.of_nat k ->
               Sketch.pvt (display v') = 0 /\ Sketch.sv (display v') = 0 /\
               Sketch.cn0N (display v') = 0 /\ age_s v' = JsNum.of_Z 99 /\
               speed_mps v' = JsNum.of_Z 0)).
  { clear. induction k as [|k IH]; intros v0 Hpos Hclr.
    - exists v0. simpl. split; [reflexivity|]. split; [lia|].
      split; [auto|]. intros H. apply Hclr. lia.
    - cbn [repeat polls]. rewrite poll_failure.
      destruct (failCount v0 + 1 >? 30) eqn:E.
      + rewrite Z.gtb_ltb in E. apply Z.ltb_lt in E.
        match goal with
        | |- context [polls _ _ _ ?v1] => destruct (IH v1) as (v' & Hr & Hc & _ & Hlate)
        end; simpl; [lia | auto |].
        simpl in *. exists v'. split; [exact Hr|]. split; [lia|].
        split; [lia|]. intros _. apply Hlate. lia.
      + rewrite Z.gtb_ltb in E. apply Z.ltb_ge in E.
        match goal with
        | |- context [polls _ _ _ ?v1] => destruct (IH v1) as (v' & Hr & Hc & Hearly & Hlate)
        end; simpl; [lia | lia |].
        simpl in *. exists v'. split; [exact Hr|]. split; [lia|]. split.
        * intros H. apply Hearly. lia.
        * intros H. apply Hlate. lia. }
  destruct (Hgen k v) as (v' & Hr & Hc & Hearly & Hlate).
  - lia.
  - lia.
  - exists v'. split; [exact Hr|]. split; [lia|]. split.
    + intros H. apply Hearly. lia.
    + intros H. apply Hlate. lia.
Qed.
End Bridge.

Lemma parse_cn0_bounded_witness :
  parseCn0List (fun _ => JsNum.of_Z 40)
               "P=2;S=9;A=0.4;H=10;V=1;C=41.5, 38,,35;" 
               (repeat (JsNum.of_Z 0) 6) 6
  = Some (3, [JsNum.of_Z 40; JsNum.of_Z 40; JsNum.of_Z 40;
              JsNum.of_Z 0; JsNum.of_Z 0; JsNum.of_Z 0]).
Proof.
  destruct (parse_cn0_bounded (fun _ => JsNum.of_Z 40)
              "P=2;S=9;A=0.4;H=10;V=1;C=41.5, 38,,35;"
              (repeat (JsNum.of_Z 0) 6) 6) as (n & cn0' & Hrun & _).
  - lia.
  - rewrite Hrun. vm_compute in Hrun. inversion Hrun. reflexivity.
Defined.

Lemma poll_keeps_bounds_witness :
  exists v',
    poll (fun _ => 2) (fun _ => JsNum.of_Z 40) (Some "S=9;C=41,38"%string)
         (mkVars Sketch.initial_display (JsNum.of_Z 0) (JsNum.of_Z 0)
                 (JsNum.of_Z 0) 3) = Some v' /\
    Sketch.display_ok (display v').
Proof.
  destruct (poll_keeps_bounds (fun _ => 2) (fun _ => JsNum.of_Z 40)
              (Some "S=9;C=41,38"%string)
              (mkVars Sketch.initial_display (JsNum.of_Z 0) (JsNum.of_Z 0)
                      (JsNum.of_Z 0) 3)) as (v' & Hrun & Hok & _).
  - split; [reflexivity|]. simpl. lia.
  - exists v'. split; [exact Hrun|exact Hok].
Defined.

Lemma failures_clear_display_witness :
  exists v',
    polls (fun _ => 2) (fun _ => JsNum.of_Z 40) (repeat None 31)
          (mkVars (Sketch.mkDisplay 2 9 (repeat (JsNum.of_Z 40) 6) 4 10 3
                                    false)
                  (JsNum.of_Z 0) (JsNum.of_Z 0) (JsNum.of_Z 5) 0)
    = Some v' /\
    Sketch.sv (display v') = 0.
Proof.
  destruct (failures_clear_display (fun _ => 2) (fun _ => JsNum.of_Z 40)
              (mkVars (Sketch.mkDisplay 2 9 (repeat (JsNum.of_Z 40) 6) 4 10 3
                                        false)
                      (JsNum.of_Z 0) (JsNum.of_Z 0) (JsNum.of_Z 5) 0) 31)
    as (v' & Hrun & _ & _ & Hlate).
  - reflexivity.
  - exists v'. split; [exact Hrun|]. apply Hlate. lia.
Defined.

End SketchLoopProps.

(* ================================================================== *)
(** * The freshness tests at the boundary *)

Module FreshnessProps.
Import Reading.

Local Abbreviation at_time := set_clock.

(** X26: the three freshness tests, to the millisecond.  A PVT fix recorded
    at time [t] is returned by [getLatestPvt] at time [now] exactly when
    [now - t <= TTL_MS]; the health summary reports it live exactly when
    [now - t < TTL_MS]; and a sample recorded at [t] is among the entries
    of an unlimited snapshot exactly when [now - t < TTL_MS].  At an age
    of exactly [TTL_MS] the fix is still served while the feed is reported
    not live and a sample of that age is left out. *)
Theorem freshness_boundaries (w : World) (msg : PvtMsg) (s : Sample)
    (id t now : Z) :
  channel_id s = Some id ->
  let wp := exec (State.setLatestPvt msg) (at_time t w) in
  let wo := exec (State.updateLatestObservables (State.ArrayOf [Some s]))
                 (at_time t w) in
  (completion State.getLatestPvt (at_time now wp) = Normal (Some msg)
   <-> now - t <= State.TTL_MS) /\
  (exists m,
     completion State.getLatestObservablesMeta (at_time now wp) = Normal m /\
     (State.is_live m = true <-> now - t < State.TTL_MS)) /\
  (exists res,
     completion (State.getLatestObservables (Some (JsNum.of_Z 0)))
                (at_time now wo) = Normal res /\
     (In (mkStored s t) res <-> now - t < State.TTL_MS)).
Proof.
  intros Hid wp wo. split; [|split].
  - subst wp. unfold completion, exec.
    rewrite StateFacts.run_setLatestPvt, StateFacts.run_getLatestPvt. simpl.
    destruct (now - t >? State.TTL_MS) eqn:E; rewrite Z.gtb_ltb in E.
    + apply Z.ltb_lt in E. split; [discriminate | lia].
    + apply Z.ltb_ge in E. split; [auto | reflexivity].
  - eexists. split; [reflexivity|]. simpl. apply Z.ltb_lt.
  - eexists. split; [apply StateFacts.result_getLatestObservables|].
    simpl. unfold cut. simpl. rewrite SortFacts.sort_in.
    unfold fresh_samples, fresh_entries. rewrite in_map_iff. split.
    + intros ([k e] & He & Hin). simpl in He. subst e.
      apply filter_In in Hin. destruct Hin as [_ Hf].
      unfold fresh_entry, State.fresh in Hf. simpl in Hf.
      now apply Z.ltb_lt in Hf.
    + intros Hlt. exists (id, mkStored s t). split; [reflexivity|].
      apply filter_In. split.
      * apply JsMapFacts.get_in. subst wo. unfold exec.
        rewrite StateFacts.run_updateLatestObservables. simpl.
        apply (StoreFacts.get_record_all_last t [] s [] _ id Hid).
        intros s' [].
      * unfold fresh_entry, State.fresh. simpl. now apply Z.ltb_lt.
Qed.

Lemma freshness_boundaries_witness :
  let fix64 := Scenario.fix_with 6 4 in
  let wp := exec (State.setLatestPvt fix64) (at_time 1000 (initial_world 0)) in
  completion State.getLatestPvt (at_time 6000 wp) = Normal (Some fix64).
Proof.
  intros fix64 wp.
  destruct (freshness_boundaries (initial_world 0) fix64
              (Scenario.sample_on 5 40) 5 1000 6000) as (Hpvt & _).
  - reflexivity.
  - apply Hpvt. unfold State.TTL_MS. lia.
Defined.

End FreshnessProps.
